(** * password-utility: generation, analysis, scoring and policy validation

    A shallow embedding of the Python sources under [src/] and the
    properties of the specification that concern them.

    Conventions of the embedding.
    - Python [int] is [Z]; [len(...)] is a [nat].
    - Python [str] is [string]: a text of code points below 256, one
      character of [ascii] for each. The classes [[A-Z]], [[a-z]] and
      [[^A-Za-z0-9]] are the ranges the source names; [\d], [lower],
      [isupper], [islower], [isdigit] and [isalnum] follow the Unicode
      tables of Python on these code points.
    - Python [float] is a real number [R]: the rounding of the binary
      representation is not modelled, its range is. The operations that
      raise when a result or an operand is beyond the largest float,
      [2 ** x] and the divisions, raise [OverflowError] here, and a
      division by zero raises [ZeroDivisionError].
    - A [Dict[str, bool]] of generation options is a [gmap string bool];
      the analysis dictionary, whose keys are fixed, is a record.
    - Python lists are objects: they live in a heap of locations, so that
      copying and in-place updates are distinguished.
    - The [secrets] module is a tape of draws, consumed one entry per call
      to [randbelow]; every statement quantifies over the whole tape. *)

From Stdlib Require Import ZArith List String Ascii Reals Lra Lia DecimalString.
From stdpp Require Import base option list gmap strings.

Open Scope Z_scope.

(** ** src/core/exceptions.py *)

Inductive exn : Type :=
| InvalidLengthError (length min_len max_len : Z)
| InvalidCharsetError
| ValueError (msg : string)
| IndexError
| OverflowError
| ZeroDivisionError
| DanglingReference.

Inductive result (A : Type) : Type :=
| Ok (a : A)
| Raise (e : exn).
Arguments Ok {A} a.
Arguments Raise {A} e.

(** A call that can raise, followed by the rest of the function. *)
Definition and_then {A B} (r : result A) (k : A -> result B) : result B :=
  match r with
  | Ok a => k a
  | Raise e => Raise e
  end.

(** ** The run-time state: a heap of list objects and the random tape *)

Definition loc := nat.

Record state (T : Type) : Type := State {
  heap : gmap loc (list T);
  tape : nat -> nat
}.
Arguments State {T} heap tape.
Arguments heap {T} s.
Arguments tape {T} s.

Definition M (T A : Type) : Type := state T -> result (A * state T).

Definition ret {T A} (a : A) : M T A := fun st => Ok (a, st).

Definition bind {T A B} (m : M T A) (f : A -> M T B) : M T B :=
  fun st => match m st with
            | Ok (a, st') => f a st'
            | Raise e => Raise e
            end.

Definition raise {T A} (e : exn) : M T A := fun _ => Raise e.

Declare Scope py_scope.
Delimit Scope py_scope with py.
Notation "x <- m ;; k" := (bind m (fun x => k))
  (at level 100, m at next level, right associativity) : py_scope.
Notation "m ;;; k" := (bind m (fun _ => k))
  (at level 100, right associativity) : py_scope.
Notation "x <== r ;; k" := (and_then r (fun x => k))
  (at level 100, r at next level, right associativity) : py_scope.
Open Scope py_scope.

Section ListObjects.
Context {T : Type}.

(** A new list object: a location the heap does not use yet. *)
Definition alloc (xs : list T) : M T loc := fun st =>
  let l := fresh (dom (heap st)) in
  Ok (l, State (<[l := xs]> (heap st)) (tape st)).

Definition load (l : loc) : M T (list T) := fun st =>
  match heap st !! l with
  | Some xs => Ok (xs, st)
  | None => Raise DanglingReference
  end.

Definition store (l : loc) (xs : list T) : M T unit := fun st =>
  Ok (tt, State (<[l := xs]> (heap st)) (tape st)).

(** [items.copy()] *)
Definition list_copy (l : loc) : M T loc :=
  xs <- load l ;; alloc xs.

(** [len(items)] *)
Definition list_len (l : loc) : M T nat :=
  xs <- load l ;; ret (length xs).

(** [items.append(x)] *)
Definition list_append (l : loc) (x : T) : M T unit :=
  xs <- load l ;; store l (xs ++ [x]).

(** [items[i]] for [i >= 0] *)
Definition list_getitem (l : loc) (i : nat) : M T T :=
  xs <- load l ;;
  match xs !! i with
  | Some x => ret x
  | None => raise IndexError
  end.

(** [items[i] = x] for [i >= 0] *)
Definition list_setitem (l : loc) (i : nat) (x : T) : M T unit :=
  xs <- load l ;;
  if decide (i < length xs)%nat then store l (<[i := x]> xs)
  else raise IndexError.

(** ** src/core/security.py *)

(** [secrets.randbelow(n)]: one draw of the tape, reduced into [0, n). *)
Definition randbelow (n : nat) : M T nat := fun st =>
  match n with
  | O => Raise (ValueError "Upper bound must be positive")
  | S _ => Ok ((tape st 0 `mod` n)%nat,
               State (heap st) (fun k => tape st (S k)))
  end.

(** [shuffled[i], shuffled[j] = shuffled[j], shuffled[i]]: the right-hand
    side is read first, then the two targets are assigned in order. *)
Definition swap_items (shuffled : loc) (i j : nat) : M T unit :=
  xj <- list_getitem shuffled j ;;
  xi <- list_getitem shuffled i ;;
  list_setitem shuffled i xj ;;;
  list_setitem shuffled j xi.

(** The body of [for i in range(n - 1, 0, -1)], entered with the first
    index; index [0] is never visited. *)
Fixpoint shuffle_loop (shuffled : loc) (i : nat) : M T unit :=
  match i with
  | O => ret tt
  | S i' =>
      j <- randbelow (i + 1) ;;
      swap_items shuffled i j ;;;
      shuffle_loop shuffled i'
  end.

Definition secure_shuffle (items : loc) : M T loc :=
  shuffled <- list_copy items ;;
  n <- list_len shuffled ;;
  shuffle_loop shuffled (n - 1) ;;;
  ret shuffled.

End ListObjects.

(** [secrets.choice(sequence)] is [sequence[randbelow(len(sequence))]]. *)
Definition secrets_choice {T} (sequence : string) : M T ascii :=
  j <- randbelow (String.length sequence) ;;
  match String.get j sequence with
  | Some c => ret c
  | None => raise IndexError
  end.

Definition secure_random_choice {T} (sequence : string) : M T ascii :=
  if decide (sequence = EmptyString)
  then raise (ValueError "Cannot choose from empty sequence")
  else secrets_choice sequence.

Definition secure_randint {T} (min_val max_val : Z) : M T Z :=
  if min_val >? max_val
  then raise (ValueError "min_val cannot be greater than max_val")
  else
    let range_size := max_val - min_val + 1 in
    r <- randbelow (Z.to_nat range_size) ;;
    ret (min_val + Z.of_nat r).

(** ** src/core/constants.py *)

Definition UPPERCASE : string := "ABCDEFGHIJKLMNOPQRSTUVWXYZ".
Definition LOWERCASE : string := "abcdefghijklmnopqrstuvwxyz".
Definition DIGITS : string := "0123456789".
(** [string.punctuation]; its second character is the double quote. *)
Definition SYMBOLS : string :=
  String "!" (String (ascii_of_nat 34) "#$%&'()*+,-./:;<=>?@[\]^_`{|}~").

Definition COMMON_PATTERNS : list string :=
  [ "password"; "pass"; "123456"; "12345678"; "qwerty"; "abc123";
    "monkey"; "letmein"; "trustno1"; "dragon"; "baseball";
    "iloveyou"; "master"; "sunshine"; "ashley"; "bailey";
    "shadow"; "superman"; "qazwsx"; "michael"; "football";
    "welcome"; "jesus"; "ninja"; "mustang"; "admin";
    "login"; "passw0rd"; "p@ssword"; "test"; "user" ]%string.

Definition SEQUENTIAL_PATTERNS : list string :=
  [ "abc"; "bcd"; "cde"; "def"; "efg"; "fgh"; "ghi"; "hij";
    "ijk"; "jkl"; "klm"; "lmn"; "mno"; "nop"; "opq"; "pqr";
    "qrs"; "rst"; "stu"; "tuv"; "uvw"; "vwx"; "wxy"; "xyz";
    "123"; "234"; "345"; "456"; "567"; "678"; "789";
    "qwe"; "wer"; "ert"; "rty"; "tyu"; "yui"; "uio"; "iop";
    "asd"; "sdf"; "dfg"; "fgh"; "ghj"; "hjk"; "jkl";
    "zxc"; "xcv"; "cvb"; "vbn"; "bnm" ]%string.

Definition KEYBOARD_PATTERNS : list string :=
  [ "qwerty"; "asdfgh"; "zxcvbn"; "1qaz2wsx"; "qazwsx";
    "qwertyuiop"; "asdfghjkl"; "zxcvbnm" ]%string.

(** ** src/config/settings.py *)

Definition MIN_PASSWORD_LENGTH : Z := 4.
Definition MAX_PASSWORD_LENGTH : Z := 128.
Definition SCORE_WEAK_THRESHOLD : Z := 40.
Definition SCORE_MEDIUM_THRESHOLD : Z := 60.
Definition SCORE_STRONG_THRESHOLD : Z := 80.
Definition BRUTE_FORCE_RATE : Z := 1000000000.
Definition DEFAULT_POLICY_MIN_LENGTH : Z := 8.
Definition DEFAULT_POLICY_MAX_LENGTH : Z := 128.
Definition DEFAULT_REQUIRE_UPPERCASE : bool := true.
Definition DEFAULT_REQUIRE_LOWERCASE : bool := true.
Definition DEFAULT_REQUIRE_NUMBERS : bool := true.
Definition DEFAULT_REQUIRE_SYMBOLS : bool := false.

(** ** Dictionaries of options *)

(** [options.get(key, False)] *)
Definition dict_get (options : gmap string bool) (key : string) : bool :=
  default false (options !! key).

(** [options.values()], in the dictionary's own order *)
Definition dict_values (options : gmap string bool) : list bool :=
  (map_to_list options).*2.

(** [any(bs)] *)
Definition any (bs : list bool) : bool := existsb (fun b => b) bs.

(** ** src/generator/charset_builder.py *)

Module CharsetBuilder.

Definition build_charset (options : gmap string bool) : result string :=
  let charset := EmptyString in
  let charset := if dict_get options "uppercase"
                 then (charset ++ UPPERCASE)%string else charset in
  let charset := if dict_get options "lowercase"
                 then (charset ++ LOWERCASE)%string else charset in
  let charset := if dict_get options "numbers"
                 then (charset ++ DIGITS)%string else charset in
  let charset := if dict_get options "symbols"
                 then (charset ++ SYMBOLS)%string else charset in
  if decide (charset = EmptyString)
  then Raise (ValueError "At least one character set must be selected")
  else Ok charset.

Definition get_required_chars (options : gmap string bool) : list string :=
  let required := [] in
  let required := if dict_get options "uppercase"
                  then required ++ [UPPERCASE] else required in
  let required := if dict_get options "lowercase"
                  then required ++ [LOWERCASE] else required in
  let required := if dict_get options "numbers"
                  then required ++ [DIGITS] else required in
  let required := if dict_get options "symbols"
                  then required ++ [SYMBOLS] else required in
  required.

Definition calculate_charset_size (options : gmap string bool) : Z :=
  let size := 0 in
  let size := if dict_get options "uppercase"
              then size + Z.of_nat (String.length UPPERCASE) else size in
  let size := if dict_get options "lowercase"
              then size + Z.of_nat (String.length LOWERCASE) else size in
  let size := if dict_get options "numbers"
              then size + Z.of_nat (String.length DIGITS) else size in
  let size := if dict_get options "symbols"
              then size + Z.of_nat (String.length SYMBOLS) else size in
  size.

Definition validate_options (options : gmap string bool) : bool :=
  any (dict_values options).

End CharsetBuilder.

(** ** src/generator/entropy_calculator.py *)

(** [math.log2] *)
Definition log2 (x : R) : R := (ln x / ln 2)%R.

Module EntropyCalculator.

Definition calculate_entropy (length charset_size : Z) : R :=
  if (charset_size <=? 0) || (length <=? 0) then 0%R
  else (IZR length * log2 (IZR charset_size))%R.

Definition calculate_combinations (length charset_size : Z) : R :=
  if (charset_size <=? 0) || (length <=? 0) then 0%R
  else IZR (charset_size ^ length).

Definition entropy_from_options (length : Z) (options : gmap string bool) : R :=
  let charset_size := 0 in
  let charset_size := if dict_get options "uppercase"
                      then charset_size + 26 else charset_size in
  let charset_size := if dict_get options "lowercase"
                      then charset_size + 26 else charset_size in
  let charset_size := if dict_get options "numbers"
                      then charset_size + 10 else charset_size in
  let charset_size := if dict_get options "symbols"
                      then charset_size + 32 else charset_size in
  calculate_entropy length charset_size.

Definition get_entropy_rating (entropy : R) : string :=
  if Rge_dec entropy 80 then "Excellent"
  else if Rge_dec entropy 60 then "Good"
  else if Rge_dec entropy 40 then "Fair"
  else "Poor".

End EntropyCalculator.

(** ** src/generator/password_generator.py *)

Module PasswordGenerator.

(** [for char_set in required_charsets:
       password_chars.append(secure_random_choice(char_set))] *)
Fixpoint append_required (password_chars : loc) (required_charsets : list string)
  : M ascii unit :=
  match required_charsets with
  | [] => ret tt
  | char_set :: rest =>
      c <- secure_random_choice char_set ;;
      list_append password_chars c ;;;
      append_required password_chars rest
  end.

(** [for _ in range(remaining):
       password_chars.append(secure_random_choice(charset))] *)
Fixpoint append_remaining (password_chars : loc) (charset : string)
  (remaining : nat) : M ascii unit :=
  match remaining with
  | O => ret tt
  | S k =>
      c <- secure_random_choice charset ;;
      list_append password_chars c ;;;
      append_remaining password_chars charset k
  end.

Definition generate (length : Z) (options : gmap string bool) : M ascii string :=
  if (length <? MIN_PASSWORD_LENGTH) || (length >? MAX_PASSWORD_LENGTH)
  then raise (InvalidLengthError length MIN_PASSWORD_LENGTH MAX_PASSWORD_LENGTH)
  else if negb (CharsetBuilder.validate_options options)
  then raise InvalidCharsetError
  else
    match CharsetBuilder.build_charset options with
    | Raise e => raise e
    | Ok charset =>
        let required_charsets := CharsetBuilder.get_required_chars options in
        if Z.of_nat (List.length required_charsets) >? length
        then raise (InvalidLengthError length
                      (Z.of_nat (List.length required_charsets))
                      MAX_PASSWORD_LENGTH)
        else
          password_chars <- alloc [] ;;
          append_required password_chars required_charsets ;;;
          n <- list_len password_chars ;;
          let remaining := length - Z.of_nat n in
          append_remaining password_chars charset (Z.to_nat remaining) ;;;
          password_chars <- secure_shuffle password_chars ;;
          chars <- load password_chars ;;
          ret (string_of_list_ascii chars)
    end.

(** [[self.generate(length, options) for _ in range(count)]] *)
Fixpoint generate_multiple_loop (count : nat) (length : Z)
  (options : gmap string bool) : M ascii (list string) :=
  match count with
  | O => ret []
  | S k =>
      p <- generate length options ;;
      ps <- generate_multiple_loop k length options ;;
      ret (p :: ps)
  end.

Definition generate_multiple (count length : Z) (options : gmap string bool)
  : M ascii (list string) :=
  generate_multiple_loop (Z.to_nat count) length options.

Definition calculate_entropy (length : Z) (options : gmap string bool) : R :=
  EntropyCalculator.entropy_from_options length options.

End PasswordGenerator.

(** ** Strings and regular expressions of the analyzer *)

Definition chars (s : string) : list ascii := list_ascii_of_string s.

Definition in_range (lo hi c : ascii) : bool :=
  (nat_of_ascii lo <=? nat_of_ascii c)%nat && (nat_of_ascii c <=? nat_of_ascii hi)%nat.

(** The classes [[A-Z]], [[a-z]], [\d] and [[^A-Za-z0-9]]. *)
Definition re_upper (c : ascii) : bool := in_range "A" "Z" c.
Definition re_lower (c : ascii) : bool := in_range "a" "z" c.
Definition re_digit (c : ascii) : bool := in_range "0" "9" c.
Definition re_symbol (c : ascii) : bool :=
  negb (re_upper c || re_lower c || re_digit c).

(** [bool(re.search(cls, s))] for a one-character class *)
Definition re_search_class (cls : ascii -> bool) (s : string) : bool :=
  existsb cls (chars s).

(** [c.isupper()], [c.islower()], [c.isdigit()] and [c.isalnum()] follow
    the Unicode tables: beside the ASCII letters and digits, the letters
    of codes 192 to 255 (but the signs 215 and 247), the ordinal
    indicators 170 and 186, the micro sign 181, the superscript digits
    178, 179 and 185, and for [isalnum] the fractions 188 to 190. *)
Definition code_in (lo hi : nat) (c : ascii) : bool :=
  (lo <=? nat_of_ascii c)%nat && (nat_of_ascii c <=? hi)%nat.

Definition isupper (c : ascii) : bool :=
  re_upper c || code_in 192 214 c || code_in 216 222 c.
Definition islower (c : ascii) : bool :=
  re_lower c || code_in 170 170 c || code_in 181 181 c || code_in 186 186 c
  || code_in 223 246 c || code_in 248 255 c.
Definition isdigit (c : ascii) : bool :=
  re_digit c || code_in 178 179 c || code_in 185 185 c.
Definition isalnum (c : ascii) : bool :=
  isupper c || islower c || isdigit c || code_in 188 190 c.

(** [s.lower()]: an uppercase letter of these codes has its lowercase
    letter 32 places further. *)
Definition lower_char (c : ascii) : ascii :=
  if isupper c then ascii_of_nat (nat_of_ascii c + 32) else c.
Definition lower (s : string) : string :=
  string_of_list_ascii (map lower_char (chars s)).

(** [pattern[::-1]] *)
Definition reversed (s : string) : string :=
  string_of_list_ascii (rev (chars s)).

(** [pattern in s] *)
Fixpoint str_in (pattern s : string) : bool :=
  String.prefix pattern s ||
  match s with
  | EmptyString => false
  | String _ s' => str_in pattern s'
  end.

(** [re.search(r, s)] tries the anchored matcher at every position,
    the end of the string included. *)
Fixpoint re_search (match_here : string -> bool) (s : string) : bool :=
  match_here s ||
  match s with
  | EmptyString => false
  | String _ s' => re_search match_here s'
  end.

Definition newline : ascii := ascii_of_nat 10.

(** [\1{k}] after the group captured [c] *)
Fixpoint copies_here (c : ascii) (k : nat) (s : string) : bool :=
  match k with
  | O => true
  | S k' =>
      match s with
      | String d s' => Ascii.eqb c d && copies_here c k' s'
      | EmptyString => false
      end
  end.

(** [(.)\1{k,}]: the dot takes any character but the newline. *)
Definition repeated_here (k : nat) (s : string) : bool :=
  match s with
  | String c s' => negb (Ascii.eqb c newline) && copies_here c k s'
  | EmptyString => false
  end.

(** [(.)\1] and then the text [braces] as it stands: what the pattern is
    when the count between its braces is negative, as [{-1,}] repeats
    nothing and is read character by character. *)
Definition doubled_here (braces : string) (s : string) : bool :=
  match s with
  | String c (String d s') =>
      negb (Ascii.eqb c newline) && Ascii.eqb c d && String.prefix braces s'
  | _ => false
  end.

(** The largest count the [re] module takes between braces, on a 64-bit
    build; from it on, compiling the pattern raises [OverflowError]. *)
Definition MAXREPEAT : Z := 4294967295.

(** [\d{n}]: exactly [n] digits, giving the rest of the text *)
Fixpoint eat_digits (n : nat) (s : string) : option string :=
  match n with
  | O => Some s
  | S n' =>
      match s with
      | String c s' => if re_digit c then eat_digits n' s' else None
      | EmptyString => None
      end
  end.

(** [[/-]] *)
Definition eat_separator (s : string) : option string :=
  match s with
  | String c s' =>
      if Ascii.eqb c "/" || Ascii.eqb c "-" then Some s' else None
  | EmptyString => None
  end.

(** [\d{lo,hi} rest]: the counts are tried from the longest down. *)
Definition digits_between (counts : list nat) (rest : string -> bool)
  (s : string) : bool :=
  existsb (fun n => match eat_digits n s with
                    | Some s' => rest s'
                    | None => false
                    end) counts.

(** [DATE_PATTERN = \d{2,4}[/-]\d{1,2}[/-]\d{1,2}] *)
Definition date_here (s : string) : bool :=
  digits_between [4; 3; 2]%nat (fun s1 =>
    match eat_separator s1 with
    | Some s2 =>
        digits_between [2; 1]%nat (fun s3 =>
          match eat_separator s3 with
          | Some s4 => digits_between [2; 1]%nat (fun _ => true) s4
          | None => false
          end) s2
    | None => false
    end) s.

(** [$]: the end of the text, or just before a final newline *)
Definition at_end (s : string) : bool :=
  match s with
  | EmptyString => true
  | String c EmptyString => Ascii.eqb c newline
  | _ => false
  end.

(** [\d+$] *)
Fixpoint digits_to_end (s : string) : bool :=
  match s with
  | String c s' => re_digit c && (at_end s' || digits_to_end s')
  | EmptyString => false
  end.

(** [str(n)] of an integer *)
Definition str_of_int (n : Z) : string := NilZero.string_of_int (Z.to_int n).

(** ** Floats *)

(** [int(x)] of a float: truncation towards zero *)
Definition int_of_float (x : R) : Z :=
  if Rle_dec 0 x then Zfloor x else - Zfloor (- x).

(** The largest float is [2 ** 1024 - 2 ** 971]; rounding to the nearest
    float takes every number from [2 ** 1024 - 2 ** 970] on beyond it. *)
Definition float_limit : Z := 2 ^ 1024 - 2 ^ 970.

(** [float(n)], as an arithmetic operation converts its int operand *)
Definition float_of_int (n : Z) : result R :=
  if float_limit <=? Z.abs n then Raise OverflowError else Ok (IZR n).

(** [2 ** x] at a float [x] *)
Definition pow2_float (x : R) : result R :=
  if Rle_dec 1024 x then Raise OverflowError else Ok (Rpower 2 x).

(** [x / n], a float by an int: the int is converted, then the division
    checks it against zero. *)
Definition float_div_int (x : R) (n : Z) : result R :=
  d <== float_of_int n ;;
  if n =? 0 then Raise ZeroDivisionError else Ok (x / d)%R.


(** ** src/analyzer/pattern_detector.py *)

Module Patterns.
Record t : Type := Build {
  has_common_patterns : bool;
  has_sequential : bool;
  has_keyboard_patterns : bool;
  has_repeated_chars : bool;
  has_date_pattern : bool;
  has_number_only_suffix : bool
}.
End Patterns.

Module PatternDetector.

Definition has_common_patterns (password : string) : bool :=
  let password_lower := lower password in
  any (map (fun pattern => str_in pattern password_lower) COMMON_PATTERNS).

Fixpoint has_sequential_loop (patterns : list string) (password_lower : string)
  : bool :=
  match patterns with
  | [] => false
  | pattern :: rest =>
      if str_in pattern password_lower || str_in (reversed pattern) password_lower
      then true
      else has_sequential_loop rest password_lower
  end.

Definition has_sequential_patterns (password : string) : bool :=
  let password_lower := lower password in
  has_sequential_loop SEQUENTIAL_PATTERNS password_lower.

Definition has_keyboard_patterns (password : string) : bool :=
  let password_lower := lower password in
  any (map (fun pattern => str_in pattern password_lower) KEYBOARD_PATTERNS).

(** The pattern is [(.)\1{] and [str(min_repeat - 1)] and [,}]; the
    analyzer calls it with the default [min_repeat = 3]. *)
Definition has_repeated_characters (password : string) (min_repeat : Z)
  : result bool :=
  if MAXREPEAT <=? min_repeat - 1 then Raise OverflowError
  else if 0 <=? min_repeat - 1
  then Ok (re_search (repeated_here (Z.to_nat (min_repeat - 1))) password)
  else
    let braces := ("{" ++ str_of_int (min_repeat - 1) ++ ",}")%string in
    Ok (re_search (doubled_here braces) password).

Definition has_date_pattern (password : string) : bool :=
  re_search date_here password.

Definition has_number_suffix (password : string) : bool :=
  re_search digits_to_end password.

Definition detect_all_patterns (password : string) : result Patterns.t :=
  has_repeated_chars <== has_repeated_characters password 3 ;;
  Ok {| Patterns.has_common_patterns := has_common_patterns password;
        Patterns.has_sequential := has_sequential_patterns password;
        Patterns.has_keyboard_patterns := has_keyboard_patterns password;
        Patterns.has_repeated_chars := has_repeated_chars;
        Patterns.has_date_pattern := has_date_pattern password;
        Patterns.has_number_only_suffix := has_number_suffix password |}.

Definition get_detected_patterns (password : string) : result (list string) :=
  results <== detect_all_patterns password ;;
  let items :=
    [ (Patterns.has_common_patterns results, "Common weak patterns");
      (Patterns.has_sequential results, "Sequential characters");
      (Patterns.has_keyboard_patterns results, "Keyboard patterns");
      (Patterns.has_repeated_chars results, "Repeated characters");
      (Patterns.has_date_pattern results, "Date patterns");
      (Patterns.has_number_only_suffix results, "Numbers-only suffix") ]%string in
  Ok (map snd (filter (fun item => fst item = true) items)).

End PatternDetector.

(** ** The analysis dictionary *)

Module Analysis.
Record t : Type := Build {
  length : nat;
  has_uppercase : bool;
  has_lowercase : bool;
  has_numbers : bool;
  has_symbols : bool;
  has_common_patterns : bool;
  has_sequential : bool;
  has_keyboard_patterns : bool;
  has_repeated_chars : bool;
  has_date_pattern : bool;
  has_number_only_suffix : bool;
  diversity_score : R;
  entropy : R;
  score : Z;
  strength : string;
  crack_time : string;
  security_level : string;
  recommendations : list string;
  detected_patterns : list string
}.

(** [analysis[key] = v], one function per key assigned by [analyze] *)
Definition set_diversity_score (v : R) (a : t) : t :=
  let 'Build f1 f2 f3 f4 f5 f6 f7 f8 f9 f10 f11 _ f13 f14 f15 f16 f17 f18 f19 := a in
  Build f1 f2 f3 f4 f5 f6 f7 f8 f9 f10 f11 v f13 f14 f15 f16 f17 f18 f19.
Definition set_entropy (v : R) (a : t) : t :=
  let 'Build f1 f2 f3 f4 f5 f6 f7 f8 f9 f10 f11 f12 _ f14 f15 f16 f17 f18 f19 := a in
  Build f1 f2 f3 f4 f5 f6 f7 f8 f9 f10 f11 f12 v f14 f15 f16 f17 f18 f19.
Definition set_score (v : Z) (a : t) : t :=
  let 'Build f1 f2 f3 f4 f5 f6 f7 f8 f9 f10 f11 f12 f13 _ f15 f16 f17 f18 f19 := a in
  Build f1 f2 f3 f4 f5 f6 f7 f8 f9 f10 f11 f12 f13 v f15 f16 f17 f18 f19.
Definition set_strength (v : string) (a : t) : t :=
  let 'Build f1 f2 f3 f4 f5 f6 f7 f8 f9 f10 f11 f12 f13 f14 _ f16 f17 f18 f19 := a in
  Build f1 f2 f3 f4 f5 f6 f7 f8 f9 f10 f11 f12 f13 f14 v f16 f17 f18 f19.
Definition set_crack_time (v : string) (a : t) : t :=
  let 'Build f1 f2 f3 f4 f5 f6 f7 f8 f9 f10 f11 f12 f13 f14 f15 _ f17 f18 f19 := a in
  Build f1 f2 f3 f4 f5 f6 f7 f8 f9 f10 f11 f12 f13 f14 f15 v f17 f18 f19.
Definition set_security_level (v : string) (a : t) : t :=
  let 'Build f1 f2 f3 f4 f5 f6 f7 f8 f9 f10 f11 f12 f13 f14 f15 f16 _ f18 f19 := a in
  Build f1 f2 f3 f4 f5 f6 f7 f8 f9 f10 f11 f12 f13 f14 f15 f16 v f18 f19.
Definition set_recommendations (v : list string) (a : t) : t :=
  let 'Build f1 f2 f3 f4 f5 f6 f7 f8 f9 f10 f11 f12 f13 f14 f15 f16 f17 _ f19 := a in
  Build f1 f2 f3 f4 f5 f6 f7 f8 f9 f10 f11 f12 f13 f14 f15 f16 f17 v f19.
Definition set_detected_patterns (v : list string) (a : t) : t :=
  let 'Build f1 f2 f3 f4 f5 f6 f7 f8 f9 f10 f11 f12 f13 f14 f15 f16 f17 f18 _ := a in
  Build f1 f2 f3 f4 f5 f6 f7 f8 f9 f10 f11 f12 f13 f14 f15 f16 f17 f18 v.
End Analysis.

(** ** src/analyzer/strength_scorer.py *)

Module StrengthScorer.

Definition _score_length (length : Z) : Z :=
  if length >=? 20 then 30
  else if length >=? 16 then 28
  else if length >=? 12 then 24
  else if length >=? 10 then 20
  else if length >=? 8 then 15
  else length * 2.

Definition _score_diversity (analysis : Analysis.t) : Z :=
  let diversity_score := Analysis.diversity_score analysis in
  int_of_float (diversity_score * 25).

Definition _score_entropy (entropy : R) : Z :=
  if Rge_dec entropy 100 then 30
  else if Rge_dec entropy 80 then 28
  else if Rge_dec entropy 60 then 24
  else if Rge_dec entropy 40 then 18
  else int_of_float (entropy / 2).

Definition _score_patterns (analysis : Analysis.t) : Z :=
  let score := 0 in
  let score := if negb (Analysis.has_common_patterns analysis)
               then score + 10 else score in
  let score := if negb (Analysis.has_sequential analysis)
               then score + 5 else score in
  let score := if Analysis.has_common_patterns analysis
               then score - 25 else score in
  let score := if Analysis.has_sequential analysis
               then score - 15 else score in
  let score := if Analysis.has_keyboard_patterns analysis
               then score - 10 else score in
  let score := if Analysis.has_repeated_chars analysis
               then score - 10 else score in
  let score := if Analysis.has_date_pattern analysis
               then score - 5 else score in
  score.

Definition calculate_score (password : string) (analysis : Analysis.t) : Z :=
  let score := 0 in
  let score := score + _score_length (Z.of_nat (Analysis.length analysis)) in
  let score := score + _score_diversity analysis in
  let score := score + _score_entropy (Analysis.entropy analysis) in
  let score := score + _score_patterns analysis in
  Z.max 0 (Z.min 100 score).

Definition get_strength_level (score : Z) : string :=
  if score >=? SCORE_STRONG_THRESHOLD then "Very Strong"
  else if score >=? SCORE_MEDIUM_THRESHOLD then "Strong"
  else if score >=? SCORE_WEAK_THRESHOLD then "Medium"
  else "Weak".

End StrengthScorer.

(** ** src/analyzer/crack_time_estimator.py *)

Module CrackTimeEstimator.

(** [f'{n} unit{"s" if n != 1 else ""}'] *)
Definition counted (n : Z) (unit : string) : string :=
  (str_of_int n ++ " " ++ unit ++ (if decide (n ≠ 1) then "s" else ""))%string.

Definition _format_time (seconds : R) : string :=
  if Rlt_dec seconds (1 / 1000) then "Instant"
  else if Rlt_dec seconds 1 then "Less than 1 second"
  else if Rlt_dec seconds 60 then
    (str_of_int (int_of_float seconds) ++ " seconds")%string
  else if Rlt_dec seconds 3600 then
    let minutes := int_of_float (seconds / 60) in
    counted minutes "minute"
  else if Rlt_dec seconds 86400 then
    let hours := int_of_float (seconds / 3600) in
    counted hours "hour"
  else if Rlt_dec seconds 2592000 then
    let days := int_of_float (seconds / 86400) in
    counted days "day"
  else if Rlt_dec seconds 31536000 then
    let months := int_of_float (seconds / 2592000) in
    counted months "month"
  else if Rlt_dec seconds 3153600000 then
    let years := int_of_float (seconds / 31536000) in
    counted years "year"
  else if Rlt_dec seconds 31536000000 then "Centuries"
  else "Millennia+".

Section Estimator.
(** [self.attempts_per_second] *)
Variable attempts_per_second : Z.

(** [entropy] is a float. *)
Definition estimate_from_entropy (entropy : R) : result string :=
  if Rle_dec entropy 0 then Ok "Instant"
  else
    combinations <== pow2_float entropy ;;
    seconds <== float_div_int combinations (2 * attempts_per_second) ;;
    Ok (_format_time seconds).


Definition get_security_level (entropy : R) : result string :=
  time_estimate <== estimate_from_entropy entropy ;;
  if str_in "Instant" time_estimate || str_in "second" time_estimate
  then Ok "Very Weak - Crackable instantly"
  else if str_in "minute" time_estimate || str_in "hour" time_estimate
  then Ok "Weak - Crackable in hours"
  else if str_in "day" time_estimate
  then Ok "Moderate - Crackable in days"
  else if str_in "month" time_estimate
  then Ok "Good - Crackable in months"
  else if str_in "year" time_estimate && negb (str_in "Centur" time_estimate)
  then Ok "Strong - Crackable in years"
  else Ok "Very Strong - Crackable in centuries+".
End Estimator.

End CrackTimeEstimator.

(** ** src/analyzer/password_analyzer.py *)

Module PasswordAnalyzer.

Definition _empty_analysis : Analysis.t :=
  {| Analysis.strength := "Weak";
     Analysis.score := 0;
     Analysis.entropy := 0;
     Analysis.length := 0;
     Analysis.has_uppercase := false;
     Analysis.has_lowercase := false;
     Analysis.has_numbers := false;
     Analysis.has_symbols := false;
     Analysis.diversity_score := 0;
     Analysis.crack_time := "Instant";
     Analysis.security_level := "Very Weak";
     Analysis.recommendations := ["Enter a password to analyze"%string];
     Analysis.detected_patterns := [];
     (* keys the dictionary does not hold: every reader defaults them *)
     Analysis.has_common_patterns := false;
     Analysis.has_sequential := false;
     Analysis.has_keyboard_patterns := false;
     Analysis.has_repeated_chars := false;
     Analysis.has_date_pattern := false;
     Analysis.has_number_only_suffix := false |}.

(** [True] counts for one in [sum([...])]. *)
Definition types_used (analysis : Analysis.t) : nat :=
  (Nat.b2n (Analysis.has_uppercase analysis) +
   Nat.b2n (Analysis.has_lowercase analysis) +
   Nat.b2n (Analysis.has_numbers analysis) +
   Nat.b2n (Analysis.has_symbols analysis))%nat.

Definition _calculate_diversity (analysis : Analysis.t) : R :=
  (INR (types_used analysis) / 4)%R.

(** The local [charset_size] of [_calculate_entropy]. *)
Definition charset_size (analysis : Analysis.t) : Z :=
  let charset_size := 0 in
  let charset_size := if Analysis.has_uppercase analysis
                      then charset_size + 26 else charset_size in
  let charset_size := if Analysis.has_lowercase analysis
                      then charset_size + 26 else charset_size in
  let charset_size := if Analysis.has_numbers analysis
                      then charset_size + 10 else charset_size in
  let charset_size := if Analysis.has_symbols analysis
                      then charset_size + 32 else charset_size in
  charset_size.

Definition _calculate_entropy (password : string) (analysis : Analysis.t) : R :=
  let charset_size := charset_size analysis in
  if charset_size =? 0 then 0%R
  else (INR (String.length password) * log2 (IZR charset_size))%R.

Definition _generate_recommendations (analysis : Analysis.t) : list string :=
  let recommendations := [] in
  let recommendations :=
    if (Analysis.length analysis <? 8)%nat
    then recommendations ++ ["Increase length to at least 8 characters"%string]
    else if (Analysis.length analysis <? 12)%nat
    then recommendations ++ ["Consider increasing length to 12+ characters"%string]
    else recommendations in
  let recommendations :=
    if negb (Analysis.has_uppercase analysis)
    then recommendations ++ ["Add uppercase letters (A-Z)"%string]
    else recommendations in
  let recommendations :=
    if negb (Analysis.has_lowercase analysis)
    then recommendations ++ ["Add lowercase letters (a-z)"%string]
    else recommendations in
  let recommendations :=
    if negb (Analysis.has_numbers analysis)
    then recommendations ++ ["Add numbers (0-9)"%string]
    else recommendations in
  let recommendations :=
    if negb (Analysis.has_symbols analysis)
    then recommendations ++ ["Add symbols (!@#$...)"%string]
    else recommendations in
  let recommendations :=
    if Analysis.has_common_patterns analysis
    then recommendations ++ ["Avoid common words and patterns"%string]
    else recommendations in
  let recommendations :=
    if Analysis.has_sequential analysis
    then recommendations ++ ["Avoid sequential characters (abc, 123)"%string]
    else recommendations in
  let recommendations :=
    if Analysis.has_keyboard_patterns analysis
    then recommendations ++ ["Avoid keyboard patterns (qwerty)"%string]
    else recommendations in
  let recommendations :=
    if Analysis.has_repeated_chars analysis
    then recommendations ++ ["Avoid repeated characters (aaa, 111)"%string]
    else recommendations in
  let recommendations :=
    if Rlt_dec (Analysis.entropy analysis) 40
    then recommendations ++ ["Significantly increase password complexity"%string]
    else recommendations in
  let recommendations :=
    if decide (recommendations = [])
    then recommendations ++ ["Password meets security best practices!"%string]
    else recommendations in
  recommendations.

Definition analyze (password : string) : result Analysis.t :=
  if decide (password = EmptyString) then Ok _empty_analysis
  else
    patterns <== PatternDetector.detect_all_patterns password ;;
    let analysis :=
      {| Analysis.length := String.length password;
         Analysis.has_uppercase := re_search_class re_upper password;
         Analysis.has_lowercase := re_search_class re_lower password;
         Analysis.has_numbers := re_search_class re_digit password;
         Analysis.has_symbols := re_search_class re_symbol password;
         (* analysis.update(patterns) *)
         Analysis.has_common_patterns := Patterns.has_common_patterns patterns;
         Analysis.has_sequential := Patterns.has_sequential patterns;
         Analysis.has_keyboard_patterns := Patterns.has_keyboard_patterns patterns;
         Analysis.has_repeated_chars := Patterns.has_repeated_chars patterns;
         Analysis.has_date_pattern := Patterns.has_date_pattern patterns;
         Analysis.has_number_only_suffix := Patterns.has_number_only_suffix patterns;
         (* keys assigned below; nothing reads them before *)
         Analysis.diversity_score := 0;
         Analysis.entropy := 0;
         Analysis.score := 0;
         Analysis.strength := EmptyString;
         Analysis.crack_time := EmptyString;
         Analysis.security_level := EmptyString;
         Analysis.recommendations := [];
         Analysis.detected_patterns := [] |} in
    let analysis :=
      Analysis.set_diversity_score (_calculate_diversity analysis) analysis in
    let analysis :=
      Analysis.set_entropy (_calculate_entropy password analysis) analysis in
    let analysis :=
      Analysis.set_score (StrengthScorer.calculate_score password analysis) analysis in
    let analysis :=
      Analysis.set_strength
        (StrengthScorer.get_strength_level (Analysis.score analysis)) analysis in
    crack_time <==
      CrackTimeEstimator.estimate_from_entropy BRUTE_FORCE_RATE
        (Analysis.entropy analysis) ;;
    let analysis := Analysis.set_crack_time crack_time analysis in
    security_level <==
      CrackTimeEstimator.get_security_level BRUTE_FORCE_RATE
        (Analysis.entropy analysis) ;;
    let analysis := Analysis.set_security_level security_level analysis in
    let analysis :=
      Analysis.set_recommendations (_generate_recommendations analysis) analysis in
    detected_patterns <== PatternDetector.get_detected_patterns password ;;
    let analysis := Analysis.set_detected_patterns detected_patterns analysis in
    Ok analysis.

End PasswordAnalyzer.

(** ** src/validator/policy_rules.py *)

Module PolicyRule.
Record t : Type := Build {
  name : string;
  description : string;
  enabled : bool;
  error_message : string
}.
End PolicyRule.

Module PasswordPolicy.
Record t : Type := Build {
  min_length : Z;
  max_length : Z;
  require_uppercase : bool;
  require_lowercase : bool;
  require_numbers : bool;
  require_symbols : bool;
  min_entropy : option R;
  forbid_common_patterns : bool;
  forbid_sequential : bool
}.

(** [PasswordPolicy()] *)
Definition default : t :=
  {| min_length := DEFAULT_POLICY_MIN_LENGTH;
     max_length := DEFAULT_POLICY_MAX_LENGTH;
     require_uppercase := DEFAULT_REQUIRE_UPPERCASE;
     require_lowercase := DEFAULT_REQUIRE_LOWERCASE;
     require_numbers := DEFAULT_REQUIRE_NUMBERS;
     require_symbols := DEFAULT_REQUIRE_SYMBOLS;
     min_entropy := None;
     forbid_common_patterns := true;
     forbid_sequential := true |}.

Definition get_rules (self : t) : list PolicyRule.t :=
  let rules := [] in
  let rules := rules ++
    [ {| PolicyRule.name := "min_length";
         PolicyRule.description :=
           ("Minimum " ++ str_of_int (min_length self) ++ " characters")%string;
         PolicyRule.enabled := true;
         PolicyRule.error_message :=
           ("Password must be at least " ++ str_of_int (min_length self)
            ++ " characters")%string |} ] in
  let rules :=
    if require_uppercase self then rules ++
      [ {| PolicyRule.name := "uppercase";
           PolicyRule.description := "At least one uppercase letter";
           PolicyRule.enabled := true;
           PolicyRule.error_message :=
             "Password must contain at least one uppercase letter" |} ]
    else rules in
  let rules :=
    if require_lowercase self then rules ++
      [ {| PolicyRule.name := "lowercase";
           PolicyRule.description := "At least one lowercase letter";
           PolicyRule.enabled := true;
           PolicyRule.error_message :=
             "Password must contain at least one lowercase letter" |} ]
    else rules in
  let rules :=
    if require_numbers self then rules ++
      [ {| PolicyRule.name := "numbers";
           PolicyRule.description := "At least one number";
           PolicyRule.enabled := true;
           PolicyRule.error_message :=
             "Password must contain at least one number" |} ]
    else rules in
  let rules :=
    if require_symbols self then rules ++
      [ {| PolicyRule.name := "symbols";
           PolicyRule.description := "At least one symbol";
           PolicyRule.enabled := true;
           PolicyRule.error_message :=
             "Password must contain at least one symbol" |} ]
    else rules in
  let rules :=
    if forbid_common_patterns self then rules ++
      [ {| PolicyRule.name := "no_common_patterns";
           PolicyRule.description := "No common weak patterns";
           PolicyRule.enabled := true;
           PolicyRule.error_message :=
             "Password contains common weak patterns" |} ]
    else rules in
  rules.
End PasswordPolicy.

(** ** src/validator/policy_validator.py *)

Module ValidationResult.
Record t : Type := Build {
  valid : bool;
  errors : list string;
  warnings : list string;
  score : Z;
  strength : string
}.
End ValidationResult.

Module PolicyValidator.

Section Validator.
(** How Python prints a float: [f'{x:.1f}'] and [f'{x}']. *)
Variable format_1f : R -> string.
Variable format_float : R -> string.
(** [self.policy] *)
Variable policy : PasswordPolicy.t.

(** [self.policy.min_entropy and entropy < self.policy.min_entropy]:
    [None] and [0.0] are both false. *)
Definition entropy_too_low (entropy : R) : bool :=
  match PasswordPolicy.min_entropy policy with
  | None => false
  | Some m =>
      if Req_dec_T m 0 then false
      else if Rlt_dec entropy m then true else false
  end.

Definition validate (password : string) : result ValidationResult.t :=
  let errors := [] in
  let warnings := [] in
  let errors :=
    if Z.of_nat (String.length password) <? PasswordPolicy.min_length policy
    then errors ++ [("Password must be at least " ++
                     str_of_int (PasswordPolicy.min_length policy) ++
                     " characters")%string]
    else errors in
  let errors :=
    if Z.of_nat (String.length password) >? PasswordPolicy.max_length policy
    then errors ++ [("Password must not exceed " ++
                     str_of_int (PasswordPolicy.max_length policy) ++
                     " characters")%string]
    else errors in
  let errors :=
    if PasswordPolicy.require_uppercase policy
       && negb (any (map isupper (chars password)))
    then errors ++ ["Password must contain at least one uppercase letter"%string]
    else errors in
  let errors :=
    if PasswordPolicy.require_lowercase policy
       && negb (any (map islower (chars password)))
    then errors ++ ["Password must contain at least one lowercase letter"%string]
    else errors in
  let errors :=
    if PasswordPolicy.require_numbers policy
       && negb (any (map isdigit (chars password)))
    then errors ++ ["Password must contain at least one number"%string]
    else errors in
  let errors :=
    if PasswordPolicy.require_symbols policy
       && negb (any (map (fun c => negb (isalnum c)) (chars password)))
    then errors ++ ["Password must contain at least one symbol"%string]
    else errors in
  analysis <== PasswordAnalyzer.analyze password ;;
  let errors :=
    if PasswordPolicy.forbid_common_patterns policy
       && Analysis.has_common_patterns analysis
    then errors ++ ["Password contains common weak patterns"%string]
    else errors in
  let errors :=
    if PasswordPolicy.forbid_sequential policy
       && Analysis.has_sequential analysis
    then errors ++ ["Password contains sequential characters"%string]
    else errors in
  let errors :=
    if entropy_too_low (Analysis.entropy analysis)
    then errors ++ [("Password entropy too low (" ++
                     format_1f (Analysis.entropy analysis) ++ " < " ++
                     match PasswordPolicy.min_entropy policy with
                     | Some m => format_float m
                     | None => "None"
                     end ++ " bits)")%string]
    else errors in
  let warnings :=
    if decide (errors = []) then
      let warnings :=
        if Analysis.score analysis <? 60
        then warnings ++ ["Password is weak. Consider making it stronger."%string]
        else warnings in
      let warnings :=
        if negb (PasswordPolicy.require_symbols policy)
           && negb (Analysis.has_symbols analysis)
        then warnings ++ ["Adding symbols would significantly improve strength"%string]
        else warnings in
      warnings
    else warnings in
  Ok {| ValidationResult.valid := (List.length errors =? 0)%nat;
        ValidationResult.errors := errors;
        ValidationResult.warnings := warnings;
        ValidationResult.score := Analysis.score analysis;
        ValidationResult.strength := Analysis.strength analysis |}.
End Validator.

End PolicyValidator.

(** * Vocabulary of the statements *)

(** Exchanging two positions of a list, as the two assignments of
    [swap_items] do it, and the matching transposition of indices. *)
Definition exchanged {T} (xs : list T) (i j : nat) (xi xj : T) : list T :=
  <[j := xi]> (<[i := xj]> xs).

Definition transpose (i j k : nat) : nat :=
  if decide (k = i) then j else if decide (k = j) then i else k.

(** A category is enabled when [options.get(category, False)] is true. *)
Definition enabled (options : gmap string bool) (category : string) : Prop :=
  dict_get options category = true.

Definition some_enabled (options : gmap string bool) : Prop :=
  enabled options "uppercase" \/ enabled options "lowercase" \/
  enabled options "numbers" \/ enabled options "symbols".

(** A character set is represented in a password when they share a
    character. *)
Definition represented (char_set password : string) : Prop :=
  exists c, c ∈ chars password /\ c ∈ chars char_set.

(** The valid lengths of [generate]. *)
Definition valid_length (length : Z) : Prop :=
  MIN_PASSWORD_LENGTH <= length <= MAX_PASSWORD_LENGTH.

(** The entropy of a password as the analyzer estimates it: the length
    times the binary logarithm of an alphabet that counts 26, 26, 10 and 32
    characters for the classes found in the password. It is what [analyze]
    stores under ['entropy'], and what [estimate_from_entropy] raises two
    to. *)
Definition alphabet_size (password : string) : Z :=
  (if re_search_class re_upper password then 26 else 0)
  + (if re_search_class re_lower password then 26 else 0)
  + (if re_search_class re_digit password then 10 else 0)
  + (if re_search_class re_symbol password then 32 else 0).

Definition bits (password : string) : R :=
  (INR (String.length password) * log2 (IZR (alphabet_size password)))%R.

(** A dictionary holds the character types of a password when its four
    class flags are those that [analyze] assigns first. *)
Definition character_types (password : string) (analysis : Analysis.t) : Prop :=
  Analysis.has_uppercase analysis = re_search_class re_upper password
  /\ Analysis.has_lowercase analysis = re_search_class re_lower password
  /\ Analysis.has_numbers analysis = re_search_class re_digit password
  /\ Analysis.has_symbols analysis = re_search_class re_symbol password.

(** The scorer as the specification words it: four contributions, the
    diversity and entropy ones rounded down, and the sum clamped. *)
Module ScoreSpec.

Definition clamp (lo hi x : Z) : Z := Z.max lo (Z.min hi x).

Definition length_points (length : Z) : Z :=
  if 20 <=? length then 30
  else if 16 <=? length then 28
  else if 12 <=? length then 24
  else if 10 <=? length then 20
  else if 8 <=? length then 15
  else length * 2.

Definition diversity_points (diversity_score : R) : Z :=
  Zfloor (diversity_score * 25).

Definition entropy_points (bits : R) : Z :=
  if Rle_dec 100 bits then 30
  else if Rle_dec 80 bits then 28
  else if Rle_dec 60 bits then 24
  else if Rle_dec 40 bits then 18
  else Zfloor (bits / 2).

Definition pattern_adjustment (report : Analysis.t) : Z :=
  (if Analysis.has_common_patterns report then -25 else 10)
  + (if Analysis.has_sequential report then -15 else 5)
  + (if Analysis.has_keyboard_patterns report then -10 else 0)
  + (if Analysis.has_repeated_chars report then -10 else 0)
  + (if Analysis.has_date_pattern report then -5 else 0).

Definition score (report : Analysis.t) : Z :=
  clamp 0 100
    (length_points (Z.of_nat (Analysis.length report))
     + diversity_points (Analysis.diversity_score report)
     + entropy_points (Analysis.entropy report)
     + pattern_adjustment report).

(** What every report holds: a diversity and an entropy that are not
    negative. *)
Definition well_formed (report : Analysis.t) : Prop :=
  (0 <= Analysis.diversity_score report)%R /\ (0 <= Analysis.entropy report)%R.

End ScoreSpec.

(** The recommendations as a list of independent, additive conditions in
    their fixed order; of the pattern flags, the four that the analyzer
    turns into advice. *)
Module RecommendationSpec.

Definition when (condition : bool) (message : string) : list string :=
  if condition then [message] else [].

Definition affirmation : string := "Password meets security best practices!".

Definition avoid_common : string := "Avoid common words and patterns".
Definition avoid_sequential : string := "Avoid sequential characters (abc, 123)".
Definition avoid_keyboard : string := "Avoid keyboard patterns (qwerty)".
Definition avoid_repeated : string := "Avoid repeated characters (aaa, 111)".

Definition advice (report : Analysis.t) : list string :=
  when (Analysis.length report <? 8)%nat
    "Increase length to at least 8 characters"
  ++ when (negb (Analysis.length report <? 8)%nat
           && (Analysis.length report <? 12)%nat)
       "Consider increasing length to 12+ characters"
  ++ when (negb (Analysis.has_uppercase report)) "Add uppercase letters (A-Z)"
  ++ when (negb (Analysis.has_lowercase report)) "Add lowercase letters (a-z)"
  ++ when (negb (Analysis.has_numbers report)) "Add numbers (0-9)"
  ++ when (negb (Analysis.has_symbols report)) "Add symbols (!@#$...)"
  ++ when (Analysis.has_common_patterns report) avoid_common
  ++ when (Analysis.has_sequential report) avoid_sequential
  ++ when (Analysis.has_keyboard_patterns report) avoid_keyboard
  ++ when (Analysis.has_repeated_chars report) avoid_repeated
  ++ when (if Rlt_dec (Analysis.entropy report) 40 then true else false)
       "Significantly increase password complexity".

Definition recommendations (report : Analysis.t) : list string :=
  if decide (advice report = []) then [affirmation] else advice report.

End RecommendationSpec.

(** A tape whose next draw is [d] and that goes on as [tp]. *)
Definition next_draw (d : nat) (tp : nat -> nat) : nat -> nat :=
  fun k => match k with O => d | S k' => tp k' end.

(** The errors of [validate] as one list of independent conditions, read
    from the password and the report of [analyze], and the condition that
    each rule of [get_rules] stands for, by its name. *)
Module PolicySpec.
Section Spec.
Variable format_1f : R -> string.
Variable format_float : R -> string.
Variable policy : PasswordPolicy.t.

Definition lacks (cls : ascii -> bool) (password : string) : bool :=
  negb (any (map cls (chars password))).

Definition errors (password : string) (analysis : Analysis.t) : list string :=
  RecommendationSpec.when
    (Z.of_nat (String.length password) <? PasswordPolicy.min_length policy)
    ("Password must be at least " ++ str_of_int (PasswordPolicy.min_length policy)
     ++ " characters")
  ++ RecommendationSpec.when
       (Z.of_nat (String.length password) >? PasswordPolicy.max_length policy)
       ("Password must not exceed " ++ str_of_int (PasswordPolicy.max_length policy)
        ++ " characters")
  ++ RecommendationSpec.when
       (PasswordPolicy.require_uppercase policy && lacks isupper password)
       "Password must contain at least one uppercase letter"
  ++ RecommendationSpec.when
       (PasswordPolicy.require_lowercase policy && lacks islower password)
       "Password must contain at least one lowercase letter"
  ++ RecommendationSpec.when
       (PasswordPolicy.require_numbers policy && lacks isdigit password)
       "Password must contain at least one number"
  ++ RecommendationSpec.when
       (PasswordPolicy.require_symbols policy
        && lacks (fun c => negb (isalnum c)) password)
       "Password must contain at least one symbol"
  ++ RecommendationSpec.when
       (PasswordPolicy.forbid_common_patterns policy
        && Analysis.has_common_patterns analysis)
       "Password contains common weak patterns"
  ++ RecommendationSpec.when
       (PasswordPolicy.forbid_sequential policy && Analysis.has_sequential analysis)
       "Password contains sequential characters"
  ++ RecommendationSpec.when
       (PolicyValidator.entropy_too_low policy (Analysis.entropy analysis))
       ("Password entropy too low (" ++ format_1f (Analysis.entropy analysis) ++ " < "
        ++ match PasswordPolicy.min_entropy policy with
           | Some m => format_float m
           | None => "None"
           end ++ " bits)").

Definition violates (password : string) (rule_name : string) : bool :=
  if decide (rule_name = "min_length") then
    Z.of_nat (String.length password) <? PasswordPolicy.min_length policy
  else if decide (rule_name = "uppercase") then lacks isupper password
  else if decide (rule_name = "lowercase") then lacks islower password
  else if decide (rule_name = "numbers") then lacks isdigit password
  else if decide (rule_name = "symbols") then
    lacks (fun c => negb (isalnum c)) password
  else if decide (rule_name = "no_common_patterns") then
    PatternDetector.has_common_patterns password
  else false.
End Spec.
End PolicySpec.

(** * Properties *)

(** ** The monad and the list objects *)

Lemma bind_ok {T A B} (m : M T A) (f : A -> M T B) st a st1 :
  m st = Ok (a, st1) -> bind m f st = f a st1.
Proof. intros H. unfold bind. now rewrite H. Qed.

Section ListObjectFacts.
Context {T : Type}.
Implicit Types (st : state T) (xs ys : list T) (l : loc).

Lemma load_ok st l xs :
  heap st !! l = Some xs -> load l st = Ok (xs, st).
Proof. intros H. unfold load. now rewrite H. Qed.

Lemma list_len_ok st l xs :
  heap st !! l = Some xs -> list_len l st = Ok (length xs, st).
Proof.
  intros H. unfold list_len. now rewrite (bind_ok _ _ _ _ _ (load_ok _ _ _ H)).
Qed.

Lemma list_copy_ok st l xs :
  heap st !! l = Some xs ->
  list_copy l st =
    Ok (fresh (dom (heap st)),
        State (<[fresh (dom (heap st)) := xs]> (heap st)) (tape st)).
Proof.
  intros H. unfold list_copy.
  now rewrite (bind_ok _ _ _ _ _ (load_ok _ _ _ H)).
Qed.

Lemma list_append_ok st l xs x :
  heap st !! l = Some xs ->
  list_append l x st = Ok (tt, State (<[l := xs ++ [x]]> (heap st)) (tape st)).
Proof.
  intros H. unfold list_append.
  now rewrite (bind_ok _ _ _ _ _ (load_ok _ _ _ H)).
Qed.

Lemma list_getitem_ok st l xs i x :
  heap st !! l = Some xs -> xs !! i = Some x ->
  list_getitem l i st = Ok (x, st).
Proof.
  intros H Hi. unfold list_getitem.
  rewrite (bind_ok _ _ _ _ _ (load_ok _ _ _ H)). now rewrite Hi.
Qed.

Lemma list_setitem_ok st l xs i x :
  heap st !! l = Some xs -> (i < length xs)%nat ->
  list_setitem l i x st = Ok (tt, State (<[l := <[i := x]> xs]> (heap st)) (tape st)).
Proof.
  intros H Hi. unfold list_setitem.
  rewrite (bind_ok _ _ _ _ _ (load_ok _ _ _ H)).
  destruct (decide (i < length xs)%nat); [reflexivity | contradiction].
Qed.

Lemma transpose_inj i j : Inj eq eq (transpose i j).
Proof.
  intros a b. unfold transpose.
  repeat case_decide; intros; subst; congruence.
Qed.

Lemma exchanged_lookup xs i j xi xj k :
  xs !! i = Some xi -> xs !! j = Some xj ->
  exchanged xs i j xi xj !! k = xs !! transpose i j k.
Proof.
  intros Hi Hj. unfold exchanged, transpose.
  assert (i < length xs)%nat by (apply lookup_lt_is_Some; eauto).
  assert (j < length xs)%nat by (apply lookup_lt_is_Some; eauto).
  destruct (decide (k = j)) as [->|Hkj].
  - rewrite list_lookup_insert_eq by (now rewrite length_insert).
    destruct (decide (j = i)) as [->|]; [congruence | now rewrite Hi].
  - rewrite list_lookup_insert_ne by congruence.
    destruct (decide (k = i)) as [->|Hki].
    + rewrite list_lookup_insert_eq by assumption. now rewrite Hj.
    + now rewrite list_lookup_insert_ne by congruence.
Qed.

Lemma exchanged_Permutation xs i j xi xj :
  xs !! i = Some xi -> xs !! j = Some xj ->
  exchanged xs i j xi xj ≡ₚ xs.
Proof.
  intros Hi Hj. apply Permutation_inj. split.
  - unfold exchanged. now rewrite !length_insert.
  - exists (transpose i j). split; [apply transpose_inj |].
    intros k. now apply exchanged_lookup.
Qed.

Lemma swap_items_ok st l xs i j :
  heap st !! l = Some xs -> (i < length xs)%nat -> (j < length xs)%nat ->
  exists ys,
    swap_items l i j st = Ok (tt, State (<[l := ys]> (heap st)) (tape st))
    /\ ys ≡ₚ xs.
Proof.
  intros H Hi Hj.
  destruct (proj2 (lookup_lt_is_Some xs i) Hi) as [xi Hxi].
  destruct (proj2 (lookup_lt_is_Some xs j) Hj) as [xj Hxj].
  exists (exchanged xs i j xi xj). split.
  - unfold swap_items.
    rewrite (bind_ok _ _ _ _ _ (list_getitem_ok _ _ _ _ _ H Hxj)).
    rewrite (bind_ok _ _ _ _ _ (list_getitem_ok _ _ _ _ _ H Hxi)).
    rewrite (bind_ok _ _ _ _ _ (list_setitem_ok _ _ _ _ xj H Hi)).
    erewrite list_setitem_ok.
    + cbn [heap tape]. rewrite insert_insert_eq. reflexivity.
    + cbn [heap]. apply lookup_insert_eq.
    + now rewrite length_insert.
  - now apply exchanged_Permutation.
Qed.

Lemma randbelow_ok st (n : nat) :
  (0 < n)%nat ->
  randbelow n st = Ok ((tape st 0 `mod` n)%nat,
                       State (heap st) (fun k => tape st (S k))).
Proof. intros Hn. unfold randbelow. destruct n; [lia | reflexivity]. Qed.

Lemma shuffle_loop_ok l i : forall st xs,
  heap st !! l = Some xs -> (i = 0 \/ i < length xs)%nat ->
  exists ys tp,
    shuffle_loop l i st = Ok (tt, State (<[l := ys]> (heap st)) tp)
    /\ ys ≡ₚ xs.
Proof.
  induction i as [|i IH]; intros st xs H Hi.
  - exists xs, (tape st). split; [| reflexivity].
    cbn. unfold ret. rewrite (insert_id _ _ _ H). now destruct st.
  - destruct Hi as [Hi|Hi]; [discriminate |].
    cbn [shuffle_loop].
    rewrite (bind_ok _ _ _ _ _ (randbelow_ok st (S i + 1) ltac:(lia))).
    set (j := (tape st 0 `mod` (S i + 1))%nat).
    assert (Hj : (j < length xs)%nat).
    { pose proof (Nat.mod_upper_bound (tape st 0) (S i + 1) ltac:(lia)).
      unfold j. lia. }
    set (st1 := State (heap st) (fun k => tape st (S k))).
    destruct (swap_items_ok st1 l xs (S i) j H Hi Hj) as (ys & Hswap & Hperm).
    rewrite (bind_ok _ _ _ _ _ Hswap).
    destruct (IH (State (<[l := ys]> (heap st1)) (tape st1)) ys) as (zs & tp & Hloop & Hzs).
    + cbn [heap]. apply lookup_insert_eq.
    + right. rewrite (Permutation_length Hperm). lia.
    + exists zs, tp. split.
      * rewrite Hloop. cbn [heap]. now rewrite insert_insert_eq.
      * now rewrite Hzs.
Qed.

Lemma secure_shuffle_ok st items xs :
  heap st !! items = Some xs ->
  exists ys tp,
    secure_shuffle items st =
      Ok (fresh (dom (heap st)),
          State (<[fresh (dom (heap st)) := ys]> (heap st)) tp)
    /\ ys ≡ₚ xs
    /\ heap st !! fresh (dom (heap st)) = None.
Proof.
  intros H. set (l := fresh (dom (heap st))).
  assert (Hl : heap st !! l = None)
    by (apply not_elem_of_dom, is_fresh).
  unfold secure_shuffle.
  rewrite (bind_ok _ _ _ _ _ (list_copy_ok _ _ _ H)). fold l.
  set (st1 := State (<[l := xs]> (heap st)) (tape st)).
  assert (H1 : heap st1 !! l = Some xs) by apply lookup_insert_eq.
  rewrite (bind_ok _ _ _ _ _ (list_len_ok _ _ _ H1)).
  destruct (shuffle_loop_ok l (length xs - 1) st1 xs H1 ltac:(lia))
    as (ys & tp & Hloop & Hperm).
  rewrite (bind_ok _ _ _ _ _ Hloop).
  exists ys, tp. split; [| split; assumption].
  unfold ret. subst st1. cbn [heap]. now rewrite insert_insert_eq.
Qed.

End ListObjectFacts.

(** ** [secure_shuffle] *)

(** C9. For every list object and every tape of draws, [secure_shuffle]
    returns a new list object whose content is a permutation of the input
    (hence of the same length), and it leaves the input list, and every
    other list of the heap, as they were. *)
Theorem secure_shuffle_permutation_frame {T} (st : state T) (items : loc) (xs : list T) :
  heap st !! items = Some xs ->
  exists shuffled ys st',
    secure_shuffle items st = Ok (shuffled, st')
    /\ heap st !! shuffled = None
    /\ shuffled <> items
    /\ heap st' !! shuffled = Some ys
    /\ ys ≡ₚ xs
    /\ length ys = length xs
    /\ heap st' !! items = Some xs
    /\ (forall l, l <> shuffled -> heap st' !! l = heap st !! l).
Proof.
  intros H.
  destruct (secure_shuffle_ok st items xs H) as (ys & tp & Hrun & Hperm & Hfresh).
  set (l := fresh (dom (heap st))) in *.
  assert (Hne : l <> items) by congruence.
  exists l, ys, (State (<[l := ys]> (heap st)) tp).
  repeat split; try assumption; cbn [heap].
  - apply lookup_insert_eq.
  - now apply Permutation_length.
  - now rewrite lookup_insert_ne.
  - intros k Hk. now rewrite lookup_insert_ne.
Qed.

Lemma secure_shuffle_permutation_frame_witness :
  let st := State (<[0%nat := [1; 2; 3]]> ∅) (fun k => k) in
  heap st !! 0%nat = Some [1; 2; 3] /\
  exists shuffled ys st',
    secure_shuffle 0%nat st = Ok (shuffled, st')
    /\ heap st !! shuffled = None
    /\ shuffled <> 0%nat
    /\ heap st' !! shuffled = Some ys
    /\ ys ≡ₚ [1; 2; 3]
    /\ length ys = 3%nat
    /\ heap st' !! 0%nat = Some [1; 2; 3]
    /\ (forall l, l <> shuffled -> heap st' !! l = heap st !! l).
Proof.
  intros st. split; [reflexivity |].
  apply (secure_shuffle_permutation_frame st 0%nat [1; 2; 3]). reflexivity.
Defined.

(** ** Options and character sets *)

Lemma enabled_lookup options category :
  enabled options category -> options !! category = Some true.
Proof.
  unfold enabled, dict_get. destruct (options !! category) as [[|]|]; cbn; congruence.
Qed.

Lemma validate_options_enabled options category :
  enabled options category -> CharsetBuilder.validate_options options = true.
Proof.
  intros H%enabled_lookup.
  unfold CharsetBuilder.validate_options, any, dict_values.
  apply existsb_exists. exists true. split; [| reflexivity].
  apply list_elem_of_In, list_elem_of_fmap.
  exists (category, true). split; [reflexivity |].
  now apply elem_of_map_to_list.
Qed.

Lemma validate_options_some_enabled options :
  some_enabled options -> CharsetBuilder.validate_options options = true.
Proof.
  intros [H|[H|[H|H]]]; exact (validate_options_enabled _ _ H).
Qed.

Lemma build_charset_some_enabled options :
  some_enabled options ->
  exists charset,
    CharsetBuilder.build_charset options = Ok charset /\ charset <> EmptyString.
Proof.
  unfold some_enabled, enabled, CharsetBuilder.build_charset.
  destruct (dict_get options "uppercase"), (dict_get options "lowercase"),
    (dict_get options "numbers"), (dict_get options "symbols");
    intros H;
    try (eexists; split; [vm_compute; reflexivity | discriminate]).
  destruct H as [H|[H|[H|H]]]; discriminate.
Qed.

Lemma get_required_chars_nonempty options :
  Forall (fun char_set => char_set <> EmptyString)
    (CharsetBuilder.get_required_chars options).
Proof.
  unfold CharsetBuilder.get_required_chars.
  destruct (dict_get options "uppercase"), (dict_get options "lowercase"),
    (dict_get options "numbers"), (dict_get options "symbols");
    cbn; repeat constructor; discriminate.
Qed.

Lemma get_required_chars_length options :
  (length (CharsetBuilder.get_required_chars options) <= 4)%nat.
Proof.
  unfold CharsetBuilder.get_required_chars.
  destruct (dict_get options "uppercase"), (dict_get options "lowercase"),
    (dict_get options "numbers"), (dict_get options "symbols"); cbn; lia.
Qed.

(** The required list holds the character set of every enabled category. *)
Lemma get_required_chars_enabled options :
  (enabled options "uppercase" -> UPPERCASE ∈ CharsetBuilder.get_required_chars options)
  /\ (enabled options "lowercase" -> LOWERCASE ∈ CharsetBuilder.get_required_chars options)
  /\ (enabled options "numbers" -> DIGITS ∈ CharsetBuilder.get_required_chars options)
  /\ (enabled options "symbols" -> SYMBOLS ∈ CharsetBuilder.get_required_chars options).
Proof.
  unfold enabled, CharsetBuilder.get_required_chars.
  destruct (dict_get options "uppercase"), (dict_get options "lowercase"),
    (dict_get options "numbers"), (dict_get options "symbols");
    cbn; repeat split; intros; try discriminate; set_solver.
Qed.

(** ** Random choice *)

Lemma string_get_elem (s : string) : forall j : nat,
  (j < String.length s)%nat ->
  exists c, String.get j s = Some c /\ c ∈ chars s.
Proof.
  induction s as [|a s IH]; intros j Hj; cbn in Hj; [lia |].
  destruct j as [|j]; cbn.
  - exists a. split; [reflexivity | unfold chars; cbn; set_solver].
  - destruct (IH j ltac:(lia)) as (c & Hc & Hin).
    exists c. split; [assumption |]. unfold chars in *. cbn. set_solver.
Qed.

Lemma secure_random_choice_ok {T} (st : state T) (sequence : string) :
  sequence <> EmptyString ->
  exists c,
    secure_random_choice sequence st =
      Ok (c, State (heap st) (fun k => tape st (S k)))
    /\ c ∈ chars sequence.
Proof.
  intros Hne. unfold secure_random_choice, secrets_choice.
  destruct (decide (sequence = EmptyString)); [contradiction |].
  assert (Hlen : (0 < String.length sequence)%nat)
    by (destruct sequence; [contradiction | cbn; lia]).
  rewrite (bind_ok _ _ _ _ _ (randbelow_ok st _ Hlen)).
  destruct (string_get_elem sequence (tape st 0 `mod` String.length sequence)%nat)
    as (c & Hc & Hin).
  - apply Nat.mod_upper_bound. lia.
  - exists c. rewrite Hc. split; [reflexivity | assumption].
Qed.

(** ** [generate] *)

Lemma append_required_ok password_chars required : forall (st : state ascii) xs,
  heap st !! password_chars = Some xs ->
  Forall (fun char_set => char_set <> EmptyString) required ->
  exists cs tp,
    PasswordGenerator.append_required password_chars required st =
      Ok (tt, State (<[password_chars := xs ++ cs]> (heap st)) tp)
    /\ Forall2 (fun c char_set => c ∈ chars char_set) cs required.
Proof.
  induction required as [|char_set rest IH]; intros st xs H Hne.
  - exists [], (tape st). split; [| constructor].
    cbn. unfold ret. rewrite app_nil_r, (insert_id _ _ _ H). now destruct st.
  - inversion Hne as [|? ? Hhd Htl]; subst.
    destruct (secure_random_choice_ok st char_set Hhd) as (c & Hc & Hin).
    cbn [PasswordGenerator.append_required].
    rewrite (bind_ok _ _ _ _ _ Hc).
    erewrite bind_ok by (apply list_append_ok; cbn [heap]; exact H).
    destruct (IH (State (<[password_chars := xs ++ [c]]> (heap st))
                    (fun k => tape st (S k))) (xs ++ [c])) as (cs & tp & Hrun & Hcs).
    + cbn [heap]. apply lookup_insert_eq.
    + assumption.
    + exists (c :: cs), tp. split; [| now constructor].
      cbn [tape heap] in *. rewrite Hrun, insert_insert_eq.
      now rewrite <- app_assoc.
Qed.

Lemma append_remaining_ok password_chars charset remaining :
  forall (st : state ascii) xs,
  heap st !! password_chars = Some xs ->
  charset <> EmptyString ->
  exists cs tp,
    PasswordGenerator.append_remaining password_chars charset remaining st =
      Ok (tt, State (<[password_chars := xs ++ cs]> (heap st)) tp)
    /\ length cs = remaining
    /\ Forall (fun c => c ∈ chars charset) cs.
Proof.
  induction remaining as [|k IH]; intros st xs H Hne.
  - exists [], (tape st). split; [| split; [reflexivity | constructor]].
    cbn. unfold ret. rewrite app_nil_r, (insert_id _ _ _ H). now destruct st.
  - destruct (secure_random_choice_ok st charset Hne) as (c & Hc & Hin).
    cbn [PasswordGenerator.append_remaining].
    rewrite (bind_ok _ _ _ _ _ Hc).
    erewrite bind_ok by (apply list_append_ok; cbn [heap]; exact H).
    destruct (IH (State (<[password_chars := xs ++ [c]]> (heap st))
                    (fun k => tape st (S k))) (xs ++ [c])) as (cs & tp & Hrun & Hlen & Hcs).
    + cbn [heap]. apply lookup_insert_eq.
    + assumption.
    + exists (c :: cs), tp. split; [| split; [cbn; lia | now constructor]].
      cbn [tape heap] in *. rewrite Hrun, insert_insert_eq.
      now rewrite <- app_assoc.
Qed.

(** What a run of [generate] on valid arguments does: the drawn characters,
    one per required set and then the filling ones, are shuffled and
    joined. *)
Lemma generate_ok (length : Z) (options : gmap string bool) (st : state ascii) :
  valid_length length -> some_enabled options ->
  exists charset required_cs filling_cs ys st',
    CharsetBuilder.build_charset options = Ok charset
    /\ PasswordGenerator.generate length options st =
         Ok (string_of_list_ascii ys, st')
    /\ ys ≡ₚ required_cs ++ filling_cs
    /\ Forall2 (fun c char_set => c ∈ chars char_set) required_cs
         (CharsetBuilder.get_required_chars options)
    /\ List.length filling_cs =
         Z.to_nat (length - Z.of_nat (List.length required_cs))
    /\ Forall (fun c => c ∈ chars charset) filling_cs.
Proof.
  intros [Hlo Hhi] Hen. unfold MIN_PASSWORD_LENGTH, MAX_PASSWORD_LENGTH in *.
  destruct (build_charset_some_enabled options Hen) as (charset & Hcs & Hne).
  pose proof (get_required_chars_length options) as Hreq.
  pose proof (get_required_chars_nonempty options) as Hreqne.
  unfold PasswordGenerator.generate.
  unfold MIN_PASSWORD_LENGTH, MAX_PASSWORD_LENGTH.
  replace (length <? 4) with false by (symmetry; apply Z.ltb_ge; lia).
  replace (length >? 128) with false by (symmetry; rewrite Z.gtb_ltb; apply Z.ltb_ge; lia).
  rewrite (validate_options_some_enabled options Hen), Hcs. cbn [orb negb].
  set (required := CharsetBuilder.get_required_chars options) in *.
  replace (Z.of_nat (List.length required) >? length) with false
    by (symmetry; rewrite Z.gtb_ltb; apply Z.ltb_ge; lia).
  set (p := fresh (dom (heap st))).
  set (st1 := State (<[p := []]> (heap st)) (tape st)).
  assert (Halloc : alloc [] st = Ok (p, st1)) by reflexivity.
  rewrite (bind_ok _ _ _ _ _ Halloc).
  assert (H1 : heap st1 !! p = Some []) by apply lookup_insert_eq.
  destruct (append_required_ok p required st1 [] H1 Hreqne)
    as (rcs & tp2 & Hrun2 & Hrcs).
  rewrite (bind_ok _ _ _ _ _ Hrun2). cbn [app].
  set (st2 := State (<[p := rcs]> (heap st1)) tp2).
  assert (H2 : heap st2 !! p = Some rcs) by apply lookup_insert_eq.
  rewrite (bind_ok _ _ _ _ _ (list_len_ok _ _ _ H2)).
  destruct (append_remaining_ok p charset
              (Z.to_nat (length - Z.of_nat (List.length rcs))) st2 rcs H2 Hne)
    as (fcs & tp3 & Hrun3 & Hlen3 & Hfcs).
  rewrite (bind_ok _ _ _ _ _ Hrun3).
  set (st3 := State (<[p := rcs ++ fcs]> (heap st2)) tp3).
  assert (H3 : heap st3 !! p = Some (rcs ++ fcs)) by apply lookup_insert_eq.
  destruct (secure_shuffle_ok st3 p (rcs ++ fcs) H3) as (ys & tp4 & Hrun4 & Hperm & _).
  rewrite (bind_ok _ _ _ _ _ Hrun4).
  erewrite bind_ok by (apply load_ok; cbn [heap]; apply lookup_insert_eq).
  exists charset, rcs, fcs, ys. eexists.
  split; [reflexivity |]. split; [reflexivity |]. auto.
Qed.

(** A character drawn from a required set represents it after the shuffle. *)
Lemma represented_of_required (required : list string) (required_cs ys : list ascii)
  (filling_cs : list ascii) (char_set : string) :
  ys ≡ₚ required_cs ++ filling_cs ->
  Forall2 (fun c char_set => c ∈ chars char_set) required_cs required ->
  char_set ∈ required ->
  represented char_set (string_of_list_ascii ys).
Proof.
  intros Hperm Hall Hin.
  apply list_elem_of_lookup in Hin as [i Hi].
  destruct (Forall2_lookup_r _ _ _ _ _ Hall Hi) as (c & Hc & Hcin).
  exists c. split; [| assumption].
  unfold chars. rewrite list_ascii_of_string_of_list_ascii, Hperm.
  apply elem_of_app. left. apply list_elem_of_lookup. eauto.
Qed.

Lemma length_string_of_list_ascii (cs : list ascii) :
  String.length (string_of_list_ascii cs) = List.length cs.
Proof. induction cs as [|c cs IH]; cbn; [reflexivity | now rewrite IH]. Qed.

(** C1. Diversity: for every valid length, every options dictionary with
    an enabled category (whose required sets then fit the length) and every
    tape of draws, [generate] returns a password in which each enabled
    category is represented by at least one character. *)
Theorem generate_diversity (length : Z) (options : gmap string bool)
  (st : state ascii) :
  valid_length length -> some_enabled options ->
  Z.of_nat (List.length (CharsetBuilder.get_required_chars options)) <= length ->
  exists password st',
    PasswordGenerator.generate length options st = Ok (password, st')
    /\ (enabled options "uppercase" -> represented UPPERCASE password)
    /\ (enabled options "lowercase" -> represented LOWERCASE password)
    /\ (enabled options "numbers" -> represented DIGITS password)
    /\ (enabled options "symbols" -> represented SYMBOLS password).
Proof.
  intros Hlen Hen _.
  destruct (generate_ok length options st Hlen Hen)
    as (charset & rcs & fcs & ys & st' & _ & Hrun & Hperm & Hrcs & _ & _).
  destruct (get_required_chars_enabled options) as (Hu & Hl & Hd & Hs).
  exists (string_of_list_ascii ys), st'. split; [assumption |].
  repeat split; intros H;
    eapply represented_of_required; eauto.
Qed.

(** C2. Length exactness: on the same valid arguments and for every tape
    of draws, the returned password has exactly [length] characters. *)
Theorem generate_length (length : Z) (options : gmap string bool)
  (st : state ascii) :
  valid_length length -> some_enabled options ->
  Z.of_nat (List.length (CharsetBuilder.get_required_chars options)) <= length ->
  exists password st',
    PasswordGenerator.generate length options st = Ok (password, st')
    /\ Z.of_nat (String.length password) = length.
Proof.
  intros Hlen Hen Hfit.
  destruct (generate_ok length options st Hlen Hen)
    as (charset & rcs & fcs & ys & st' & _ & Hrun & Hperm & Hrcs & Hfcs & _).
  exists (string_of_list_ascii ys), st'. split; [assumption |].
  rewrite length_string_of_list_ascii, (Permutation_length Hperm), length_app, Hfcs.
  rewrite (Forall2_length _ _ _ Hrcs). lia.
Qed.

(** C3. [generate] raises [InvalidLengthError] whenever the length is
    outside [MIN_PASSWORD_LENGTH, MAX_PASSWORD_LENGTH] = [4, 128] or the
    required sets outnumber the length; otherwise, with an enabled category,
    it returns a password. Length 3 with the four categories enabled raises
    [InvalidLengthError]. *)
Theorem generate_length_errors (length : Z) (options : gmap string bool)
  (st : state ascii) :
  MIN_PASSWORD_LENGTH = 4 /\ MAX_PASSWORD_LENGTH = 128
  /\ (length < MIN_PASSWORD_LENGTH \/ length > MAX_PASSWORD_LENGTH
      \/ Z.of_nat (List.length (CharsetBuilder.get_required_chars options)) > length ->
      exists min_len max_len,
        PasswordGenerator.generate length options st =
          Raise (InvalidLengthError length min_len max_len))
  /\ (~ (length < MIN_PASSWORD_LENGTH \/ length > MAX_PASSWORD_LENGTH
         \/ Z.of_nat (List.length (CharsetBuilder.get_required_chars options)) > length) ->
      some_enabled options ->
      exists password st',
        PasswordGenerator.generate length options st = Ok (password, st'))
  /\ PasswordGenerator.generate 3
       (<["uppercase" := true]> (<["lowercase" := true]>
          (<["numbers" := true]> (<["symbols" := true]> ∅)))) st =
     Raise (InvalidLengthError 3 4 128).
Proof.
  split; [reflexivity |]. split; [reflexivity |].
  pose proof (get_required_chars_length options) as Hreq.
  unfold MIN_PASSWORD_LENGTH, MAX_PASSWORD_LENGTH. repeat split.
  - intros Hbad. exists 4, 128.
    unfold PasswordGenerator.generate, MIN_PASSWORD_LENGTH, MAX_PASSWORD_LENGTH.
    destruct (Z.ltb_spec length 4) as [|Hge]; [reflexivity |].
    destruct (Z.gtb_spec length 128) as [|Hle]; [reflexivity |].
    lia.
  - intros Hgood Hen.
    destruct (generate_ok length options st) as (? & ? & ? & ys & st' & _ & Hrun & _);
      [unfold valid_length, MIN_PASSWORD_LENGTH, MAX_PASSWORD_LENGTH; lia | assumption |].
    eauto.
Qed.

Lemma generate_diversity_witness :
  let options : gmap string bool := <["uppercase" := true]> (<["numbers" := true]> ∅) in
  let st := State ∅ (fun k => (7 * k + 3)%nat) in
  exists password st',
    PasswordGenerator.generate 6 options st = Ok (password, st')
    /\ (enabled options "uppercase" -> represented UPPERCASE password)
    /\ (enabled options "lowercase" -> represented LOWERCASE password)
    /\ (enabled options "numbers" -> represented DIGITS password)
    /\ (enabled options "symbols" -> represented SYMBOLS password).
Proof.
  intros options st. apply (generate_diversity 6 options st).
  - unfold valid_length, MIN_PASSWORD_LENGTH, MAX_PASSWORD_LENGTH. lia.
  - left. reflexivity.
  - vm_compute. discriminate.
Defined.

Lemma generate_length_witness :
  let options : gmap string bool := <["lowercase" := true]> (<["symbols" := true]> ∅) in
  let st := State ∅ (fun k => (5 * k + 1)%nat) in
  exists password st',
    PasswordGenerator.generate 12 options st = Ok (password, st')
    /\ Z.of_nat (String.length password) = 12.
Proof.
  intros options st. apply (generate_length 12 options st).
  - unfold valid_length, MIN_PASSWORD_LENGTH, MAX_PASSWORD_LENGTH. lia.
  - right. left. reflexivity.
  - vm_compute. discriminate.
Defined.

Lemma generate_length_errors_witness :
  let options : gmap string bool := <["numbers" := true]> ∅ in
  let st := State ∅ (fun k => k) in
  (exists min_len max_len,
     PasswordGenerator.generate 200 options st =
       Raise (InvalidLengthError 200 min_len max_len))
  /\ (exists password st',
        PasswordGenerator.generate 8 options st = Ok (password, st')).
Proof.
  intros options st. split.
  - apply (generate_length_errors 200 options st).
    right. left. unfold MAX_PASSWORD_LENGTH. lia.
  - apply (generate_length_errors 8 options st).
    + unfold MIN_PASSWORD_LENGTH, MAX_PASSWORD_LENGTH. vm_compute.
      intros [H|[H|H]]; discriminate.
    + right. right. left. reflexivity.
Defined.

(** ** Logarithms and rounding *)

Lemma ln_2_pos : (0 < ln 2)%R.
Proof. pose proof ln_lt_2. lra. Qed.

Lemma ln_le (x y : R) : (0 < x)%R -> (x <= y)%R -> (ln x <= ln y)%R.
Proof.
  intros Hx [Hlt | ->]; [| lra]. left. now apply ln_increasing.
Qed.

Lemma log2_le (x y : R) : (0 < x)%R -> (x <= y)%R -> (log2 x <= log2 y)%R.
Proof.
  intros Hx Hxy. unfold log2. pose proof ln_2_pos. pose proof (ln_le x y Hx Hxy).
  apply Rmult_le_compat_r; [| assumption].
  left. now apply Rinv_0_lt_compat.
Qed.

Lemma log2_1 : log2 1 = 0%R.
Proof. unfold log2. rewrite ln_1. lra. Qed.

Lemma log2_2 : log2 2 = 1%R.
Proof. unfold log2. pose proof ln_2_pos. now field_simplify; [| lra]. Qed.

Lemma log2_nonneg (x : R) : (1 <= x)%R -> (0 <= log2 x)%R.
Proof. intros Hx. rewrite <- log2_1. apply log2_le; lra. Qed.

Lemma log2_pow2 (k : nat) : log2 (2 ^ k) = INR k.
Proof.
  unfold log2. rewrite ln_pow by lra. pose proof ln_2_pos. now field_simplify; [| lra].
Qed.

(** [2 ^ k <= x] gives [k <= log2 x]. *)
Lemma log2_lower_bound (k : nat) (x : R) : (2 ^ k <= x)%R -> (INR k <= log2 x)%R.
Proof.
  intros Hx. rewrite <- log2_pow2. apply log2_le; [| assumption].
  apply pow_lt. lra.
Qed.

Lemma int_of_float_nonneg (x : R) : (0 <= x)%R -> int_of_float x = Zfloor x.
Proof. intros Hx. unfold int_of_float. destruct (Rle_dec 0 x); [reflexivity | contradiction]. Qed.

(** ** [calculate_entropy] *)

(** C4. [calculate_entropy length charset_size] is
    [length * log2 charset_size], and zero when an argument is not
    positive; it does not decrease when either argument grows, and it is
    zero at length zero and at size zero. *)
Theorem calculate_entropy_monotone :
  (forall length charset_size, 0 < length -> 0 < charset_size ->
     EntropyCalculator.calculate_entropy length charset_size
     = (IZR length * log2 (IZR charset_size))%R)
  /\ (forall length charset_size, length <= 0 \/ charset_size <= 0 ->
        EntropyCalculator.calculate_entropy length charset_size = 0%R)
  /\ (forall l1 l2 c, l1 <= l2 ->
        (EntropyCalculator.calculate_entropy l1 c
         <= EntropyCalculator.calculate_entropy l2 c)%R)
  /\ (forall l c1 c2, c1 <= c2 ->
        (EntropyCalculator.calculate_entropy l c1
         <= EntropyCalculator.calculate_entropy l c2)%R)
  /\ (forall c, EntropyCalculator.calculate_entropy 0 c = 0%R)
  /\ (forall l, EntropyCalculator.calculate_entropy l 0 = 0%R).
Proof.
  assert (Hform : forall l c, 0 < l -> 0 < c ->
            EntropyCalculator.calculate_entropy l c = (IZR l * log2 (IZR c))%R).
  { intros l c Hl Hc. unfold EntropyCalculator.calculate_entropy.
    destruct (Z.leb_spec c 0); [lia |]. destruct (Z.leb_spec l 0); [lia |].
    reflexivity. }
  assert (Hzero : forall l c, l <= 0 \/ c <= 0 ->
            EntropyCalculator.calculate_entropy l c = 0%R).
  { intros l c H. unfold EntropyCalculator.calculate_entropy.
    destruct (Z.leb_spec c 0); [reflexivity |].
    destruct (Z.leb_spec l 0); [reflexivity | lia]. }
  assert (Hpos : forall l c, (0 <= EntropyCalculator.calculate_entropy l c)%R).
  { intros l c. destruct (Z_lt_le_dec 0 l) as [Hl|Hl];
      [destruct (Z_lt_le_dec 0 c) as [Hc|Hc] |].
    - rewrite Hform by assumption. apply Rmult_le_pos.
      + apply IZR_le. lia.
      + apply log2_nonneg. apply IZR_le. lia.
    - rewrite Hzero by auto. lra.
    - rewrite Hzero by auto. lra. }
  refine (conj Hform (conj Hzero (conj _ (conj _ (conj _ _))))).
  - intros l1 l2 c Hl.
    destruct (Z_lt_le_dec 0 l1) as [Hl1|Hl1]; [| rewrite (Hzero l1) by auto; apply Hpos].
    destruct (Z_lt_le_dec 0 c) as [Hc|Hc]; [| rewrite !Hzero by auto; lra].
    rewrite !Hform by lia.
    apply Rmult_le_compat_r; [apply log2_nonneg, IZR_le; lia | apply IZR_le; lia].
  - intros l c1 c2 Hc.
    destruct (Z_lt_le_dec 0 c1) as [Hc1|Hc1]; [| rewrite (Hzero l c1) by auto; apply Hpos].
    destruct (Z_lt_le_dec 0 l) as [Hl|Hl]; [| rewrite !Hzero by auto; lra].
    rewrite !Hform by lia.
    apply Rmult_le_compat_l; [apply IZR_le; lia |].
    apply log2_le; [apply IZR_lt; lia | apply IZR_le; lia].
  - intros c. apply Hzero. left. lia.
  - intros l. apply Hzero. right. lia.
Qed.

Lemma calculate_entropy_monotone_witness :
  (8 <= 12 /\
   (EntropyCalculator.calculate_entropy 8 26
    <= EntropyCalculator.calculate_entropy 12 26)%R)
  /\ (26 <= 94 /\
      (EntropyCalculator.calculate_entropy 8 26
       <= EntropyCalculator.calculate_entropy 8 94)%R)
  /\ (0 < 8 /\ 0 < 26 /\
      EntropyCalculator.calculate_entropy 8 26 = (8 * log2 26)%R).
Proof.
  destruct calculate_entropy_monotone as (Hform & _ & Hlen & Hsize & _).
  split; [split; [lia | apply Hlen; lia] |].
  split; [split; [lia | apply Hsize; lia] |].
  split; [lia |]. split; [lia |]. apply Hform; lia.
Defined.

(** ** Powers of two *)

Lemma log2_pow (x : R) (n : nat) : (0 < x)%R -> log2 (x ^ n) = (INR n * log2 x)%R.
Proof. intros Hx. unfold log2. rewrite ln_pow by assumption. lra. Qed.

Lemma IZR_pow_pos (c l : Z) : 0 <= l -> IZR (c ^ l) = (IZR c ^ Z.to_nat l)%R.
Proof. intros Hl. rewrite pow_IZR. now rewrite Z2Nat.id. Qed.

(** [2 ** (length * log2 charset_size)] is [charset_size ** length]. *)
Lemma Rpower_2_entropy (c l : Z) :
  0 < c -> 0 <= l -> Rpower 2 (IZR l * log2 (IZR c)) = IZR (c ^ l).
Proof.
  intros Hc Hl. pose proof ln_2_pos as H2.
  assert (Hcr : (0 < IZR c)%R) by (apply IZR_lt; lia).
  rewrite IZR_pow_pos by assumption.
  rewrite <- (exp_ln (IZR c ^ Z.to_nat l)) by (now apply pow_lt).
  rewrite ln_pow by assumption. unfold Rpower, log2.
  f_equal. rewrite INR_IZR_INZ, Z2Nat.id by assumption. field. lra.
Qed.

Lemma Rpower_2_INR (k : nat) : Rpower 2 (INR k) = IZR (2 ^ Z.of_nat k).
Proof. rewrite Rpower_pow by lra. apply pow_IZR. Qed.

(** An entropy [length * log2 charset_size] is compared with a whole
    number of bits by comparing integers. *)
Lemma entropy_below (c l : Z) (k : nat) :
  0 < c -> 0 <= l -> c ^ l < 2 ^ Z.of_nat k ->
  (IZR l * log2 (IZR c) < INR k)%R.
Proof.
  intros Hc Hl Hlt.
  destruct (Rlt_dec (IZR l * log2 (IZR c)) (INR k)) as [? | Hge]; [assumption |].
  exfalso.
  assert (H : (Rpower 2 (INR k) <= Rpower 2 (IZR l * log2 (IZR c)))%R)
    by (apply Rle_Rpower; lra).
  rewrite Rpower_2_INR, Rpower_2_entropy in H by assumption.
  apply le_IZR in H. lia.
Qed.

Lemma entropy_beyond (c l : Z) (k : nat) :
  0 < c -> 0 <= l -> 2 ^ Z.of_nat k <= c ^ l ->
  (INR k <= IZR l * log2 (IZR c))%R.
Proof.
  intros Hc Hl Hle. apply IZR_le in Hle.
  rewrite <- Rpower_2_INR, <- (Rpower_2_entropy c l) in Hle by assumption.
  destruct (Rle_dec (INR k) (IZR l * log2 (IZR c))) as [? | Hlt]; [assumption |].
  exfalso.
  assert (H : (Rpower 2 (IZR l * log2 (IZR c)) < Rpower 2 (INR k))%R)
    by (apply Rpower_lt; lra).
  lra.
Qed.

(** ** Floats and the crack-time estimator *)

Lemma float_of_int_ok (n : Z) :
  Z.abs n < float_limit -> float_of_int n = Ok (IZR n).
Proof.
  intros Hn. unfold float_of_int.
  destruct (Z.leb_spec float_limit (Z.abs n)); [lia | reflexivity].
Qed.

Lemma float_of_int_overflow (n : Z) :
  float_limit <= Z.abs n -> float_of_int n = Raise OverflowError.
Proof.
  intros Hn. unfold float_of_int.
  destruct (Z.leb_spec float_limit (Z.abs n)); [reflexivity | lia].
Qed.

(** The rates at which the division of the estimate goes through. *)
Lemma float_div_int_ok (x : R) (n : Z) :
  n <> 0 -> Z.abs n < float_limit -> float_div_int x n = Ok (x / IZR n)%R.
Proof.
  intros Hz Hn. unfold float_div_int. rewrite (float_of_int_ok n Hn).
  cbn [and_then]. destruct (Z.eqb_spec n 0); [contradiction | reflexivity].
Qed.

Lemma estimate_from_entropy_instant (attempts_per_second : Z) (entropy : R) :
  (entropy <= 0)%R ->
  CrackTimeEstimator.estimate_from_entropy attempts_per_second entropy = Ok "Instant"%string.
Proof.
  intros He. unfold CrackTimeEstimator.estimate_from_entropy.
  destruct (Rle_dec entropy 0); [reflexivity | contradiction].
Qed.

Lemma estimate_from_entropy_ok (attempts_per_second : Z) (entropy : R) :
  (0 < entropy < 1024)%R ->
  attempts_per_second <> 0 -> Z.abs (2 * attempts_per_second) < float_limit ->
  CrackTimeEstimator.estimate_from_entropy attempts_per_second entropy
  = Ok (CrackTimeEstimator._format_time
          (Rpower 2 entropy / (2 * IZR attempts_per_second))).
Proof.
  intros He Hz Hn. unfold CrackTimeEstimator.estimate_from_entropy, pow2_float.
  destruct (Rle_dec entropy 0); [lra |].
  destruct (Rle_dec 1024 entropy); [lra |]. cbn [and_then].
  rewrite float_div_int_ok by (assumption || lia). cbn [and_then].
  now rewrite mult_IZR.
Qed.

Lemma estimate_from_entropy_overflow (attempts_per_second : Z) (entropy : R) :
  (1024 <= entropy)%R ->
  CrackTimeEstimator.estimate_from_entropy attempts_per_second entropy
  = Raise OverflowError.
Proof.
  intros He. unfold CrackTimeEstimator.estimate_from_entropy, pow2_float.
  destruct (Rle_dec entropy 0); [lra |].
  destruct (Rle_dec 1024 entropy); [reflexivity | contradiction].
Qed.


(** [get_security_level] returns when the estimate does, and raises what
    the estimate raises. *)
Lemma get_security_level_returns (attempts_per_second : Z) (entropy : R)
  (time_estimate : string) :
  CrackTimeEstimator.estimate_from_entropy attempts_per_second entropy
  = Ok time_estimate ->
  exists level,
    CrackTimeEstimator.get_security_level attempts_per_second entropy = Ok level.
Proof.
  intros H. unfold CrackTimeEstimator.get_security_level. rewrite H. cbn [and_then].
  repeat match goal with
         | |- context [if ?b then _ else _] => destruct b
         end; eexists; reflexivity.
Qed.

Lemma get_security_level_raises (attempts_per_second : Z) (entropy : R) (e : exn) :
  CrackTimeEstimator.estimate_from_entropy attempts_per_second entropy = Raise e ->
  CrackTimeEstimator.get_security_level attempts_per_second entropy = Raise e.
Proof.
  intros H. unfold CrackTimeEstimator.get_security_level. now rewrite H.
Qed.

Lemma brute_force_rate_fits :
  BRUTE_FORCE_RATE <> 0 /\ Z.abs (2 * BRUTE_FORCE_RATE) < float_limit.
Proof. split; [discriminate | reflexivity]. Qed.

(** At the configured rate the estimate returns under 1024 bits and
    overflows from there on. *)
Lemma estimate_configured (entropy : R) :
  ((entropy < 1024)%R /\
   exists time_estimate level,
     CrackTimeEstimator.estimate_from_entropy BRUTE_FORCE_RATE entropy
     = Ok time_estimate
     /\ CrackTimeEstimator.get_security_level BRUTE_FORCE_RATE entropy = Ok level)
  \/ ((1024 <= entropy)%R /\
      CrackTimeEstimator.estimate_from_entropy BRUTE_FORCE_RATE entropy
      = Raise OverflowError).
Proof.
  destruct brute_force_rate_fits as [Hz Hn].
  destruct (Rlt_dec entropy 1024) as [Hlt | Hge].
  - left. split; [assumption |].
    assert (Hest : exists time_estimate,
               CrackTimeEstimator.estimate_from_entropy BRUTE_FORCE_RATE entropy
               = Ok time_estimate).
    { destruct (Rle_dec entropy 0).
      - eexists. now apply estimate_from_entropy_instant.
      - eexists. apply estimate_from_entropy_ok; [lra | assumption | assumption]. }
    destruct Hest as [time_estimate Hest].
    destruct (get_security_level_returns _ _ _ Hest) as [level Hlevel].
    now exists time_estimate, level.
  - right. split; [lra |]. apply estimate_from_entropy_overflow. lra.
Qed.

(** ** [analyze] *)

Lemma class_cover (c : ascii) :
  re_upper c || re_lower c || re_digit c || re_symbol c = true.
Proof.
  unfold re_symbol. destruct (re_upper c), (re_lower c), (re_digit c); reflexivity.
Qed.

Lemma some_class_found (password : string) :
  password <> EmptyString ->
  re_search_class re_upper password || re_search_class re_lower password
  || re_search_class re_digit password || re_search_class re_symbol password = true.
Proof.
  destruct password as [|c s]; [contradiction |]. intros _.
  unfold re_search_class, chars. cbn [list_ascii_of_string existsb].
  pose proof (class_cover c) as Hc.
  destruct (re_upper c), (re_lower c), (re_digit c), (re_symbol c);
    try discriminate Hc;
    destruct (existsb re_upper _), (existsb re_lower _),
      (existsb re_digit _), (existsb re_symbol _); reflexivity.
Qed.

Lemma charset_size_bounds (analysis : Analysis.t) :
  Analysis.has_uppercase analysis || Analysis.has_lowercase analysis
  || Analysis.has_numbers analysis || Analysis.has_symbols analysis = true ->
  10 <= PasswordAnalyzer.charset_size analysis <= 94.
Proof.
  unfold PasswordAnalyzer.charset_size.
  destruct (Analysis.has_uppercase analysis), (Analysis.has_lowercase analysis),
    (Analysis.has_numbers analysis), (Analysis.has_symbols analysis);
    cbn; intros H; try lia; discriminate.
Qed.

Lemma types_used_positive (analysis : Analysis.t) :
  Analysis.has_uppercase analysis || Analysis.has_lowercase analysis
  || Analysis.has_numbers analysis || Analysis.has_symbols analysis = true ->
  (1 <= PasswordAnalyzer.types_used analysis)%nat.
Proof.
  unfold PasswordAnalyzer.types_used.
  destruct (Analysis.has_uppercase analysis), (Analysis.has_lowercase analysis),
    (Analysis.has_numbers analysis), (Analysis.has_symbols analysis);
    cbn; intros H; try lia; discriminate.
Qed.

Lemma string_length_positive (password : string) :
  password <> EmptyString -> (0 < String.length password)%nat.
Proof. destruct password; [contradiction | cbn; lia]. Qed.

(** The alphabet that [_calculate_entropy] derives from a dictionary that
    holds the character types of the password. *)
Lemma charset_size_alphabet (password : string) (analysis : Analysis.t) :
  character_types password analysis ->
  PasswordAnalyzer.charset_size analysis = alphabet_size password.
Proof.
  intros (Hu & Hl & Hd & Hs).
  unfold PasswordAnalyzer.charset_size, alphabet_size. rewrite Hu, Hl, Hd, Hs.
  destruct (re_search_class re_upper password), (re_search_class re_lower password),
    (re_search_class re_digit password), (re_search_class re_symbol password);
    reflexivity.
Qed.

Lemma character_types_found (password : string) (analysis : Analysis.t) :
  password <> EmptyString -> character_types password analysis ->
  Analysis.has_uppercase analysis || Analysis.has_lowercase analysis
  || Analysis.has_numbers analysis || Analysis.has_symbols analysis = true.
Proof.
  intros Hne (Hu & Hl & Hd & Hs). rewrite Hu, Hl, Hd, Hs. now apply some_class_found.
Qed.

(** What [_calculate_entropy] and [_calculate_diversity] give for a
    non-empty password. *)
Lemma nonempty_measures (password : string) (analysis : Analysis.t) :
  password <> EmptyString -> character_types password analysis ->
  10 <= PasswordAnalyzer.charset_size analysis <= 94
  /\ PasswordAnalyzer._calculate_entropy password analysis =
       (INR (String.length password)
        * log2 (IZR (PasswordAnalyzer.charset_size analysis)))%R
  /\ PasswordAnalyzer._calculate_entropy password analysis = bits password
  /\ (0 < PasswordAnalyzer._calculate_entropy password analysis)%R
  /\ (1 / 4 <= PasswordAnalyzer._calculate_diversity analysis)%R.
Proof.
  intros Hne Htypes.
  pose proof (character_types_found password analysis Hne Htypes) as Hany.
  pose proof (charset_size_bounds analysis Hany) as Hsize.
  pose proof (types_used_positive analysis Hany) as Hused.
  assert (Hz : (PasswordAnalyzer.charset_size analysis =? 0) = false)
    by (apply Z.eqb_neq; lia).
  assert (Hformula : PasswordAnalyzer._calculate_entropy password analysis =
            (INR (String.length password)
             * log2 (IZR (PasswordAnalyzer.charset_size analysis)))%R).
  { unfold PasswordAnalyzer._calculate_entropy. now rewrite Hz. }
  split; [assumption |]. split; [assumption |]. split; [| split].
  - rewrite Hformula. unfold bits.
    now rewrite (charset_size_alphabet password analysis Htypes).
  - rewrite Hformula. apply Rmult_lt_0_compat.
    + apply lt_0_INR. now apply string_length_positive.
    + assert (1 <= log2 (IZR (PasswordAnalyzer.charset_size analysis)))%R; [| lra].
      rewrite <- log2_2. apply log2_le; [lra |]. apply IZR_le. lia.
  - unfold PasswordAnalyzer._calculate_diversity.
    apply le_INR in Hused. cbn [INR] in Hused. lra.
Qed.

Lemma bits_empty : bits EmptyString = 0%R.
Proof. unfold bits. cbn [String.length INR]. lra. Qed.

Lemma analyze_empty :
  PasswordAnalyzer.analyze EmptyString = Ok PasswordAnalyzer._empty_analysis.
Proof.
  unfold PasswordAnalyzer.analyze.
  destruct (decide (EmptyString = EmptyString)); [reflexivity | contradiction].
Qed.

(** The detector at its default [min_repeat] compiles its pattern, so
    that [detect_all_patterns] and [get_detected_patterns] return. *)
Lemma detect_all_patterns_ok (password : string) :
  PatternDetector.detect_all_patterns password =
    Ok {| Patterns.has_common_patterns := PatternDetector.has_common_patterns password;
          Patterns.has_sequential := PatternDetector.has_sequential_patterns password;
          Patterns.has_keyboard_patterns := PatternDetector.has_keyboard_patterns password;
          Patterns.has_repeated_chars := re_search (repeated_here 2) password;
          Patterns.has_date_pattern := PatternDetector.has_date_pattern password;
          Patterns.has_number_only_suffix := PatternDetector.has_number_suffix password |}.
Proof. reflexivity. Qed.

Lemma get_detected_patterns_ok (password : string) :
  PatternDetector.get_detected_patterns password =
    Ok (map snd
          (filter (fun item => fst item = true)
             [ (PatternDetector.has_common_patterns password, "Common weak patterns");
               (PatternDetector.has_sequential_patterns password, "Sequential characters");
               (PatternDetector.has_keyboard_patterns password, "Keyboard patterns");
               (re_search (repeated_here 2) password, "Repeated characters");
               (PatternDetector.has_date_pattern password, "Date patterns");
               (PatternDetector.has_number_suffix password, "Numbers-only suffix") ]%string)).
Proof. reflexivity. Qed.

(** The report of a non-empty password, key by key: every key holds what
    its function computes from the finished report. *)
Lemma analyze_fields (password : string) (analysis : Analysis.t) :
  password <> EmptyString ->
  PasswordAnalyzer.analyze password = Ok analysis ->
  Analysis.length analysis = String.length password
  /\ Analysis.has_uppercase analysis = re_search_class re_upper password
  /\ Analysis.has_lowercase analysis = re_search_class re_lower password
  /\ Analysis.has_numbers analysis = re_search_class re_digit password
  /\ Analysis.has_symbols analysis = re_search_class re_symbol password
  /\ Analysis.has_common_patterns analysis = PatternDetector.has_common_patterns password
  /\ Analysis.has_sequential analysis = PatternDetector.has_sequential_patterns password
  /\ Analysis.has_keyboard_patterns analysis = PatternDetector.has_keyboard_patterns password
  /\ PatternDetector.has_repeated_characters password 3
     = Ok (Analysis.has_repeated_chars analysis)
  /\ Analysis.has_date_pattern analysis = PatternDetector.has_date_pattern password
  /\ Analysis.has_number_only_suffix analysis = PatternDetector.has_number_suffix password
  /\ Analysis.diversity_score analysis = PasswordAnalyzer._calculate_diversity analysis
  /\ Analysis.entropy analysis = PasswordAnalyzer._calculate_entropy password analysis
  /\ Analysis.score analysis = StrengthScorer.calculate_score password analysis
  /\ Analysis.strength analysis = StrengthScorer.get_strength_level (Analysis.score analysis)
  /\ CrackTimeEstimator.estimate_from_entropy BRUTE_FORCE_RATE (Analysis.entropy analysis)
     = Ok (Analysis.crack_time analysis)
  /\ CrackTimeEstimator.get_security_level BRUTE_FORCE_RATE (Analysis.entropy analysis)
     = Ok (Analysis.security_level analysis)
  /\ Analysis.recommendations analysis = PasswordAnalyzer._generate_recommendations analysis
  /\ PatternDetector.get_detected_patterns password
     = Ok (Analysis.detected_patterns analysis).
Proof.
  intros Hne. unfold PasswordAnalyzer.analyze.
  destruct (decide (password = EmptyString)); [contradiction |].
  rewrite detect_all_patterns_ok. cbn [and_then]. cbv zeta.
  match goal with
  | |- context [Analysis.set_diversity_score ?d ?a] =>
      set (a0 := a); set (a1 := Analysis.set_diversity_score _ a0)
  end.
  set (a2 := Analysis.set_entropy _ a1).
  set (a3 := Analysis.set_score _ a2).
  set (a4 := Analysis.set_strength _ a3).
  match goal with
  | |- and_then ?r _ = _ -> _ => destruct r as [crack_time | e] eqn:Hcrack
  end; cbn [and_then]; [| discriminate].
  set (a5 := Analysis.set_crack_time _ a4).
  match goal with
  | |- and_then ?r _ = _ -> _ => destruct r as [security_level | e] eqn:Hlevel
  end; cbn [and_then]; [| discriminate].
  set (a6 := Analysis.set_security_level _ a5).
  rewrite get_detected_patterns_ok. cbn [and_then].
  intros [= <-]. do 15 (split; [reflexivity |]).
  split; [exact Hcrack |]. split; [exact Hlevel |].
  split; [reflexivity | apply get_detected_patterns_ok].
Qed.

Lemma analyze_character_types (password : string) (analysis : Analysis.t) :
  password <> EmptyString ->
  PasswordAnalyzer.analyze password = Ok analysis ->
  character_types password analysis.
Proof.
  intros Hne Hrun.
  destruct (analyze_fields password analysis Hne Hrun) as (_ & Hu & Hl & Hd & Hs & _).
  now repeat split.
Qed.

(** The entropy of a report is the estimate [bits] of its password. *)
Lemma analyze_entropy (password : string) (analysis : Analysis.t) :
  PasswordAnalyzer.analyze password = Ok analysis ->
  Analysis.entropy analysis = bits password.
Proof.
  destruct (decide (password = EmptyString)) as [-> | Hne].
  - rewrite analyze_empty. intros [= <-]. now rewrite bits_empty.
  - intros Hrun.
    destruct (analyze_fields password analysis Hne Hrun)
      as (_ & _ & _ & _ & _ & _ & _ & _ & _ & _ & _ & _ & Hent & _).
    rewrite Hent.
    apply nonempty_measures; [assumption | now apply analyze_character_types].
Qed.

(** [analyze] returns a report for a password of less than 1024 bits and
    raises [OverflowError] for every other. *)
Lemma analyze_returns (password : string) :
  (bits password < 1024)%R ->
  exists analysis, PasswordAnalyzer.analyze password = Ok analysis.
Proof.
  destruct (decide (password = EmptyString)) as [-> | Hne];
    [intros _; eexists; apply analyze_empty |].
  intros Hbits. unfold PasswordAnalyzer.analyze.
  destruct (decide (password = EmptyString)); [contradiction |].
  rewrite detect_all_patterns_ok, get_detected_patterns_ok. cbn [and_then]. cbv zeta.
  match goal with
  | |- context [and_then (CrackTimeEstimator.estimate_from_entropy _ ?entropy)] =>
      assert (Hent : entropy = bits password)
        by (apply nonempty_measures; [assumption | now repeat split]);
      destruct (estimate_configured entropy)
        as [(_ & time_estimate & level & Hest & Hlevel) | (Hge & _)];
      [| rewrite Hent in Hge; lra]
  end.
  rewrite Hest. cbn [and_then].
  match goal with
  | |- context [and_then ?r] =>
      change r with (@Ok string level) || (replace r with (@Ok string level) by (symmetry; exact Hlevel))
  end.
  cbn [and_then]. eexists. reflexivity.
Qed.

Lemma analyze_overflow (password : string) :
  (1024 <= bits password)%R ->
  PasswordAnalyzer.analyze password = Raise OverflowError.
Proof.
  intros Hbits.
  assert (Hne : password <> EmptyString)
    by (intros ->; rewrite bits_empty in Hbits; lra).
  unfold PasswordAnalyzer.analyze.
  destruct (decide (password = EmptyString)); [contradiction |].
  rewrite detect_all_patterns_ok. cbn [and_then]. cbv zeta.
  match goal with
  | |- context [and_then (CrackTimeEstimator.estimate_from_entropy _ ?entropy)] =>
      assert (Hent : entropy = bits password)
        by (apply nonempty_measures; [assumption | now repeat split]);
      rewrite (estimate_from_entropy_overflow BRUTE_FORCE_RATE entropy)
        by (rewrite Hent; exact Hbits)
  end.
  reflexivity.
Qed.

(** The alphabet size, entropy and diversity of the report of a non-empty
    password. *)
Lemma analyze_nonempty_measures (password : string) (analysis : Analysis.t) :
  password <> EmptyString ->
  PasswordAnalyzer.analyze password = Ok analysis ->
  10 <= PasswordAnalyzer.charset_size analysis <= 94
  /\ Analysis.entropy analysis =
       (INR (String.length password)
        * log2 (IZR (PasswordAnalyzer.charset_size analysis)))%R
  /\ (0 < Analysis.entropy analysis)%R
  /\ (1 / 4 <= Analysis.diversity_score analysis)%R.
Proof.
  intros Hne Hrun.
  destruct (analyze_fields password analysis Hne Hrun)
    as (_ & _ & _ & _ & _ & _ & _ & _ & _ & _ & _ & Hdiv & Hent & _).
  destruct (nonempty_measures password analysis Hne
              (analyze_character_types password analysis Hne Hrun))
    as (Hsize & Hformula & _ & Hpos & Hquarter).
  rewrite Hent, Hdiv. repeat split; try assumption; lia.
Qed.

(** Every report that [analyze] returns has a diversity and an entropy
    that are not negative. *)
Lemma analyze_well_formed (password : string) (analysis : Analysis.t) :
  PasswordAnalyzer.analyze password = Ok analysis ->
  ScoreSpec.well_formed analysis.
Proof.
  destruct (decide (password = EmptyString)) as [-> | Hne].
  - rewrite analyze_empty. intros [= <-].
    unfold ScoreSpec.well_formed, PasswordAnalyzer._empty_analysis.
    cbn [Analysis.diversity_score Analysis.entropy]. lra.
  - intros Hrun.
    destruct (analyze_nonempty_measures password analysis Hne Hrun) as (_ & _ & He & Hd).
    unfold ScoreSpec.well_formed. lra.
Qed.

Lemma alphabet_size_bounds (password : string) :
  password <> EmptyString -> 10 <= alphabet_size password <= 94.
Proof.
  intros Hne. pose proof (some_class_found password Hne) as H.
  unfold alphabet_size.
  destruct (re_search_class re_upper password), (re_search_class re_lower password),
    (re_search_class re_digit password), (re_search_class re_symbol password);
    cbn in H |- *; try lia; discriminate.
Qed.

(** The estimate [bits] is compared with 1024 by comparing the alphabet
    raised to the length with [2 ^ 1024], which a computation on integers
    settles. *)
Lemma bits_below (password : string) :
  alphabet_size password ^ Z.of_nat (String.length password) < 2 ^ 1024 ->
  (bits password < 1024)%R.
Proof.
  destruct (decide (password = EmptyString)) as [-> | Hne];
    [intros _; rewrite bits_empty; lra |].
  intros Hlt. pose proof (alphabet_size_bounds password Hne).
  unfold bits. rewrite INR_IZR_INZ.
  replace 1024%R with (INR 1024) by (rewrite INR_IZR_INZ; reflexivity).
  apply entropy_below; [lia | lia | exact Hlt].
Qed.

Lemma bits_beyond (password : string) :
  2 ^ 1024 <= alphabet_size password ^ Z.of_nat (String.length password) ->
  (1024 <= bits password)%R.
Proof.
  destruct (decide (password = EmptyString)) as [-> | Hne];
    [intros H; vm_compute in H; contradiction |].
  intros Hle. pose proof (alphabet_size_bounds password Hne).
  unfold bits. rewrite INR_IZR_INZ.
  replace 1024%R with (INR 1024) by (rewrite INR_IZR_INZ; reflexivity).
  apply entropy_beyond; [lia | lia | exact Hle].
Qed.

(** A generated password, of at most 128 characters, is under 1024 bits:
    so is every password of at most 156 characters. *)
Lemma bits_short (password : string) :
  (String.length password <= 156)%nat -> (bits password < 1024)%R.
Proof.
  intros Hlen. apply bits_below.
  destruct (decide (password = EmptyString)) as [-> | Hne]; [reflexivity |].
  pose proof (alphabet_size_bounds password Hne) as Ha.
  apply Z.le_lt_trans with (94 ^ 156); [| reflexivity].
  apply Z.le_trans with (94 ^ Z.of_nat (String.length password)).
  - apply Z.pow_le_mono_l. lia.
  - apply Z.pow_le_mono_r; lia.
Qed.

(** C10. For every non-empty password each character falls into one of
    the four classes, the symbol class being the complement of the other
    three. So for every dictionary that holds the character types of the
    password the alphabet size that [_calculate_entropy] derives is
    positive, its [charset_size == 0] branch is not taken, the entropy it
    returns is strictly positive and the diversity that
    [_calculate_diversity] returns is at least one quarter; and these are
    the entropy and the diversity score of every report that [analyze]
    returns. It returns one when the entropy is under 1024 bits; from
    there on [2 ** entropy] overflows and [analyze] raises. *)
Theorem analyze_nonempty_positive (password : string) :
  password <> EmptyString ->
  (forall c, c ∈ chars password ->
     re_upper c || re_lower c || re_digit c || re_symbol c = true)
  /\ (forall c, re_symbol c = negb (re_upper c || re_lower c || re_digit c))
  /\ (forall analysis, character_types password analysis ->
        0 < PasswordAnalyzer.charset_size analysis
        /\ (PasswordAnalyzer.charset_size analysis =? 0) = false
        /\ PasswordAnalyzer._calculate_entropy password analysis =
             (INR (String.length password)
              * log2 (IZR (PasswordAnalyzer.charset_size analysis)))%R
        /\ (0 < PasswordAnalyzer._calculate_entropy password analysis)%R
        /\ (1 / 4 <= PasswordAnalyzer._calculate_diversity analysis)%R)
  /\ (forall analysis, PasswordAnalyzer.analyze password = Ok analysis ->
        character_types password analysis
        /\ Analysis.entropy analysis
           = PasswordAnalyzer._calculate_entropy password analysis
        /\ Analysis.diversity_score analysis
           = PasswordAnalyzer._calculate_diversity analysis
        /\ Analysis.entropy analysis = bits password
        /\ (0 < Analysis.entropy analysis)%R
        /\ (1 / 4 <= Analysis.diversity_score analysis)%R)
  /\ ((bits password < 1024)%R ->
        exists analysis, PasswordAnalyzer.analyze password = Ok analysis)
  /\ ((1024 <= bits password)%R ->
        PasswordAnalyzer.analyze password = Raise OverflowError).
Proof.
  intros Hne.
  split; [intros c _; apply class_cover |].
  split; [reflexivity |].
  split; [| split; [| split; [apply analyze_returns | apply analyze_overflow]]].
  - intros analysis Htypes.
    destruct (nonempty_measures password analysis Hne Htypes)
      as (Hsize & Hformula & _ & Hpos & Hquarter).
    split; [lia |]. split; [apply Z.eqb_neq; lia |].
    repeat split; assumption.
  - intros analysis Hrun.
    pose proof (analyze_character_types password analysis Hne Hrun) as Htypes.
    destruct (analyze_fields password analysis Hne Hrun)
      as (_ & _ & _ & _ & _ & _ & _ & _ & _ & _ & _ & Hdiv & Hent & _).
    destruct (nonempty_measures password analysis Hne Htypes)
      as (_ & _ & _ & Hpos & Hquarter).
    split; [assumption |]. split; [assumption |]. split; [assumption |].
    split; [now apply analyze_entropy |].
    rewrite Hent, Hdiv. split; assumption.
Qed.

Lemma analyze_nonempty_positive_witness :
  let password := "aA1!aA1!"%string in
  let long :=
    ("aA1!aA1!aA1!aA1!aA1!aA1!aA1!aA1!aA1!aA1!aA1!aA1!aA1!aA1!aA1!aA1!aA1!aA1!aA1!aA1!aA1!aA1!aA1!aA1!aA1!aA1!aA1!aA1!aA1!aA1!aA1!aA1!aA1!aA1!aA1!aA1!aA1!aA1!aA1!aA1!")%string in
  (password <> EmptyString
   /\ (bits password < 1024)%R
   /\ exists analysis,
        PasswordAnalyzer.analyze password = Ok analysis
        /\ (0 < Analysis.entropy analysis)%R
        /\ (1 / 4 <= Analysis.diversity_score analysis)%R)
  /\ (long <> EmptyString
      /\ (1024 <= bits long)%R
      /\ PasswordAnalyzer.analyze long = Raise OverflowError).
Proof.
  intros password long. split.
  - assert (Hne : password <> EmptyString) by discriminate.
    assert (Hbits : (bits password < 1024)%R)
      by (apply bits_below; vm_compute; reflexivity).
    split; [exact Hne |]. split; [exact Hbits |].
    destruct (analyze_nonempty_positive password Hne)
      as (_ & _ & _ & Hreport & Hreturns & _).
    destruct (Hreturns Hbits) as [analysis Hrun].
    exists analysis. split; [exact Hrun |].
    destruct (Hreport analysis Hrun) as (_ & _ & _ & _ & Hpos & Hquarter).
    split; assumption.
  - assert (Hne : long <> EmptyString) by discriminate.
    assert (Hbits : (1024 <= bits long)%R)
      by (apply bits_beyond; vm_compute; discriminate).
    split; [exact Hne |]. split; [exact Hbits |].
    destruct (analyze_nonempty_positive long Hne) as (_ & _ & _ & _ & _ & Hraises).
    exact (Hraises Hbits).
Defined.

(** ** [calculate_score] *)

Lemma score_length_table (length : Z) :
  StrengthScorer._score_length length = ScoreSpec.length_points length.
Proof.
  unfold StrengthScorer._score_length, ScoreSpec.length_points.
  now rewrite !Z.geb_leb.
Qed.

Lemma score_diversity_floor (analysis : Analysis.t) :
  (0 <= Analysis.diversity_score analysis)%R ->
  StrengthScorer._score_diversity analysis =
    ScoreSpec.diversity_points (Analysis.diversity_score analysis).
Proof.
  intros Hd. unfold StrengthScorer._score_diversity, ScoreSpec.diversity_points.
  apply int_of_float_nonneg. lra.
Qed.

Lemma score_entropy_table (entropy : R) :
  (0 <= entropy)%R ->
  StrengthScorer._score_entropy entropy = ScoreSpec.entropy_points entropy.
Proof.
  intros He. unfold StrengthScorer._score_entropy, ScoreSpec.entropy_points.
  destruct (Rge_dec entropy 100), (Rle_dec 100 entropy); try lra; try reflexivity.
  destruct (Rge_dec entropy 80), (Rle_dec 80 entropy); try lra; try reflexivity.
  destruct (Rge_dec entropy 60), (Rle_dec 60 entropy); try lra; try reflexivity.
  destruct (Rge_dec entropy 40), (Rle_dec 40 entropy); try lra; try reflexivity.
  apply int_of_float_nonneg. lra.
Qed.

Lemma score_patterns_adjustment (analysis : Analysis.t) :
  StrengthScorer._score_patterns analysis = ScoreSpec.pattern_adjustment analysis.
Proof.
  unfold StrengthScorer._score_patterns, ScoreSpec.pattern_adjustment.
  destruct (Analysis.has_common_patterns analysis), (Analysis.has_sequential analysis),
    (Analysis.has_keyboard_patterns analysis), (Analysis.has_repeated_chars analysis),
    (Analysis.has_date_pattern analysis); reflexivity.
Qed.

(** C5. For every password and every report (its diversity and entropy
    not negative), the score is an integer of [0, 100], the clamp of the
    sum of the length table, the diversity score times 25 rounded down, the
    entropy table and the pattern adjustment. *)
Theorem calculate_score_clamped_sum (password : string) (analysis : Analysis.t) :
  ScoreSpec.well_formed analysis ->
  0 <= StrengthScorer.calculate_score password analysis <= 100
  /\ StrengthScorer.calculate_score password analysis = ScoreSpec.score analysis.
Proof.
  intros [Hd He]. split.
  - unfold StrengthScorer.calculate_score. lia.
  - unfold StrengthScorer.calculate_score, ScoreSpec.score, ScoreSpec.clamp.
    rewrite score_length_table, (score_diversity_floor _ Hd),
      (score_entropy_table _ He), score_patterns_adjustment.
    reflexivity.
Qed.

Lemma calculate_score_clamped_sum_witness :
  let analysis :=
    {| Analysis.length := 11; Analysis.has_uppercase := false;
       Analysis.has_lowercase := true; Analysis.has_numbers := true;
       Analysis.has_symbols := false; Analysis.has_common_patterns := true;
       Analysis.has_sequential := true; Analysis.has_keyboard_patterns := false;
       Analysis.has_repeated_chars := false; Analysis.has_date_pattern := false;
       Analysis.has_number_only_suffix := true;
       Analysis.diversity_score := (1 / 2)%R; Analysis.entropy := 56%R;
       Analysis.score := 0; Analysis.strength := EmptyString;
       Analysis.crack_time := EmptyString; Analysis.security_level := EmptyString;
       Analysis.recommendations := []; Analysis.detected_patterns := [] |} in
  ScoreSpec.well_formed analysis
  /\ 0 <= StrengthScorer.calculate_score "password123" analysis <= 100
  /\ StrengthScorer.calculate_score "password123" analysis = ScoreSpec.score analysis.
Proof.
  intros analysis.
  assert (Hwf : ScoreSpec.well_formed analysis)
    by (unfold ScoreSpec.well_formed, analysis; cbn; lra).
  split; [exact Hwf |].
  exact (calculate_score_clamped_sum "password123" analysis Hwf).
Defined.

(** ** [_format_time] *)

Ltac decide_bands :=
  repeat match goal with
         | |- context [Rlt_dec ?a ?b] => destruct (Rlt_dec a b); try lra
         end.

(** The count printed in a band is the duration divided by the unit,
    rounded down, and it is at least one. *)
Lemma band_count (seconds unit_seconds : R) :
  (0 < unit_seconds)%R -> (unit_seconds <= seconds)%R ->
  int_of_float (seconds / unit_seconds) = Zfloor (seconds / unit_seconds)
  /\ 1 <= Zfloor (seconds / unit_seconds).
Proof.
  intros Hu Hs.
  assert (H1 : (1 <= seconds / unit_seconds)%R).
  { apply (Rmult_le_reg_r unit_seconds); [assumption |].
    unfold Rdiv. rewrite Rmult_assoc, Rinv_l by lra. lra. }
  split; [apply int_of_float_nonneg; lra | now apply (Zfloor_lub 1)].
Qed.

(** The unit word of [counted] is singular exactly at one. *)
Lemma counted_plural (n : Z) (unit : string) :
  CrackTimeEstimator.counted n unit =
    (str_of_int n ++ " " ++ unit ++ (if (n =? 1)%Z then "" else "s"))%string.
Proof.
  unfold CrackTimeEstimator.counted.
  destruct (Z.eqb_spec n 1), (decide (n ≠ 1)); try reflexivity; contradiction.
Qed.

(** The bands of the formatter, from the shortest duration up. *)
Lemma format_time_bands (seconds : R) :
  ((seconds < 1 / 1000)%R ->
     CrackTimeEstimator._format_time seconds = "Instant")
  /\ ((1 / 1000 <= seconds < 1)%R ->
        CrackTimeEstimator._format_time seconds = "Less than 1 second")
  /\ ((1 <= seconds < 60)%R ->
        CrackTimeEstimator._format_time seconds =
          (str_of_int (Zfloor seconds) ++ " seconds")%string)
  /\ ((60 <= seconds < 3600)%R ->
        CrackTimeEstimator._format_time seconds =
          CrackTimeEstimator.counted (Zfloor (seconds / 60)) "minute")
  /\ ((3600 <= seconds < 86400)%R ->
        CrackTimeEstimator._format_time seconds =
          CrackTimeEstimator.counted (Zfloor (seconds / 3600)) "hour")
  /\ ((86400 <= seconds < 2592000)%R ->
        CrackTimeEstimator._format_time seconds =
          CrackTimeEstimator.counted (Zfloor (seconds / 86400)) "day")
  /\ ((2592000 <= seconds < 31536000)%R ->
        CrackTimeEstimator._format_time seconds =
          CrackTimeEstimator.counted (Zfloor (seconds / 2592000)) "month")
  /\ ((31536000 <= seconds < 3153600000)%R ->
        CrackTimeEstimator._format_time seconds =
          CrackTimeEstimator.counted (Zfloor (seconds / 31536000)) "year")
  /\ ((3153600000 <= seconds < 31536000000)%R ->
        CrackTimeEstimator._format_time seconds = "Centuries")
  /\ ((31536000000 <= seconds)%R ->
        CrackTimeEstimator._format_time seconds = "Millennia+").
Proof.
  unfold CrackTimeEstimator._format_time.
  repeat split; intros H; decide_bands; try reflexivity.
  - rewrite int_of_float_nonneg by lra. reflexivity.
  - now rewrite (proj1 (band_count seconds 60 ltac:(lra) ltac:(lra))).
  - now rewrite (proj1 (band_count seconds 3600 ltac:(lra) ltac:(lra))).
  - now rewrite (proj1 (band_count seconds 86400 ltac:(lra) ltac:(lra))).
  - now rewrite (proj1 (band_count seconds 2592000 ltac:(lra) ltac:(lra))).
  - now rewrite (proj1 (band_count seconds 31536000 ltac:(lra) ltac:(lra))).
Qed.

(** C6. In the seconds band the unit word is always plural: a duration of
    one second and more, under two seconds, has the count 1 and is printed
    with the word "seconds", where the minute, hour, day, month and year
    bands print a singular word at count 1. *)
Theorem format_time_one_second (seconds : R) :
  (1 <= seconds < 2)%R ->
  int_of_float seconds = 1
  /\ CrackTimeEstimator._format_time seconds = "1 seconds"
  /\ CrackTimeEstimator._format_time (60 * seconds) = "1 minute".
Proof.
  intros H.
  assert (Hn : Zfloor seconds = 1) by (apply Zfloor_eq; lra).
  destruct (format_time_bands seconds) as (_ & _ & Hs & _).
  destruct (format_time_bands (60 * seconds)) as (_ & _ & _ & Hm & _).
  split; [rewrite int_of_float_nonneg by lra; exact Hn |]. split.
  - rewrite Hs by lra. now rewrite Hn.
  - rewrite Hm by lra.
    replace (60 * seconds / 60)%R with seconds by field.
    now rewrite Hn.
Qed.

Lemma format_time_one_second_witness :
  (1 <= 3 / 2 < 2)%R
  /\ int_of_float (3 / 2) = 1
  /\ CrackTimeEstimator._format_time (3 / 2) = "1 seconds"
  /\ CrackTimeEstimator._format_time (60 * (3 / 2)) = "1 minute".
Proof.
  assert (H : (1 <= 3 / 2 < 2)%R) by lra.
  split; [exact H |]. exact (format_time_one_second (3 / 2) H).
Defined.

(** ** [_generate_recommendations] *)

Lemma when_step (condition : bool) (message : string) (l : list string) :
  (if condition then l ++ [message] else l)
  = l ++ RecommendationSpec.when condition message.
Proof. destruct condition; cbn; [reflexivity | now rewrite app_nil_r]. Qed.

Lemma when_length_step (short medium : bool) (m1 m2 : string) (l : list string) :
  (if short then l ++ [m1] else if medium then l ++ [m2] else l)
  = l ++ RecommendationSpec.when short m1
      ++ RecommendationSpec.when (negb short && medium) m2.
Proof. destruct short, medium; cbn; now rewrite ?app_nil_r. Qed.

Lemma when_step_dec {P Q : Prop} (condition : {P} + {Q}) (message : string)
  (l : list string) :
  (if condition then l ++ [message] else l)
  = l ++ RecommendationSpec.when (if condition then true else false) message.
Proof. destruct condition; cbn; [reflexivity | now rewrite app_nil_r]. Qed.

Lemma elem_of_when (condition : bool) (message m : string) :
  m ∈ RecommendationSpec.when condition message <-> condition = true /\ m = message.
Proof.
  destruct condition; cbn.
  - rewrite list_elem_of_singleton. tauto.
  - split; [intros H; inversion H | intros [H _]; discriminate].
Qed.

(** The code and the list of independent conditions give the same
    recommendations. *)
Lemma generate_recommendations_spec (analysis : Analysis.t) :
  PasswordAnalyzer._generate_recommendations analysis =
    RecommendationSpec.recommendations analysis.
Proof.
  unfold PasswordAnalyzer._generate_recommendations,
    RecommendationSpec.recommendations.
  cbv zeta.
  rewrite when_length_step, !when_step, (when_step_dec (Rlt_dec _ _)).
  match goal with
  | |- (if decide (?l = []) then _ else _) = _ =>
      replace l with (RecommendationSpec.advice analysis)
        by (unfold RecommendationSpec.advice; cbn [app];
            now rewrite <- !app_assoc)
  end.
  destruct (decide (RecommendationSpec.advice analysis = [])) as [-> | ?];
    reflexivity.
Qed.

(** The affirmation is none of the pieces of advice. *)
Lemma affirmation_not_advice (analysis : Analysis.t) :
  RecommendationSpec.affirmation ∉ RecommendationSpec.advice analysis.
Proof.
  unfold RecommendationSpec.advice. rewrite !elem_of_app, !elem_of_when.
  unfold RecommendationSpec.affirmation, RecommendationSpec.avoid_common,
    RecommendationSpec.avoid_sequential, RecommendationSpec.avoid_keyboard,
    RecommendationSpec.avoid_repeated.
  intros H. repeat destruct H as [H | H]; destruct H as [_ H]; discriminate H.
Qed.

(** A true flag among the four puts its advice in the list. *)
Lemma advice_of_flags (analysis : Analysis.t) :
  (Analysis.has_common_patterns analysis = true ->
     RecommendationSpec.avoid_common ∈ RecommendationSpec.advice analysis)
  /\ (Analysis.has_sequential analysis = true ->
        RecommendationSpec.avoid_sequential ∈ RecommendationSpec.advice analysis)
  /\ (Analysis.has_keyboard_patterns analysis = true ->
        RecommendationSpec.avoid_keyboard ∈ RecommendationSpec.advice analysis)
  /\ (Analysis.has_repeated_chars analysis = true ->
        RecommendationSpec.avoid_repeated ∈ RecommendationSpec.advice analysis).
Proof.
  unfold RecommendationSpec.advice.
  repeat split; intros H; rewrite !elem_of_app, !elem_of_when; rewrite H; tauto.
Qed.

(** The date and suffix flags have no part in the advice: a report that is
    long, has the four classes, none of the four advised patterns and enough
    entropy is affirmed, whatever these two flags are. *)
Lemma clean_report_affirmed (analysis : Analysis.t) :
  (12 <= Analysis.length analysis)%nat ->
  Analysis.has_uppercase analysis = true ->
  Analysis.has_lowercase analysis = true ->
  Analysis.has_numbers analysis = true ->
  Analysis.has_symbols analysis = true ->
  Analysis.has_common_patterns analysis = false ->
  Analysis.has_sequential analysis = false ->
  Analysis.has_keyboard_patterns analysis = false ->
  Analysis.has_repeated_chars analysis = false ->
  (40 <= Analysis.entropy analysis)%R ->
  RecommendationSpec.recommendations analysis = [RecommendationSpec.affirmation].
Proof.
  intros Hlen Hu Hl Hd Hs Hc Hq Hk Hr He.
  unfold RecommendationSpec.recommendations, RecommendationSpec.advice.
  rewrite Hu, Hl, Hd, Hs, Hc, Hq, Hk, Hr.
  replace (Analysis.length analysis <? 8)%nat with false
    by (symmetry; apply Nat.ltb_ge; lia).
  replace (Analysis.length analysis <? 12)%nat with false
    by (symmetry; apply Nat.ltb_ge; lia).
  destruct (Rlt_dec (Analysis.entropy analysis) 40); [lra |].
  reflexivity.
Qed.

(** The recommendations read ten keys of the dictionary: the length, the
    four classes, four of the six pattern flags and the entropy. Two
    dictionaries that agree on them get the same list. *)
Lemma recommendations_keys (analysis other : Analysis.t) :
  Analysis.length other = Analysis.length analysis ->
  Analysis.has_uppercase other = Analysis.has_uppercase analysis ->
  Analysis.has_lowercase other = Analysis.has_lowercase analysis ->
  Analysis.has_numbers other = Analysis.has_numbers analysis ->
  Analysis.has_symbols other = Analysis.has_symbols analysis ->
  Analysis.has_common_patterns other = Analysis.has_common_patterns analysis ->
  Analysis.has_sequential other = Analysis.has_sequential analysis ->
  Analysis.has_keyboard_patterns other = Analysis.has_keyboard_patterns analysis ->
  Analysis.has_repeated_chars other = Analysis.has_repeated_chars analysis ->
  Analysis.entropy other = Analysis.entropy analysis ->
  PasswordAnalyzer._generate_recommendations other
  = PasswordAnalyzer._generate_recommendations analysis.
Proof.
  intros Hlen Hu Hl Hd Hs Hc Hq Hk Hr He.
  rewrite !generate_recommendations_spec.
  unfold RecommendationSpec.recommendations, RecommendationSpec.advice.
  now rewrite Hlen, Hu, Hl, Hd, Hs, Hc, Hq, Hk, Hr, He.
Qed.

(** C7. Of the six pattern flags the recommendations read four. For every
    non-empty password of less than 1024 bits [analyze] returns a report,
    and its list of recommendations is the length, missing-class and
    entropy recommendations together with one piece of advice for each true
    flag among common, sequential, keyboard and repeated characters, the
    affirmation being there exactly when nothing else is, as the only
    message. The date-pattern and numeric-suffix flags are never read: a
    dictionary that differs from the report in them alone gets the same
    list, so that a password whose only findings are a date and a numeric
    suffix is told that it meets the best practices. *)
Theorem analyze_recommendations (password : string) :
  password <> EmptyString ->
  (bits password < 1024)%R ->
  exists analysis,
  PasswordAnalyzer.analyze password = Ok analysis /\
  (let recommendations := Analysis.recommendations analysis in
  recommendations = RecommendationSpec.recommendations analysis
  /\ (forall m, m ∈ RecommendationSpec.advice analysis -> m ∈ recommendations)
  /\ (Analysis.has_common_patterns analysis = true ->
        RecommendationSpec.avoid_common ∈ recommendations)
  /\ (Analysis.has_sequential analysis = true ->
        RecommendationSpec.avoid_sequential ∈ recommendations)
  /\ (Analysis.has_keyboard_patterns analysis = true ->
        RecommendationSpec.avoid_keyboard ∈ recommendations)
  /\ (Analysis.has_repeated_chars analysis = true ->
        RecommendationSpec.avoid_repeated ∈ recommendations)
  /\ (RecommendationSpec.affirmation ∈ recommendations <->
        RecommendationSpec.advice analysis = [])
  /\ (RecommendationSpec.affirmation ∈ recommendations ->
        recommendations = [RecommendationSpec.affirmation])
  /\ (forall other,
        Analysis.length other = Analysis.length analysis ->
        Analysis.has_uppercase other = Analysis.has_uppercase analysis ->
        Analysis.has_lowercase other = Analysis.has_lowercase analysis ->
        Analysis.has_numbers other = Analysis.has_numbers analysis ->
        Analysis.has_symbols other = Analysis.has_symbols analysis ->
        Analysis.has_common_patterns other = Analysis.has_common_patterns analysis ->
        Analysis.has_sequential other = Analysis.has_sequential analysis ->
        Analysis.has_keyboard_patterns other = Analysis.has_keyboard_patterns analysis ->
        Analysis.has_repeated_chars other = Analysis.has_repeated_chars analysis ->
        Analysis.entropy other = Analysis.entropy analysis ->
        PasswordAnalyzer._generate_recommendations other = recommendations)).
Proof.
  intros Hne Hbits. destruct (analyze_returns password Hbits) as [analysis Hrun].
  exists analysis. split; [exact Hrun |]. intros recommendations.
  destruct (analyze_fields password analysis Hne Hrun)
    as (_ & _ & _ & _ & _ & _ & _ & _ & _ & _ & _ & _ & _ & _ & _ & _ & _ & Hrec & _).
  assert (Hspec : recommendations = RecommendationSpec.recommendations analysis).
  { unfold recommendations. rewrite Hrec. apply generate_recommendations_spec. }
  assert (Hin : forall m, m ∈ RecommendationSpec.advice analysis -> m ∈ recommendations).
  { intros m Hm. rewrite Hspec. unfold RecommendationSpec.recommendations.
    destruct (decide (RecommendationSpec.advice analysis = [])) as [Hnil | _];
      [rewrite Hnil in Hm; inversion Hm | assumption]. }
  assert (Haff : RecommendationSpec.affirmation ∈ recommendations ->
                 RecommendationSpec.advice analysis = []).
  { rewrite Hspec. unfold RecommendationSpec.recommendations.
    destruct (decide (RecommendationSpec.advice analysis = [])) as [Hnil | _];
      [auto |]. intros H. now apply affirmation_not_advice in H. }
  destruct (advice_of_flags analysis) as (Hc & Hq & Hk & Hr).
  split; [assumption |]. split; [assumption |].
  split; [auto |]. split; [auto |]. split; [auto |]. split; [auto |].
  split; [split; [assumption |] | split].
  - intros Hnil. rewrite Hspec. unfold RecommendationSpec.recommendations.
    rewrite Hnil. cbn. apply list_elem_of_singleton. reflexivity.
  - intros H%Haff. rewrite Hspec. unfold RecommendationSpec.recommendations.
    now rewrite H.
  - intros other Hlen Fu Fl Fd Fs Fc Fq Fk Fr Fe. unfold recommendations.
    rewrite Hrec. now apply recommendations_keys.
Qed.

Ltac compute_rhs H :=
  match type of H with
  | _ = ?rhs => let v := eval vm_compute in rhs in change rhs with v in H
  end.

Lemma analyze_recommendations_witness :
  let password := "Gv!xQz#12-3-4"%string in
  password <> EmptyString
  /\ (bits password < 1024)%R
  /\ exists analysis,
       PasswordAnalyzer.analyze password = Ok analysis
       /\ Analysis.has_date_pattern analysis = true
       /\ Analysis.has_number_only_suffix analysis = true
       /\ Analysis.recommendations analysis = [RecommendationSpec.affirmation].
Proof.
  intros password.
  assert (Hne : password <> EmptyString) by discriminate.
  assert (Hbits : (bits password < 1024)%R) by (apply bits_short; vm_compute; lia).
  split; [exact Hne |]. split; [exact Hbits |].
  destruct (analyze_recommendations password Hne Hbits) as (analysis & Hrun & Hspec & _).
  exists analysis. split; [exact Hrun |].
  destruct (analyze_fields password analysis Hne Hrun)
    as (Hlen & Hu & Hl & Hd & Hs & Hc & Hq & Hk & Hr & Hdate & Hsuffix & _).
  destruct (analyze_nonempty_measures password analysis Hne Hrun) as (_ & Hent & _).
  compute_rhs Hlen. compute_rhs Hu. compute_rhs Hl. compute_rhs Hd.
  compute_rhs Hs. compute_rhs Hc. compute_rhs Hq. compute_rhs Hk.
  compute_rhs Hdate. compute_rhs Hsuffix.
  assert (Hrepeated : Analysis.has_repeated_chars analysis = false).
  { assert (H : PatternDetector.has_repeated_characters password 3 = Ok false)
      by (vm_compute; reflexivity).
    rewrite H in Hr. now injection Hr. }
  split; [assumption |]. split; [assumption |].
  rewrite Hspec.
  apply clean_report_affirmed; try assumption.
  - rewrite Hlen. lia.
  - rewrite Hent. unfold PasswordAnalyzer.charset_size. rewrite Hu, Hl, Hd, Hs.
    change (String.length password) with 13%nat.
    change (0 + 26 + 26 + 10 + 32) with 94.
    assert (H6 : (INR 6 <= log2 94)%R) by (apply log2_lower_bound; lra).
    assert (H13 : INR 13 = 13%R) by (cbn; lra).
    assert (H6' : INR 6 = 6%R) by (cbn; lra).
    rewrite H13. lra.
Defined.

(** ** [validate] *)

Lemma when_here (condition : bool) (message : string) (l : list string) :
  condition = true -> message ∈ RecommendationSpec.when condition message ++ l.
Proof. intros ->. cbn. apply list_elem_of_here. Qed.

Lemma when_later (condition : bool) (m message : string) (l : list string) :
  m ∈ l -> m ∈ RecommendationSpec.when condition message ++ l.
Proof. intros H. apply elem_of_app. now right. Qed.

(** The answer of [validate] on a password that [analyze] reports on: the
    errors are the list of conditions, and the validity and the warnings
    are computed from the finished list of errors. *)
Lemma validate_answer (format_1f format_float : R -> string)
  (policy : PasswordPolicy.t) (password : string) (analysis : Analysis.t) :
  PasswordAnalyzer.analyze password = Ok analysis ->
  let errors := PolicySpec.errors format_1f format_float policy password analysis in
  PolicyValidator.validate format_1f format_float policy password =
    Ok {| ValidationResult.valid := (List.length errors =? 0)%nat;
          ValidationResult.errors := errors;
          ValidationResult.warnings :=
            if decide (errors = []) then
              (if Analysis.score analysis <? 60
               then ["Password is weak. Consider making it stronger."%string] else [])
              ++ (if negb (PasswordPolicy.require_symbols policy)
                     && negb (Analysis.has_symbols analysis)
                  then ["Adding symbols would significantly improve strength"%string]
                  else [])
            else [];
          ValidationResult.score := Analysis.score analysis;
          ValidationResult.strength := Analysis.strength analysis |}.
Proof.
  intros Hrun errors. unfold PolicyValidator.validate. rewrite Hrun.
  cbv zeta. cbn [and_then].
  match goal with
  | |- context [decide (?e = [])] =>
      replace e with errors
        by (unfold errors, PolicySpec.errors, PolicySpec.lacks;
            rewrite !when_step; cbn [app]; now rewrite <- !app_assoc)
  end.
  generalize errors. intros l.
  destruct (Analysis.score analysis <? 60),
    (negb (PasswordPolicy.require_symbols policy) && negb (Analysis.has_symbols analysis));
    reflexivity.
Qed.

(** [validate] raises what [analyze] raises. *)
Lemma validate_raises (format_1f format_float : R -> string)
  (policy : PasswordPolicy.t) (password : string) (e : exn) :
  PasswordAnalyzer.analyze password = Raise e ->
  PolicyValidator.validate format_1f format_float policy password = Raise e.
Proof. intros Hrun. unfold PolicyValidator.validate. now rewrite Hrun. Qed.

(** An answer of [validate] comes with a report of [analyze]. *)
Lemma validate_analyzed (format_1f format_float : R -> string)
  (policy : PasswordPolicy.t) (password : string) (result : ValidationResult.t) :
  PolicyValidator.validate format_1f format_float policy password = Ok result ->
  exists analysis, PasswordAnalyzer.analyze password = Ok analysis.
Proof.
  destruct (PasswordAnalyzer.analyze password) as [analysis | e] eqn:Hrun.
  - intros _. now exists analysis.
  - rewrite (validate_raises format_1f format_float policy password e Hrun).
    discriminate.
Qed.

Lemma validate_returns (format_1f format_float : R -> string)
  (policy : PasswordPolicy.t) (password : string) :
  (bits password < 1024)%R ->
  exists result,
    PolicyValidator.validate format_1f format_float policy password = Ok result.
Proof.
  intros Hbits. destruct (analyze_returns password Hbits) as [analysis Hrun].
  eexists. exact (validate_answer format_1f format_float policy password analysis Hrun).
Qed.

Lemma validate_overflow (format_1f format_float : R -> string)
  (policy : PasswordPolicy.t) (password : string) :
  (1024 <= bits password)%R ->
  PolicyValidator.validate format_1f format_float policy password
  = Raise OverflowError.
Proof. intros Hbits. apply validate_raises. now apply analyze_overflow. Qed.

(** A password shorter than the policy asks for has the error that names
    the minimum length. *)
Lemma validate_short_password (format_1f format_float : R -> string)
  (policy : PasswordPolicy.t) (password : string) (result : ValidationResult.t) :
  Z.of_nat (String.length password) < PasswordPolicy.min_length policy ->
  PolicyValidator.validate format_1f format_float policy password = Ok result ->
  ("Password must be at least " ++ str_of_int (PasswordPolicy.min_length policy)
   ++ " characters")%string
  ∈ ValidationResult.errors result.
Proof.
  intros Hshort Hval. apply Z.ltb_lt in Hshort.
  destruct (validate_analyzed _ _ _ _ _ Hval) as [analysis Hrun].
  rewrite (validate_answer format_1f format_float policy password analysis Hrun) in Hval.
  injection Hval as <-. cbn [ValidationResult.errors].
  unfold PolicySpec.errors. now apply when_here.
Qed.

(** C8. For every password and policy, an answer of [validate] is valid
    exactly when its list of errors is empty; warnings are only computed,
    and so can only be there, when the errors are empty, where they are the
    advisory to strengthen at a score under 60 followed by the advisory on
    symbols when the policy does not require them and the password has
    none; the validity is read from the errors alone. [validate] gives an
    answer for every password of less than 1024 bits; for the others the
    call to [analyze] raises [OverflowError] before any answer is built. *)
Theorem validate_valid_iff_no_errors (format_1f format_float : R -> string)
  (policy : PasswordPolicy.t) (password : string) :
  (forall result,
     PolicyValidator.validate format_1f format_float policy password = Ok result ->
     exists analysis,
       PasswordAnalyzer.analyze password = Ok analysis
       /\ (ValidationResult.valid result = true <-> ValidationResult.errors result = [])
       /\ (ValidationResult.warnings result <> [] -> ValidationResult.errors result = [])
       /\ (ValidationResult.errors result = [] ->
             ValidationResult.warnings result =
               (if Analysis.score analysis <? 60
                then ["Password is weak. Consider making it stronger."%string] else [])
               ++ (if negb (PasswordPolicy.require_symbols policy)
                      && negb (Analysis.has_symbols analysis)
                   then ["Adding symbols would significantly improve strength"%string]
                   else []))
       /\ (ValidationResult.errors result <> [] ->
             ValidationResult.valid result = false
             /\ ValidationResult.warnings result = [])
       /\ ValidationResult.valid result
          = (List.length (ValidationResult.errors result) =? 0)%nat)
  /\ ((bits password < 1024)%R ->
        exists result,
          PolicyValidator.validate format_1f format_float policy password = Ok result)
  /\ ((1024 <= bits password)%R ->
        PolicyValidator.validate format_1f format_float policy password
        = Raise OverflowError).
Proof.
  split; [| split; [apply validate_returns | apply validate_overflow]].
  intros result Hval.
  destruct (validate_analyzed _ _ _ _ _ Hval) as [analysis Hrun].
  exists analysis. split; [exact Hrun |].
  rewrite (validate_answer format_1f format_float policy password analysis Hrun) in Hval.
  injection Hval as <-.
  cbn [ValidationResult.valid ValidationResult.errors ValidationResult.warnings].
  generalize (PolicySpec.errors format_1f format_float policy password analysis).
  intros errors.
  split; [| split; [| split; [| split]]].
  - destruct errors; cbn; split; congruence.
  - destruct (decide (errors = [])); [auto | congruence].
  - intros ->. destruct (decide ([] = [])) as [_ | Hn]; [reflexivity | contradiction].
  - intros Hne. split.
    + destruct errors; [contradiction | reflexivity].
    + destruct (decide (errors = [])); [contradiction | reflexivity].
  - reflexivity.
Qed.

Lemma validate_valid_iff_no_errors_witness :
  let password := "Ab1!"%string in
  let long :=
    ("aA1!aA1!aA1!aA1!aA1!aA1!aA1!aA1!aA1!aA1!aA1!aA1!aA1!aA1!aA1!aA1!aA1!aA1!aA1!aA1!aA1!aA1!aA1!aA1!aA1!aA1!aA1!aA1!aA1!aA1!aA1!aA1!aA1!aA1!aA1!aA1!aA1!aA1!aA1!aA1!")%string in
  ((bits password < 1024)%R
   /\ exists result,
        PolicyValidator.validate (fun _ => EmptyString) (fun _ => EmptyString)
          PasswordPolicy.default password = Ok result
        /\ ValidationResult.errors result <> []
        /\ ValidationResult.valid result = false
        /\ ValidationResult.warnings result = [])
  /\ ((1024 <= bits long)%R
      /\ PolicyValidator.validate (fun _ => EmptyString) (fun _ => EmptyString)
           PasswordPolicy.default long = Raise OverflowError).
Proof.
  intros password long. split; cycle 1.
  { assert (Hbits : (1024 <= bits long)%R)
      by (apply bits_beyond; vm_compute; discriminate).
    split; [exact Hbits |].
    exact (proj2 (proj2 (validate_valid_iff_no_errors (fun _ => EmptyString)
                           (fun _ => EmptyString) PasswordPolicy.default long)) Hbits). }
  assert (Hbits : (bits password < 1024)%R) by (apply bits_short; vm_compute; lia).
  split; [exact Hbits |].
  destruct (validate_valid_iff_no_errors (fun _ => EmptyString) (fun _ => EmptyString)
              PasswordPolicy.default password) as (Hanswer & Hreturns & _).
  destruct (Hreturns Hbits) as [result Hval].
  exists result. split; [exact Hval |].
  assert (Herr : ValidationResult.errors result <> []).
  { intros Hnil.
    pose proof (validate_short_password (fun _ => EmptyString) (fun _ => EmptyString)
                  PasswordPolicy.default password result
                  ltac:(vm_compute; reflexivity) Hval) as Hin.
    rewrite Hnil in Hin. inversion Hin. }
  split; [exact Herr |].
  destruct (Hanswer result Hval) as (analysis & _ & _ & _ & _ & Hinvalid & _).
  exact (Hinvalid Herr).
Defined.

(** * Further properties of the code *)

(** ** Character sets *)

Lemma chars_app (a b : string) : chars (a ++ b) = chars a ++ chars b.
Proof.
  unfold chars. induction a as [|c a IH]; [reflexivity |].
  change (c :: list_ascii_of_string (a ++ b) = c :: (list_ascii_of_string a ++ list_ascii_of_string b)).
  now rewrite IH.
Qed.

Lemma validate_options_true_iff (options : gmap string bool) :
  CharsetBuilder.validate_options options = true <->
  exists key, options !! key = Some true.
Proof.
  unfold CharsetBuilder.validate_options, any, dict_values. rewrite existsb_exists.
  split.
  - intros (b & Hin & ->).
    apply list_elem_of_In, list_elem_of_fmap in Hin as ([key v] & Hv & Hin).
    cbn in Hv. subst v. exists key. now apply elem_of_map_to_list.
  - intros [key Hkey]. exists true. split; [| reflexivity].
    apply list_elem_of_In, list_elem_of_fmap. exists (key, true).
    split; [reflexivity | now apply elem_of_map_to_list].
Qed.

(** X1. The character set that [build_charset] returns has no repeated
    character, its length is what [calculate_charset_size] computes, between
    10 and 94, and with no enabled category [build_charset] raises
    [ValueError]. *)
Theorem build_charset_size (options : gmap string bool) :
  (some_enabled options ->
     exists charset,
       CharsetBuilder.build_charset options = Ok charset
       /\ NoDup (chars charset)
       /\ Z.of_nat (String.length charset) = CharsetBuilder.calculate_charset_size options
       /\ 10 <= CharsetBuilder.calculate_charset_size options <= 94)
  /\ (~ some_enabled options ->
        CharsetBuilder.build_charset options =
          Raise (ValueError "At least one character set must be selected")
        /\ CharsetBuilder.calculate_charset_size options = 0).
Proof.
  unfold some_enabled, enabled, CharsetBuilder.build_charset,
    CharsetBuilder.calculate_charset_size.
  destruct (dict_get options "uppercase"), (dict_get options "lowercase"),
    (dict_get options "numbers"), (dict_get options "symbols");
    (split; [intros Hen | intros Hnone]);
    try (exfalso; apply Hnone; auto; fail);
    try (eexists; split; [vm_compute; reflexivity |];
         split; [apply (bool_decide_unpack _); vm_compute; reflexivity |];
         split; [reflexivity | cbn; lia]).
  - destruct Hen as [H | [H | [H | H]]]; discriminate H.
  - split; reflexivity.
Qed.

Lemma build_charset_size_witness :
  let options : gmap string bool := <["numbers" := true]> (<["symbols" := true]> ∅) in
  some_enabled options /\
  exists charset,
    CharsetBuilder.build_charset options = Ok charset
    /\ NoDup (chars charset)
    /\ Z.of_nat (String.length charset) = CharsetBuilder.calculate_charset_size options
    /\ 10 <= CharsetBuilder.calculate_charset_size options <= 94.
Proof.
  intros options.
  assert (H : some_enabled options) by (right; right; left; reflexivity).
  split; [exact H |]. exact (proj1 (build_charset_size options) H).
Defined.

(** X2. The sizes that [entropy_from_options] adds up, 26, 26, 10 and 32,
    are the lengths of the four character sets: the entropy it returns is
    [calculate_entropy] at the size [calculate_charset_size] computes. *)
Theorem entropy_from_options_charset_size (length : Z) (options : gmap string bool) :
  EntropyCalculator.entropy_from_options length options =
    EntropyCalculator.calculate_entropy length
      (CharsetBuilder.calculate_charset_size options)
  /\ PasswordGenerator.calculate_entropy length options =
       EntropyCalculator.calculate_entropy length
         (CharsetBuilder.calculate_charset_size options).
Proof.
  unfold PasswordGenerator.calculate_entropy, EntropyCalculator.entropy_from_options,
    CharsetBuilder.calculate_charset_size.
  destruct (dict_get options "uppercase"), (dict_get options "lowercase"),
    (dict_get options "numbers"), (dict_get options "symbols"); split; reflexivity.
Qed.

(** Every required set lies within the character set built from the same
    options. *)
Lemma required_within_charset (options : gmap string bool) (charset char_set : string) :
  CharsetBuilder.build_charset options = Ok charset ->
  char_set ∈ CharsetBuilder.get_required_chars options ->
  forall c, c ∈ chars char_set -> c ∈ chars charset.
Proof.
  unfold CharsetBuilder.build_charset, CharsetBuilder.get_required_chars.
  destruct (dict_get options "uppercase"), (dict_get options "lowercase"),
    (dict_get options "numbers"), (dict_get options "symbols");
    cbn [app]; intros Hcs Hin c Hc;
    try discriminate Hcs;
    (destruct (decide _) in Hcs; [discriminate Hcs |]);
    injection Hcs as <-;
    rewrite ?chars_app; cbn [String.append];
    repeat (apply elem_of_cons in Hin as [-> | Hin]);
    try (inversion Hin; fail);
    rewrite ?elem_of_app; auto 10.
Qed.

(** ** [generate], beyond the length and the diversity *)

(** A run of [generate] on valid arguments, by the characters of the
    password. *)
Lemma generate_run (length : Z) (options : gmap string bool) (st : state ascii) :
  valid_length length -> some_enabled options ->
  exists charset ys st',
    CharsetBuilder.build_charset options = Ok charset
    /\ PasswordGenerator.generate length options st = Ok (string_of_list_ascii ys, st')
    /\ List.length ys = Z.to_nat length
    /\ (forall char_set, char_set ∈ CharsetBuilder.get_required_chars options ->
          exists c, c ∈ ys /\ c ∈ chars char_set)
    /\ (forall c, c ∈ ys -> c ∈ chars charset).
Proof.
  intros Hlen Hen.
  destruct (generate_ok length options st Hlen Hen)
    as (charset & rcs & fcs & ys & st' & Hcs & Hrun & Hperm & Hrcs & Hlenf & Hfcs).
  exists charset, ys, st'.
  split; [assumption |]. split; [assumption |]. split; [| split].
  - rewrite (Permutation_length Hperm), length_app, Hlenf, (Forall2_length _ _ _ Hrcs).
    pose proof (get_required_chars_length options).
    unfold valid_length, MIN_PASSWORD_LENGTH in Hlen. lia.
  - intros char_set Hin. apply list_elem_of_lookup in Hin as [i Hi].
    destruct (Forall2_lookup_r _ _ _ _ _ Hrcs Hi) as (c & Hc & Hcin).
    exists c. split; [| assumption].
    rewrite Hperm. apply elem_of_app. left. apply list_elem_of_lookup. eauto.
  - intros c Hc. rewrite Hperm in Hc.
    apply elem_of_app in Hc as [Hc | Hc].
    + apply list_elem_of_lookup in Hc as [i Hi].
      destruct (Forall2_lookup_l _ _ _ _ _ Hrcs Hi) as (char_set & Hset & Hin).
      eapply required_within_charset; eauto.
      apply list_elem_of_lookup. eauto.
    + rewrite Forall_forall in Hfcs. now apply Hfcs.
Qed.

(** X3. Alphabet closure: on valid arguments, every character of the
    password that [generate] returns belongs to the character set that
    [build_charset] gives for the same options. *)
Theorem generate_alphabet_closure (length : Z) (options : gmap string bool)
  (st : state ascii) :
  valid_length length -> some_enabled options ->
  exists charset password st',
    CharsetBuilder.build_charset options = Ok charset
    /\ PasswordGenerator.generate length options st = Ok (password, st')
    /\ forall c, c ∈ chars password -> c ∈ chars charset.
Proof.
  intros Hlen Hen.
  destruct (generate_run length options st Hlen Hen)
    as (charset & ys & st' & Hcs & Hrun & _ & _ & Hclosed).
  exists charset, (string_of_list_ascii ys), st'.
  split; [assumption |]. split; [assumption |].
  intros c Hc. apply Hclosed. unfold chars in Hc.
  now rewrite list_ascii_of_string_of_list_ascii in Hc.
Qed.

Lemma generate_alphabet_closure_witness :
  let options : gmap string bool := <["numbers" := true]> ∅ in
  let st := State ∅ (fun k => (3 * k + 2)%nat) in
  exists charset password st',
    CharsetBuilder.build_charset options = Ok charset
    /\ PasswordGenerator.generate 5 options st = Ok (password, st')
    /\ forall c, c ∈ chars password -> c ∈ chars charset.
Proof.
  intros options st. apply (generate_alphabet_closure 5 options st).
  - unfold valid_length, MIN_PASSWORD_LENGTH, MAX_PASSWORD_LENGTH. lia.
  - right. right. left. reflexivity.
Defined.

(** X4. The checks of [generate] in their order: a length out of range
    raises [InvalidLengthError] whatever the options are; at a valid length,
    options without a true value raise [InvalidCharsetError]; and options
    with a true value under another key only, none of the four categories
    being enabled, pass that check and make [build_charset] raise
    [ValueError]. *)
Theorem generate_option_errors (length : Z) (options : gmap string bool)
  (st : state ascii) :
  (~ valid_length length ->
     PasswordGenerator.generate length options st =
       Raise (InvalidLengthError length MIN_PASSWORD_LENGTH MAX_PASSWORD_LENGTH))
  /\ (valid_length length -> (forall key, options !! key <> Some true) ->
        PasswordGenerator.generate length options st = Raise InvalidCharsetError)
  /\ (valid_length length -> (exists key, options !! key = Some true) ->
        ~ some_enabled options ->
        PasswordGenerator.generate length options st =
          Raise (ValueError "At least one character set must be selected")).
Proof.
  unfold valid_length, PasswordGenerator.generate, MIN_PASSWORD_LENGTH,
    MAX_PASSWORD_LENGTH.
  split; [| split].
  - intros Hbad.
    destruct (Z.ltb_spec length 4); [reflexivity |].
    destruct (Z.gtb_spec length 128); [reflexivity | lia].
  - intros Hlen Hnone.
    destruct (Z.ltb_spec length 4); [lia |].
    destruct (Z.gtb_spec length 128); [lia |]. cbn [orb].
    destruct (CharsetBuilder.validate_options options) eqn:Hv; [| reflexivity].
    apply validate_options_true_iff in Hv as [key Hkey]. now destruct (Hnone key).
  - intros Hlen Hsome Hnone.
    destruct (Z.ltb_spec length 4); [lia |].
    destruct (Z.gtb_spec length 128); [lia |]. cbn [orb].
    rewrite (proj2 (validate_options_true_iff options) Hsome). cbn [negb].
    now rewrite (proj1 (proj2 (build_charset_size options) Hnone)).
Qed.

Lemma generate_option_errors_witness :
  let st := State ∅ (fun k => k) in
  PasswordGenerator.generate 2 ∅ st = Raise (InvalidLengthError 2 4 128)
  /\ PasswordGenerator.generate 8 (<["uppercase" := false]> ∅) st =
       Raise InvalidCharsetError
  /\ PasswordGenerator.generate 8 (<["digits" := true]> ∅) st =
       Raise (ValueError "At least one character set must be selected").
Proof.
  intros st.
  assert (Hvalid : valid_length 8)
    by (unfold valid_length, MIN_PASSWORD_LENGTH, MAX_PASSWORD_LENGTH; lia).
  split; [| split].
  - apply (generate_option_errors 2 ∅ st).
    unfold valid_length, MIN_PASSWORD_LENGTH. lia.
  - apply (generate_option_errors 8 (<["uppercase" := false]> ∅) st); [exact Hvalid |].
    intros key Hkey. apply lookup_insert_Some in Hkey as [[_ H] | [_ H]];
      [discriminate H | now rewrite lookup_empty in H].
  - apply (generate_option_errors 8 (<["digits" := true]> ∅) st); [exact Hvalid | |].
    + exists "digits"%string. apply lookup_insert_eq.
    + unfold some_enabled, enabled. vm_compute. intros [H | [H | [H | H]]]; discriminate H.
Defined.

(** ** [generate_multiple] *)

Lemma generate_multiple_loop_ok (length : Z) (options : gmap string bool) (count : nat) :
  valid_length length -> some_enabled options ->
  forall st : state ascii,
  exists passwords st',
    PasswordGenerator.generate_multiple_loop count length options st =
      Ok (passwords, st')
    /\ List.length passwords = count
    /\ Forall (fun password =>
                 Z.of_nat (String.length password) = length
                 /\ forall char_set,
                      char_set ∈ CharsetBuilder.get_required_chars options ->
                      represented char_set password) passwords.
Proof.
  intros Hlen Hen. induction count as [|count IH]; intros st.
  - exists [], st. repeat split; constructor.
  - destruct (generate_ok length options st Hlen Hen)
      as (charset & rcs & fcs & ys & st1 & _ & Hrun & Hperm & Hrcs & Hfcs & _).
    destruct (IH st1) as (passwords & st' & Hloop & Hcount & Hall).
    exists (string_of_list_ascii ys :: passwords), st'.
    split; [| split].
    + cbn [PasswordGenerator.generate_multiple_loop].
      rewrite (bind_ok _ _ _ _ _ Hrun), (bind_ok _ _ _ _ _ Hloop). reflexivity.
    + cbn. now rewrite Hcount.
    + constructor; [| assumption]. split.
      * rewrite length_string_of_list_ascii, (Permutation_length Hperm), length_app,
          Hfcs, (Forall2_length _ _ _ Hrcs).
        pose proof (get_required_chars_length options).
        unfold valid_length, MIN_PASSWORD_LENGTH in Hlen. lia.
      * intros char_set Hin. eapply represented_of_required; eauto.
Qed.

(** X5. On a valid length and options with an enabled category,
    [generate_multiple] returns exactly [count] passwords (none when
    [count] is negative), each of the requested length and with every
    required character set represented. *)
Theorem generate_multiple_count (count length : Z) (options : gmap string bool)
  (st : state ascii) :
  valid_length length -> some_enabled options ->
  exists passwords st',
    PasswordGenerator.generate_multiple count length options st = Ok (passwords, st')
    /\ Z.of_nat (List.length passwords) = Z.max 0 count
    /\ Forall (fun password =>
                 Z.of_nat (String.length password) = length
                 /\ forall char_set,
                      char_set ∈ CharsetBuilder.get_required_chars options ->
                      represented char_set password) passwords.
Proof.
  intros Hlen Hen. unfold PasswordGenerator.generate_multiple.
  destruct (generate_multiple_loop_ok length options (Z.to_nat count) Hlen Hen st)
    as (passwords & st' & Hrun & Hcount & Hall).
  exists passwords, st'. split; [assumption |]. split; [lia | assumption].
Qed.

Lemma generate_multiple_count_witness :
  let options : gmap string bool := <["lowercase" := true]> (<["numbers" := true]> ∅) in
  let st := State ∅ (fun k => (11 * k + 4)%nat) in
  exists passwords st',
    PasswordGenerator.generate_multiple 3 6 options st = Ok (passwords, st')
    /\ Z.of_nat (List.length passwords) = Z.max 0 3
    /\ Forall (fun password =>
                 Z.of_nat (String.length password) = 6
                 /\ forall char_set,
                      char_set ∈ CharsetBuilder.get_required_chars options ->
                      represented char_set password) passwords.
Proof.
  intros options st. apply (generate_multiple_count 3 6 options st).
  - unfold valid_length, MIN_PASSWORD_LENGTH, MAX_PASSWORD_LENGTH. lia.
  - right. left. reflexivity.
Defined.

(** X6. [generate_multiple] validates nothing itself: with a count of zero
    or less it returns the empty list and draws nothing, even for a length
    and options that [generate] refuses; with a positive count the first
    call of [generate] raises, and the batch with it. *)
Theorem generate_multiple_edges (count length : Z) (options : gmap string bool)
  (st : state ascii) :
  (count <= 0 ->
     PasswordGenerator.generate_multiple count length options st = Ok ([], st))
  /\ (0 < count -> forall e,
        PasswordGenerator.generate length options st = Raise e ->
        PasswordGenerator.generate_multiple count length options st = Raise e).
Proof.
  unfold PasswordGenerator.generate_multiple. split.
  - intros Hcount. replace (Z.to_nat count) with 0%nat by lia. reflexivity.
  - intros Hcount e Hraise.
    destruct (Z.to_nat count) as [|k] eqn:Hk; [lia |].
    cbn [PasswordGenerator.generate_multiple_loop]. unfold bind. now rewrite Hraise.
Qed.

Lemma generate_multiple_edges_witness :
  let st : state ascii := State ∅ (fun k => k) in
  PasswordGenerator.generate_multiple 0 3 ∅ st = Ok ([], st)
  /\ PasswordGenerator.generate_multiple 2 3 ∅ st = Raise (InvalidLengthError 3 4 128).
Proof.
  intros st. split.
  - apply (generate_multiple_edges 0 3 ∅ st). lia.
  - apply (generate_multiple_edges 2 3 ∅ st); [lia | reflexivity].
Defined.

(** ** [secure_randint] and [secure_random_choice] *)

(** X7. [secure_randint] raises [ValueError] when the bounds are in the
    wrong order and else returns, from one draw, an integer between the two
    bounds, ends included; every integer of that range is returned for some
    draw. *)
Theorem secure_randint_range {T} (min_val max_val : Z) (st : state T) :
  (min_val > max_val ->
     secure_randint min_val max_val st =
       Raise (ValueError "min_val cannot be greater than max_val"))
  /\ (min_val <= max_val ->
        exists r,
          secure_randint min_val max_val st =
            Ok (r, State (heap st) (fun k => tape st (S k)))
          /\ min_val <= r <= max_val)
  /\ (min_val <= max_val -> forall v, min_val <= v <= max_val ->
        forall h tp,
          secure_randint min_val max_val
            (State h (next_draw (Z.to_nat (v - min_val)) tp))
          = Ok (v, State (T := T) h tp)).
Proof.
  unfold secure_randint. split; [| split].
  - intros H. destruct (Z.gtb_spec min_val max_val); [reflexivity | lia].
  - intros H. destruct (Z.gtb_spec min_val max_val); [lia |].
    set (n := Z.to_nat (max_val - min_val + 1)).
    assert (Hn : (0 < n)%nat) by (unfold n; lia).
    rewrite (bind_ok _ _ _ _ _ (randbelow_ok st n Hn)).
    eexists. split; [reflexivity |].
    pose proof (Nat.mod_upper_bound (tape st 0) n ltac:(lia)). unfold n in *. lia.
  - intros H v Hv h tp. destruct (Z.gtb_spec min_val max_val); [lia |].
    set (n := Z.to_nat (max_val - min_val + 1)).
    assert (Hn : (0 < n)%nat) by (unfold n; lia).
    erewrite bind_ok by (apply randbelow_ok; exact Hn).
    cbn [tape heap next_draw]. unfold ret.
    rewrite Nat.mod_small by (unfold n; lia).
    do 3 f_equal. lia.
Qed.

Lemma secure_randint_range_witness :
  let st : state nat := State ∅ (fun k => (k + 17)%nat) in
  1 <= 6 /\
  exists r,
    secure_randint 1 6 st = Ok (r, State (heap st) (fun k => tape st (S k)))
    /\ 1 <= r <= 6.
Proof.
  intros st. split; [lia |].
  apply (secure_randint_range 1 6 st). lia.
Defined.

(** X8. [secure_random_choice] raises [ValueError] on the empty sequence
    without drawing; on any other sequence it uses one draw and returns a
    character of the sequence, and the character at every position is
    returned for some draw. *)
Theorem secure_random_choice_member {T} (sequence : string) (st : state T) :
  (sequence = EmptyString ->
     secure_random_choice sequence st =
       Raise (ValueError "Cannot choose from empty sequence"))
  /\ (sequence <> EmptyString ->
        exists c,
          secure_random_choice sequence st =
            Ok (c, State (heap st) (fun k => tape st (S k)))
          /\ c ∈ chars sequence)
  /\ (forall (i : nat) c, String.get i sequence = Some c ->
        forall h tp,
          secure_random_choice sequence (State h (next_draw i tp))
          = Ok (c, State (T := T) h tp)).
Proof.
  split; [| split].
  - intros ->. reflexivity.
  - apply secure_random_choice_ok.
  - intros i c Hget h tp.
    assert (Hi : (i < String.length sequence)%nat).
    { clear -Hget. revert i Hget. induction sequence as [|a s IH]; intros i Hget;
        [discriminate |]. destruct i; cbn in *; [lia |]. apply IH in Hget. lia. }
    unfold secure_random_choice, secrets_choice.
    destruct (decide (sequence = EmptyString)) as [-> | _]; [cbn in Hi; lia |].
    erewrite bind_ok by (apply randbelow_ok; lia).
    cbn [tape heap next_draw]. rewrite Nat.mod_small by assumption. now rewrite Hget.
Qed.

Lemma secure_random_choice_member_witness :
  let st : state nat := State ∅ (fun k => (k + 40)%nat) in
  DIGITS <> EmptyString /\
  exists c,
    secure_random_choice DIGITS st = Ok (c, State (heap st) (fun k => tape st (S k)))
    /\ c ∈ chars DIGITS.
Proof.
  intros st. assert (H : DIGITS <> EmptyString) by discriminate.
  split; [exact H |].
  exact (proj1 (proj2 (secure_random_choice_member DIGITS st)) H).
Defined.

(** ** Every permutation is a result of [secure_shuffle] *)

Section ShuffleReach.
Context {T : Type}.
Implicit Types (xs ys : list T) (h : gmap loc (list T)).

Lemma swap_items_exchanged (st : state T) (l : loc) xs (i j : nat) (xi xj : T) :
  heap st !! l = Some xs -> xs !! i = Some xi -> xs !! j = Some xj ->
  swap_items l i j st =
    Ok (tt, State (<[l := exchanged xs i j xi xj]> (heap st)) (tape st)).
Proof.
  intros H Hxi Hxj.
  assert (Hi : (i < length xs)%nat) by (apply lookup_lt_is_Some; eauto).
  assert (Hj : (j < length xs)%nat) by (apply lookup_lt_is_Some; eauto).
  unfold swap_items.
  rewrite (bind_ok _ _ _ _ _ (list_getitem_ok _ _ _ _ _ H Hxj)).
  rewrite (bind_ok _ _ _ _ _ (list_getitem_ok _ _ _ _ _ H Hxi)).
  rewrite (bind_ok _ _ _ _ _ (list_setitem_ok _ _ _ _ xj H Hi)).
  erewrite list_setitem_ok.
  - cbn [heap tape]. rewrite insert_insert_eq. reflexivity.
  - cbn [heap]. apply lookup_insert_eq.
  - now rewrite length_insert.
Qed.

Lemma exchanged_take xs (i j : nat) (xi xj : T) (n : nat) :
  (i < n)%nat -> (j < n)%nat ->
  take n (exchanged xs i j xi xj) = exchanged (take n xs) i j xi xj
  /\ drop n (exchanged xs i j xi xj) = drop n xs.
Proof.
  intros Hi Hj. unfold exchanged. split.
  - now rewrite !take_insert_lt.
  - now rewrite !drop_insert_lt.
Qed.

Lemma shuffle_loop_reach (l : loc) (i : nat) : forall xs ys h (tp' : nat -> nat),
  h !! l = Some xs -> length xs = length ys -> (i < length xs)%nat ->
  take (S i) xs ≡ₚ take (S i) ys -> drop (S i) xs = drop (S i) ys ->
  exists tp,
    shuffle_loop l i (State h tp) = Ok (tt, State (<[l := ys]> h) tp').
Proof.
  induction i as [|i IH]; intros xs ys h tp' H Hlen Hi Hperm Hdrop.
  - exists tp'. cbn. unfold ret.
    destruct xs as [|x xs], ys as [|y ys]; cbn in *; try lia.
    rewrite !take_0 in Hperm. apply Permutation_singleton_inj in Hperm.
    rewrite !drop_0 in Hdrop. subst y ys.
    now rewrite (insert_id _ _ _ H).
  - destruct (lookup_lt_is_Some_2 ys (S i) ltac:(lia)) as [y Hy].
    destruct (lookup_lt_is_Some_2 xs (S i) Hi) as [xi Hxi].
    assert (Hin : y ∈ take (S (S i)) xs).
    { rewrite Hperm. apply list_elem_of_lookup. exists (S i).
      rewrite lookup_take_lt by lia. exact Hy. }
    apply list_elem_of_lookup in Hin as [j Hj].
    assert (Hjlt : (j < S (S i))%nat).
    { apply lookup_lt_Some in Hj. rewrite length_take in Hj. lia. }
    rewrite lookup_take_lt in Hj by assumption.
    set (xs' := exchanged xs (S i) j xi y).
    assert (Hlen' : length xs' = length xs)
      by (unfold xs', exchanged; now rewrite !length_insert).
    destruct (exchanged_take xs (S i) j xi y (S (S i)) ltac:(lia) Hjlt)
      as [Htake2 Hdrop2]. fold xs' in Htake2, Hdrop2.
    assert (Hlast : xs' !! S i = Some y).
    { unfold xs'. rewrite exchanged_lookup by assumption.
      unfold transpose. now rewrite decide_True by reflexivity. }
    destruct (IH xs' ys (<[l := xs']> h) tp') as [tp1 Hloop].
    + apply lookup_insert_eq.
    + congruence.
    + lia.
    + (* the prefix: cancel the last element of both sides *)
      assert (Hp : take (S (S i)) xs' ≡ₚ take (S (S i)) ys).
      { rewrite Htake2, <- Hperm. apply exchanged_Permutation.
        - rewrite lookup_take_lt by lia. exact Hxi.
        - rewrite lookup_take_lt by assumption. exact Hj. }
      rewrite (take_S_r xs' (S i) y Hlast), (take_S_r ys (S i) y Hy) in Hp.
      now apply Permutation_app_inv_r in Hp.
    + rewrite (drop_S xs' y (S i) Hlast), (drop_S ys y (S i) Hy).
      f_equal. now rewrite Hdrop2.
    + exists (next_draw j tp1).
      cbn [shuffle_loop].
      erewrite bind_ok by (apply randbelow_ok; lia).
      cbn [tape heap next_draw].
      rewrite Nat.mod_small by lia.
      erewrite bind_ok
        by (apply (swap_items_exchanged _ l xs (S i) j xi y); [exact H | exact Hxi | exact Hj]).
      cbn [heap tape]. fold xs'.
      rewrite insert_insert_eq in Hloop. exact Hloop.
Qed.

(** X9. Every ordering is within reach: for every list object and every
    permutation of its content, some draws make [secure_shuffle] return a
    new list with exactly that content, whatever tape is to be left. *)
Theorem secure_shuffle_reaches (h : gmap loc (list T)) (items : loc)
  (xs ys : list T) (tp' : nat -> nat) :
  h !! items = Some xs -> ys ≡ₚ xs ->
  exists tp,
    secure_shuffle items (State h tp) =
      Ok (fresh (dom h), State (<[fresh (dom h) := ys]> h) tp').
Proof.
  intros H Hperm. set (l := fresh (dom h)).
  pose proof (Permutation_length Hperm) as Hlen.
  destruct (decide (length xs = 0)%nat) as [Hnil | Hpos].
  - destruct xs; [| discriminate]. apply Permutation_nil_r in Hperm. subst ys.
    exists tp'. unfold secure_shuffle.
    rewrite (bind_ok _ _ _ _ _ (list_copy_ok (State h tp') items [] H)).
    cbn [heap tape]. fold l.
    erewrite bind_ok by (apply list_len_ok; cbn [heap]; apply lookup_insert_eq).
    reflexivity.
  - destruct (shuffle_loop_reach l (length xs - 1) xs ys (<[l := xs]> h) tp')
      as [tp Hloop].
    + apply lookup_insert_eq.
    + congruence.
    + lia.
    + replace (S (length xs - 1)) with (length xs) by lia.
      rewrite take_ge by lia. rewrite take_ge by lia. now symmetry.
    + replace (S (length xs - 1)) with (length xs) by lia.
      rewrite drop_ge by lia. now rewrite drop_ge by lia.
    + exists tp. unfold secure_shuffle.
      rewrite (bind_ok _ _ _ _ _ (list_copy_ok (State h tp) items xs H)).
      cbn [heap tape]. fold l.
      erewrite bind_ok by (apply list_len_ok; cbn [heap]; apply lookup_insert_eq).
      rewrite (bind_ok _ _ _ _ _ Hloop).
      unfold ret. now rewrite insert_insert_eq.
Qed.

End ShuffleReach.

Lemma secure_shuffle_reaches_witness :
  let h : gmap loc (list nat) := <[0%nat := [1; 2; 3]%nat]> ∅ in
  exists tp,
    secure_shuffle 0%nat (State h tp) =
      Ok (fresh (dom h), State (<[fresh (dom h) := [3; 1; 2]%nat]> h) (fun k => k)).
Proof.
  intros h.
  apply (secure_shuffle_reaches h 0%nat [1; 2; 3]%nat [3; 1; 2]%nat (fun k => k)).
  - reflexivity.
  - apply (bool_decide_unpack _). vm_compute. reflexivity.
Defined.

(** ** Entropy and combinations *)

(** X10. The formula of the docstring: for a positive length and a
    positive size the entropy is the binary logarithm of the number of
    combinations, [charset_size ** length]; when an argument is not positive
    both are zero. *)
Theorem calculate_entropy_combinations (length charset_size : Z) :
  (0 < length -> 0 < charset_size ->
     EntropyCalculator.calculate_combinations length charset_size
     = IZR (charset_size ^ length)
     /\ EntropyCalculator.calculate_entropy length charset_size
        = log2 (EntropyCalculator.calculate_combinations length charset_size))
  /\ (length <= 0 \/ charset_size <= 0 ->
        EntropyCalculator.calculate_combinations length charset_size = 0%R
        /\ EntropyCalculator.calculate_entropy length charset_size = 0%R).
Proof.
  unfold EntropyCalculator.calculate_combinations, EntropyCalculator.calculate_entropy.
  split.
  - intros Hl Hc.
    destruct (Z.leb_spec charset_size 0); [lia |].
    destruct (Z.leb_spec length 0); [lia |]. cbn [orb]. split; [reflexivity |].
    rewrite IZR_pow_pos, log2_pow by (try apply IZR_lt; lia).
    now rewrite INR_IZR_INZ, Z2Nat.id by lia.
  - intros H.
    destruct (Z.leb_spec charset_size 0); [split; reflexivity |].
    destruct (Z.leb_spec length 0); [split; reflexivity | lia].
Qed.

Lemma calculate_entropy_combinations_witness :
  0 < 8 /\ 0 < 62 /\
  EntropyCalculator.calculate_combinations 8 62 = IZR (62 ^ 8)
  /\ EntropyCalculator.calculate_entropy 8 62
     = log2 (EntropyCalculator.calculate_combinations 8 62).
Proof.
  split; [lia |]. split; [lia |].
  apply (calculate_entropy_combinations 8 62); lia.
Defined.

(** ** The contributions to the score *)

Lemma Zfloor_upper (x : R) (z : Z) : (x <= IZR z)%R -> Zfloor x <= z.
Proof. intros H. apply Zfloor_le in H. now rewrite ZfloorZ in H. Qed.

Lemma Zfloor_below (x : R) (z : Z) : (x < IZR z)%R -> Zfloor x < z.
Proof. intros H. apply lt_IZR. pose proof (Zfloor_bound x). lra. Qed.

(** X11. The ranges the docstrings give: for a report of a length, a
    diversity of [0, 1] and an entropy that is not negative, the length
    points are in [0, 30], the diversity points in [0, 25], the entropy
    points in [0, 30] and the pattern points in [-65, 15]; so the sum is at
    most 100 and the upper bound of the final clamp never acts, only the
    lower one does. *)
Theorem score_contribution_ranges (password : string) (analysis : Analysis.t) :
  (0 <= Analysis.diversity_score analysis <= 1)%R ->
  (0 <= Analysis.entropy analysis)%R ->
  let length_points := StrengthScorer._score_length (Z.of_nat (Analysis.length analysis)) in
  let diversity_points := StrengthScorer._score_diversity analysis in
  let entropy_points := StrengthScorer._score_entropy (Analysis.entropy analysis) in
  let pattern_points := StrengthScorer._score_patterns analysis in
  0 <= length_points <= 30
  /\ 0 <= diversity_points <= 25
  /\ 0 <= entropy_points <= 30
  /\ -65 <= pattern_points <= 15
  /\ StrengthScorer.calculate_score password analysis
     = Z.max 0 (length_points + diversity_points + entropy_points + pattern_points).
Proof.
  intros Hd He length_points diversity_points entropy_points pattern_points.
  assert (Hl : 0 <= length_points <= 30).
  { unfold length_points, StrengthScorer._score_length.
    repeat match goal with
           | |- context [?a >=? ?b] => destruct (Z.geb_spec a b)
           end; lia. }
  assert (Hdp : 0 <= diversity_points <= 25).
  { unfold diversity_points, StrengthScorer._score_diversity.
    rewrite int_of_float_nonneg by lra. split.
    - apply (Zfloor_lub 0). lra.
    - apply Zfloor_upper. lra. }
  assert (Hep : 0 <= entropy_points <= 30).
  { unfold entropy_points, StrengthScorer._score_entropy.
    repeat match goal with
           | |- context [Rge_dec ?a ?b] => destruct (Rge_dec a b); try lia
           end.
    rewrite int_of_float_nonneg by lra. split.
    - apply (Zfloor_lub 0). lra.
    - assert (Zfloor (Analysis.entropy analysis / 2) <= 20); [| lia].
      apply Zfloor_upper. lra. }
  assert (Hpp : -65 <= pattern_points <= 15).
  { unfold pattern_points, StrengthScorer._score_patterns.
    destruct (Analysis.has_common_patterns analysis), (Analysis.has_sequential analysis),
      (Analysis.has_keyboard_patterns analysis), (Analysis.has_repeated_chars analysis),
      (Analysis.has_date_pattern analysis); cbn; lia. }
  repeat split; try lia.
  unfold StrengthScorer.calculate_score.
  fold length_points diversity_points entropy_points pattern_points. lia.
Qed.

Lemma score_contribution_ranges_witness :
  let analysis :=
    {| Analysis.length := 3; Analysis.has_uppercase := false;
       Analysis.has_lowercase := true; Analysis.has_numbers := false;
       Analysis.has_symbols := false; Analysis.has_common_patterns := true;
       Analysis.has_sequential := true; Analysis.has_keyboard_patterns := true;
       Analysis.has_repeated_chars := true; Analysis.has_date_pattern := true;
       Analysis.has_number_only_suffix := false;
       Analysis.diversity_score := (1 / 4)%R; Analysis.entropy := 14%R;
       Analysis.score := 0; Analysis.strength := EmptyString;
       Analysis.crack_time := EmptyString; Analysis.security_level := EmptyString;
       Analysis.recommendations := []; Analysis.detected_patterns := [] |} in
  (0 <= Analysis.diversity_score analysis <= 1)%R
  /\ (0 <= Analysis.entropy analysis)%R
  /\ -65 <= StrengthScorer._score_patterns analysis <= 15
  /\ StrengthScorer.calculate_score "abc" analysis
     = Z.max 0 (StrengthScorer._score_length (Z.of_nat (Analysis.length analysis))
                + StrengthScorer._score_diversity analysis
                + StrengthScorer._score_entropy (Analysis.entropy analysis)
                + StrengthScorer._score_patterns analysis).
Proof.
  intros analysis.
  assert (Hd : (0 <= Analysis.diversity_score analysis <= 1)%R) by (cbn; lra).
  assert (He : (0 <= Analysis.entropy analysis)%R) by (cbn; lra).
  split; [exact Hd |]. split; [exact He |].
  destruct (score_contribution_ranges "abc" analysis Hd He) as (_ & _ & _ & Hp & Hs).
  split; [exact Hp | exact Hs].
Defined.

(** X12. A longer password never earns fewer length points. *)
Theorem score_length_monotone (l1 l2 : Z) :
  l1 <= l2 -> StrengthScorer._score_length l1 <= StrengthScorer._score_length l2.
Proof.
  intros H. unfold StrengthScorer._score_length.
  repeat match goal with
         | |- context [?a >=? ?b] => destruct (Z.geb_spec a b)
         end; lia.
Qed.

Lemma score_length_monotone_witness :
  7 <= 8 /\ StrengthScorer._score_length 7 <= StrengthScorer._score_length 8.
Proof. split; [lia | apply (score_length_monotone 7 8); lia]. Defined.

Lemma score_entropy_low (entropy : R) :
  (0 <= entropy < 40)%R ->
  StrengthScorer._score_entropy entropy = Zfloor (entropy / 2).
Proof.
  intros H. unfold StrengthScorer._score_entropy.
  repeat match goal with
         | |- context [Rge_dec ?a ?b] => destruct (Rge_dec a b); try lra
         end.
  apply int_of_float_nonneg. lra.
Qed.

(** X13. The entropy points dip at 40 bits: from 38 bits up to 40 the
    halved entropy earns 19 points, and from 40 bits up to 60 the table
    gives 18. Apart from that step down, more entropy never earns fewer
    points. *)
Theorem score_entropy_dip (e1 e2 : R) :
  ((38 <= e1 < 40)%R -> (40 <= e2 < 60)%R ->
     StrengthScorer._score_entropy e1 = 19 /\ StrengthScorer._score_entropy e2 = 18)
  /\ ((0 <= e1 <= e2)%R -> ~ ((38 <= e1 < 40)%R /\ (40 <= e2 < 60)%R) ->
        StrengthScorer._score_entropy e1 <= StrengthScorer._score_entropy e2).
Proof.
  split.
  - intros H1 H2. split.
    + rewrite score_entropy_low by lra. apply Zfloor_eq. lra.
    + unfold StrengthScorer._score_entropy.
      repeat match goal with
             | |- context [Rge_dec ?a ?b] => destruct (Rge_dec a b); try lra
             end. reflexivity.
  - intros H Hdip.
    destruct (Rlt_dec e2 40) as [H2 | H2].
    + rewrite !score_entropy_low by lra. apply Zfloor_le. lra.
    + destruct (Rlt_dec e1 40) as [H1 | H1].
      * rewrite (score_entropy_low e1) by lra.
        assert (Hlow : Zfloor (e1 / 2) < 20) by (apply Zfloor_below; lra).
        assert (Hlow' : (e1 < 38)%R -> Zfloor (e1 / 2) <= 18).
        { intros H38. assert (Zfloor (e1 / 2) < 19); [| lia].
          apply Zfloor_below. lra. }
        unfold StrengthScorer._score_entropy.
        repeat match goal with
               | |- context [Rge_dec ?a ?b] => destruct (Rge_dec a b); try lra
               end; try lia.
        apply Hlow'. destruct (Rlt_dec e1 38); [assumption |].
        exfalso. apply Hdip. lra.
      * unfold StrengthScorer._score_entropy.
        repeat match goal with
               | |- context [Rge_dec ?a ?b] => destruct (Rge_dec a b); try lra
               end; lia.
Qed.

Lemma score_entropy_dip_witness :
  (38 <= 39 < 40)%R /\ (40 <= 40 < 60)%R
  /\ StrengthScorer._score_entropy 39 = 19 /\ StrengthScorer._score_entropy 40 = 18.
Proof.
  assert (H1 : (38 <= 39 < 40)%R) by lra.
  assert (H2 : (40 <= 40 < 60)%R) by lra.
  split; [exact H1 |]. split; [exact H2 |].
  exact (proj1 (score_entropy_dip 39 40) H1 H2).
Defined.

(** ** Crack times *)











(** X16. At the configured rate of a billion guesses a second, an entropy
    of 20 bits or less is cracked in an instant and is very weak, and an
    entropy of 66 bits or more, under 1024 bits, takes millennia and is
    very strong; from 1024 bits on both functions raise [OverflowError]. *)
Theorem crack_time_extremes (entropy : R) :
  ((entropy <= 20)%R ->
     CrackTimeEstimator.estimate_from_entropy BRUTE_FORCE_RATE entropy
     = Ok "Instant"%string
     /\ CrackTimeEstimator.get_security_level BRUTE_FORCE_RATE entropy
        = Ok "Very Weak - Crackable instantly"%string)
  /\ ((66 <= entropy < 1024)%R ->
        CrackTimeEstimator.estimate_from_entropy BRUTE_FORCE_RATE entropy
        = Ok "Millennia+"%string
        /\ CrackTimeEstimator.get_security_level BRUTE_FORCE_RATE entropy
           = Ok "Very Strong - Crackable in centuries+"%string)
  /\ ((1024 <= entropy)%R ->
        CrackTimeEstimator.estimate_from_entropy BRUTE_FORCE_RATE entropy
        = Raise OverflowError
        /\ CrackTimeEstimator.get_security_level BRUTE_FORCE_RATE entropy
           = Raise OverflowError).
Proof.
  destruct brute_force_rate_fits as [Hz Hrate].
  assert (Hlow : forall e, (0 < e <= 20)%R ->
            (Rpower 2 e / (2 * IZR BRUTE_FORCE_RATE) < 1 / 1000)%R).
  { intros e He.
    assert (H20 : INR 20 = 20%R) by (rewrite INR_IZR_INZ; reflexivity).
    assert (Rpower 2 e <= Rpower 2 (INR 20))%R
      by (apply Rle_Rpower; [lra | rewrite H20; lra]).
    rewrite Rpower_2_INR in H. unfold BRUTE_FORCE_RATE.
    change (IZR (2 ^ Z.of_nat 20)) with 1048576%R in H. lra. }
  assert (Hhigh : forall e, (66 <= e)%R ->
            (31536000000 <= Rpower 2 e / (2 * IZR BRUTE_FORCE_RATE))%R).
  { intros e He.
    assert (H66 : INR 66 = 66%R) by (rewrite INR_IZR_INZ; reflexivity).
    assert (Rpower 2 (INR 66) <= Rpower 2 e)%R
      by (apply Rle_Rpower; [lra | rewrite H66; lra]).
    rewrite Rpower_2_INR in H. unfold BRUTE_FORCE_RATE.
    change (IZR (2 ^ Z.of_nat 66)) with 73786976294838206464%R in H. lra. }
  split; [| split]; intros He.
  - assert (Hest : CrackTimeEstimator.estimate_from_entropy BRUTE_FORCE_RATE entropy
                   = Ok "Instant"%string).
    { destruct (Rle_dec entropy 0); [now apply estimate_from_entropy_instant |].
      rewrite estimate_from_entropy_ok by (assumption || lra). f_equal.
      apply (proj1 (format_time_bands _)). apply Hlow. lra. }
    split; [exact Hest |].
    unfold CrackTimeEstimator.get_security_level. now rewrite Hest.
  - assert (Hest : CrackTimeEstimator.estimate_from_entropy BRUTE_FORCE_RATE entropy
                   = Ok "Millennia+"%string).
    { rewrite estimate_from_entropy_ok by (assumption || lra). f_equal.
      destruct (format_time_bands (Rpower 2 entropy / (2 * IZR BRUTE_FORCE_RATE)))
        as (_ & _ & _ & _ & _ & _ & _ & _ & _ & Hmill).
      apply Hmill. apply Hhigh. lra. }
    split; [exact Hest |].
    unfold CrackTimeEstimator.get_security_level. now rewrite Hest.
  - pose proof (estimate_from_entropy_overflow BRUTE_FORCE_RATE entropy He) as Hest.
    split; [exact Hest | now apply get_security_level_raises].
Qed.

Lemma crack_time_extremes_witness :
  (66 <= 128 < 1024)%R
  /\ CrackTimeEstimator.estimate_from_entropy BRUTE_FORCE_RATE 128
     = Ok "Millennia+"%string
  /\ CrackTimeEstimator.get_security_level BRUTE_FORCE_RATE 128
     = Ok "Very Strong - Crackable in centuries+"%string.
Proof.
  assert (H : (66 <= 128 < 1024)%R) by lra.
  split; [exact H |]. exact (proj1 (proj2 (crack_time_extremes 128)) H).
Defined.


(** ** Substrings and searches *)

Lemma string_app_cons (x : ascii) (a b : string) :
  (String x a ++ b)%string = String x (a ++ b).
Proof. reflexivity. Qed.

Lemma string_app_nil_l (a : string) : ("" ++ a)%string = a.
Proof. reflexivity. Qed.

Lemma string_app_assoc (a b c : string) : ((a ++ b) ++ c = a ++ (b ++ c))%string.
Proof.
  induction a as [|x a IH]; [reflexivity |]. now rewrite !string_app_cons, IH.
Qed.

Lemma prefix_spec (pattern s : string) :
  String.prefix pattern s = true <-> exists post, s = (pattern ++ post)%string.
Proof.
  revert s. induction pattern as [|a pattern IH]; intros s.
  - split; [intros _; now exists s | intros _; now destruct s].
  - destruct s as [|b s]; cbn [String.prefix].
    + split; [intros H; discriminate H | intros [post H]; discriminate H].
    + destruct (Ascii.ascii_dec a b) as [-> | Hne].
      * rewrite IH. split; intros [post H]; exists post.
        -- now rewrite string_app_cons, H.
        -- rewrite string_app_cons in H. now injection H.
      * split; [intros H; discriminate H |].
        intros [post H]. rewrite string_app_cons in H. injection H as H _.
        now symmetry in H.
Qed.

(** [pattern in s]: the pattern lies between a start and an end of [s]. *)
Lemma str_in_spec (pattern s : string) :
  str_in pattern s = true <->
  exists pre post, s = (pre ++ pattern ++ post)%string.
Proof.
  induction s as [|b s IH]; cbn [str_in].
  - rewrite orb_false_r, prefix_spec. split.
    + intros [post H]. now exists EmptyString, post.
    + intros (pre & post & H). destruct pre as [|c pre]; [now exists post |].
      rewrite string_app_cons in H. discriminate H.
  - rewrite orb_true_iff, prefix_spec, IH. split.
    + intros [[post H] | (pre & post & H)].
      * now exists EmptyString, post.
      * exists (String b pre), post. now rewrite string_app_cons, H.
    + intros (pre & post & H). destruct pre as [|c pre].
      * left. now exists post.
      * right. exists pre, post. rewrite string_app_cons in H. now injection H.
Qed.

Lemma str_in_extend (pattern pre s post : string) :
  str_in pattern s = true -> str_in pattern (pre ++ s ++ post) = true.
Proof.
  rewrite !str_in_spec. intros (pre' & post' & ->).
  exists (pre ++ pre')%string, (post' ++ post)%string.
  now rewrite !string_app_assoc.
Qed.

Lemma string_of_list_ascii_app (x y : list ascii) :
  string_of_list_ascii (x ++ y)
  = (string_of_list_ascii x ++ string_of_list_ascii y)%string.
Proof.
  induction x as [|a x IH]; [reflexivity |].
  cbn [app string_of_list_ascii]. now rewrite string_app_cons, IH.
Qed.

Lemma lower_app (a b : string) : lower (a ++ b) = (lower a ++ lower b)%string.
Proof. unfold lower. now rewrite chars_app, map_app, string_of_list_ascii_app. Qed.

(** [re.search]: the matcher succeeds at the start of some end of [s]. *)
Lemma re_search_spec (match_here : string -> bool) (s : string) :
  re_search match_here s = true <->
  exists pre rest, s = (pre ++ rest)%string /\ match_here rest = true.
Proof.
  induction s as [|b s IH]; cbn [re_search].
  - rewrite orb_false_r. split.
    + intros H. now exists EmptyString, EmptyString.
    + intros (pre & rest & H & Hm).
      destruct pre as [|c pre]; [| rewrite string_app_cons in H; discriminate H].
      rewrite string_app_nil_l in H. now subst rest.
  - rewrite orb_true_iff, IH. split.
    + intros [H | (pre & rest & -> & Hm)].
      * now exists EmptyString, (String b s).
      * now exists (String b pre), rest.
    + intros (pre & rest & H & Hm). destruct pre as [|c pre].
      * left. rewrite string_app_nil_l in H. now subst rest.
      * right. rewrite string_app_cons in H. injection H as _ ->. now exists pre, rest.
Qed.

Lemma re_search_extend (match_here : string -> bool) (pre s post : string) :
  (forall rest, match_here rest = true -> match_here (rest ++ post)%string = true) ->
  re_search match_here s = true ->
  re_search match_here (pre ++ s ++ post) = true.
Proof.
  intros Hmono. rewrite !re_search_spec. intros (pre' & rest & -> & Hm).
  exists (pre ++ pre')%string, (rest ++ post)%string.
  split; [now rewrite !string_app_assoc | now apply Hmono].
Qed.

Lemma copies_here_extend (c : ascii) (k : nat) (post : string) : forall rest,
  copies_here c k rest = true -> copies_here c k (rest ++ post) = true.
Proof.
  induction k as [|k IH]; intros rest; [reflexivity |].
  destruct rest as [|d rest]; [discriminate |].
  rewrite string_app_cons. cbn [copies_here].
  rewrite !andb_true_iff. intros [Hd Hrest]. auto.
Qed.

Lemma eat_digits_extend (n : nat) (post : string) : forall s rest,
  eat_digits n s = Some rest -> eat_digits n (s ++ post) = Some (rest ++ post)%string.
Proof.
  induction n as [|n IH]; intros s rest; cbn [eat_digits].
  - now intros [= ->].
  - destruct s as [|c s]; [discriminate |].
    rewrite string_app_cons. cbn [eat_digits].
    destruct (re_digit c); [apply IH | discriminate].
Qed.

Lemma eat_separator_extend (post s rest : string) :
  eat_separator s = Some rest ->
  eat_separator (s ++ post) = Some (rest ++ post)%string.
Proof.
  destruct s as [|c s]; [discriminate |].
  rewrite string_app_cons. cbn [eat_separator].
  destruct (Ascii.eqb c "/" || Ascii.eqb c "-"); [now intros [= ->] | discriminate].
Qed.

Lemma digits_between_extend (counts : list nat) (k : string -> bool) (post : string) :
  (forall rest, k rest = true -> k (rest ++ post)%string = true) ->
  forall s, digits_between counts k s = true ->
            digits_between counts k (s ++ post) = true.
Proof.
  intros Hk s. unfold digits_between. rewrite !existsb_exists.
  intros (n & Hin & Hn). exists n. split; [assumption |].
  destruct (eat_digits n s) as [rest |] eqn:He; [| discriminate].
  rewrite (eat_digits_extend n post s rest He). now apply Hk.
Qed.

Lemma date_here_extend (post rest : string) :
  date_here rest = true -> date_here (rest ++ post) = true.
Proof.
  unfold date_here. apply digits_between_extend. intros s1.
  destruct (eat_separator s1) as [s2 |] eqn:H1; [| discriminate].
  rewrite (eat_separator_extend post s1 s2 H1).
  apply digits_between_extend. intros s3.
  destruct (eat_separator s3) as [s4 |] eqn:H3; [| discriminate].
  rewrite (eat_separator_extend post s3 s4 H3).
  apply digits_between_extend. reflexivity.
Qed.

Lemma any_str_in_extend (patterns : list string) (pre s post : string) :
  any (map (fun pattern => str_in pattern s) patterns) = true ->
  any (map (fun pattern => str_in pattern (pre ++ s ++ post)) patterns) = true.
Proof.
  unfold any. rewrite !existsb_exists.
  intros (b & Hin & ->). apply in_map_iff in Hin as (pattern & Hp & Hin).
  exists true. split; [| reflexivity].
  apply in_map_iff. exists pattern. split; [| assumption].
  now apply str_in_extend.
Qed.

(** ** The pattern detector *)

(** X17. Putting characters before or after a password removes none of
    the five patterns that are searched anywhere in the text: a common
    pattern, a sequential run, a keyboard pattern, a repeated character and
    a date pattern found in a password are found in every text that
    contains it. *)
Theorem patterns_persist (pre password post : string) :
  let longer := (pre ++ password ++ post)%string in
  (PatternDetector.has_common_patterns password = true ->
     PatternDetector.has_common_patterns longer = true)
  /\ (PatternDetector.has_sequential_patterns password = true ->
        PatternDetector.has_sequential_patterns longer = true)
  /\ (PatternDetector.has_keyboard_patterns password = true ->
        PatternDetector.has_keyboard_patterns longer = true)
  /\ (forall min_repeat,
        PatternDetector.has_repeated_characters password min_repeat = Ok true ->
        PatternDetector.has_repeated_characters longer min_repeat = Ok true)
  /\ (PatternDetector.has_date_pattern password = true ->
        PatternDetector.has_date_pattern longer = true).
Proof.
  intros longer. subst longer.
  unfold PatternDetector.has_common_patterns, PatternDetector.has_keyboard_patterns,
    PatternDetector.has_sequential_patterns, PatternDetector.has_repeated_characters,
    PatternDetector.has_date_pattern.
  rewrite !lower_app.
  split; [apply any_str_in_extend |].
  split; [| split; [apply any_str_in_extend | split]].
  - generalize SEQUENTIAL_PATTERNS. intros patterns.
    induction patterns as [|pattern patterns IH];
      cbn [PatternDetector.has_sequential_loop]; [discriminate |].
    destruct (str_in pattern (lower password)) eqn:H1.
    + intros _. now rewrite (str_in_extend _ (lower pre) _ (lower post) H1).
    + destruct (str_in (reversed pattern) (lower password)) eqn:H2.
      * intros _. rewrite (str_in_extend _ (lower pre) _ (lower post) H2).
        now rewrite orb_true_r.
      * cbn [orb]. intros H.
        destruct (_ || _); [reflexivity | now apply IH].
  - intros min_repeat. destruct (MAXREPEAT <=? min_repeat - 1); [discriminate |].
    assert (Hok : forall b c : bool, (b = true -> c = true) -> Ok b = Ok true -> Ok c = Ok true)
      by (intros b c H [= ->]; now rewrite H).
    destruct (0 <=? min_repeat - 1); apply Hok.
    + apply re_search_extend. intros rest.
      destruct rest as [|c rest]; [discriminate |].
      rewrite string_app_cons. cbn [repeated_here].
      rewrite !andb_true_iff. intros [Hc Hk]. split; [assumption |].
      now apply copies_here_extend.
    + cbv zeta. apply re_search_extend. intros rest.
      destruct rest as [|c [|d rest]]; try discriminate.
      rewrite !string_app_cons. cbn [doubled_here].
      rewrite !andb_true_iff. intros [Hcd Hbraces]. split; [assumption |].
      apply prefix_spec in Hbraces as [tail ->].
      apply prefix_spec. exists (tail ++ post)%string.
      now rewrite string_app_assoc.
  - apply re_search_extend. intros rest. apply date_here_extend.
Qed.

Lemma patterns_persist_witness :
  PatternDetector.has_common_patterns "admin" = true
  /\ PatternDetector.has_common_patterns ("X9!" ++ "admin" ++ "#7") = true.
Proof.
  assert (H : PatternDetector.has_common_patterns "admin" = true)
    by (vm_compute; reflexivity).
  split; [exact H |].
  exact (proj1 (patterns_persist "X9!" "admin" "#7") H).
Defined.

(** X18. What the three dictionaries find: a password has a common, a
    keyboard or a sequential pattern exactly when its lower-cased text
    contains a word of the list, or for the sequential list a word or its
    reverse, between some start and some end. *)
Theorem dictionary_patterns_meaning (password : string) :
  (PatternDetector.has_common_patterns password = true <->
     exists word pre post,
       In word COMMON_PATTERNS /\ lower password = (pre ++ word ++ post)%string)
  /\ (PatternDetector.has_keyboard_patterns password = true <->
        exists word pre post,
          In word KEYBOARD_PATTERNS /\ lower password = (pre ++ word ++ post)%string)
  /\ (PatternDetector.has_sequential_patterns password = true <->
        exists word pre post,
          In word SEQUENTIAL_PATTERNS
          /\ (lower password = (pre ++ word ++ post)%string
              \/ lower password = (pre ++ reversed word ++ post)%string)).
Proof.
  assert (Hany : forall patterns s,
            any (map (fun pattern => str_in pattern s) patterns) = true <->
            exists word pre post, In word patterns /\ s = (pre ++ word ++ post)%string).
  { intros patterns s. unfold any. rewrite existsb_exists. split.
    - intros (b & Hin & ->). apply in_map_iff in Hin as (word & Hw & Hin).
      apply str_in_spec in Hw as (pre & post & Hw). now exists word, pre, post.
    - intros (word & pre & post & Hin & Hs). exists true. split; [| reflexivity].
      apply in_map_iff. exists word. split; [| assumption].
      apply str_in_spec. now exists pre, post. }
  split; [apply Hany |]. split; [apply Hany |].
  unfold PatternDetector.has_sequential_patterns.
  generalize SEQUENTIAL_PATTERNS. intros patterns.
  induction patterns as [|pattern patterns IH]; cbn [PatternDetector.has_sequential_loop].
  - split; [discriminate | intros (? & ? & ? & [] & _)].
  - destruct (str_in pattern (lower password)) eqn:H1;
      [| destruct (str_in (reversed pattern) (lower password)) eqn:H2]; cbn [orb].
    + split; [intros _ | reflexivity].
      apply str_in_spec in H1 as (pre & post & H1).
      exists pattern, pre, post. split; [now left | now left].
    + split; [intros _ | reflexivity].
      apply str_in_spec in H2 as (pre & post & H2).
      exists pattern, pre, post. split; [now left | now right].
    + rewrite IH. split.
      * intros (word & pre & post & Hin & Hs). exists word, pre, post.
        split; [now right | assumption].
      * intros (word & pre & post & [<- | Hin] & Hs).
        -- exfalso. destruct Hs as [Hs | Hs].
           ++ assert (str_in pattern (lower password) = true)
                by (apply str_in_spec; now exists pre, post). congruence.
           ++ assert (str_in (reversed pattern) (lower password) = true)
                by (apply str_in_spec; now exists pre, post). congruence.
        -- now exists word, pre, post.
Qed.

(** X19. A password has repeated characters exactly when some character
    other than the newline stands three times in a row in it. *)
Theorem repeated_characters_meaning (password : string) :
  PatternDetector.has_repeated_characters password 3 = Ok true <->
  exists pre c post,
    c <> newline
    /\ password = (pre ++ String c (String c (String c post)))%string.
Proof.
  change (PatternDetector.has_repeated_characters password 3)
    with (@Ok bool (re_search (repeated_here 2) password)).
  assert (Hok : forall b : bool, Ok b = Ok true <-> b = true)
    by (intros b; split; [now intros [= ->] | now intros ->]).
  rewrite Hok, re_search_spec. split.
  - intros (pre & rest & -> & Hm). destruct rest as [|c rest]; [discriminate |].
    cbn in Hm. apply andb_prop in Hm as [Hc Hm].
    destruct rest as [|d rest]; [discriminate |].
    apply andb_prop in Hm as [Hd Hm].
    destruct rest as [|e rest]; [discriminate |].
    apply andb_prop in Hm as [He _].
    apply Ascii.eqb_eq in Hd, He. subst d e.
    exists pre, c, rest. split; [| reflexivity].
    intros ->. now rewrite Ascii.eqb_refl in Hc.
  - intros (pre & c & post & Hc & ->).
    exists pre, (String c (String c (String c post))). split; [reflexivity |].
    cbn. rewrite !Ascii.eqb_refl.
    destruct (Ascii.eqb_spec c newline); [contradiction | reflexivity].
Qed.

Lemma digits_to_end_false (tail : string) :
  (forall s, at_end (s ++ tail) = false) -> digits_to_end tail = false ->
  forall s, digits_to_end (s ++ tail) = false.
Proof.
  intros Hend Htail s. induction s as [|a s IH]; [exact Htail |].
  rewrite string_app_cons. cbn [digits_to_end]. now rewrite Hend, IH, andb_false_r.
Qed.

Lemma number_suffix_false (tail : string) :
  (forall s, at_end (s ++ tail) = false) -> re_search digits_to_end tail = false ->
  forall s, re_search digits_to_end (s ++ tail) = false.
Proof.
  intros Hend Htail s. induction s as [|a s IH]; [exact Htail |].
  rewrite string_app_cons. cbn [re_search].
  rewrite IH, orb_false_r. rewrite <- string_app_cons.
  apply (digits_to_end_false tail Hend).
  destruct tail; [reflexivity |].
  cbn [re_search] in Htail. now apply orb_false_elim in Htail as [? _].
Qed.

Lemma at_end_long (s : string) (c d : ascii) : at_end (s ++ String c (String d "")) = false.
Proof. destruct s as [|a [|b [|b' s]]]; reflexivity. Qed.

Lemma at_end_last (s : string) (c : ascii) :
  c <> newline -> at_end (s ++ String c "") = false.
Proof.
  intros Hc. destruct s as [|a [|b s]]; try reflexivity.
  rewrite string_app_nil_l. cbn [at_end].
  now destruct (Ascii.eqb_spec c newline).
Qed.

(** X20. The numeric suffix is decided by the end of the text: a last
    character that is a digit gives true; a last character that is neither
    a digit nor a newline gives false; and a final newline is looked
    through once, so that the text has the suffix exactly when the character
    before that newline is a digit. The empty text and the lone newline give
    false. *)
Theorem number_suffix_by_last (s : string) (c : ascii) :
  (re_digit c = true ->
     PatternDetector.has_number_suffix (s ++ String c "") = true
     /\ PatternDetector.has_number_suffix (s ++ String c (String newline "")) = true)
  /\ (re_digit c = false -> c <> newline ->
        PatternDetector.has_number_suffix (s ++ String c "") = false)
  /\ (re_digit c = false ->
        PatternDetector.has_number_suffix (s ++ String c (String newline "")) = false)
  /\ PatternDetector.has_number_suffix "" = false
  /\ PatternDetector.has_number_suffix (String newline "") = false.
Proof.
  unfold PatternDetector.has_number_suffix.
  split; [| split; [| split; [| split; reflexivity]]].
  - intros Hc. split; apply re_search_spec.
    + exists s, (String c ""). split; [reflexivity |]. cbn. now rewrite Hc.
    + exists s, (String c (String newline "")). split; [reflexivity |].
      cbn. now rewrite Hc.
  - intros Hc Hnl. apply number_suffix_false.
    + intros s'. now apply at_end_last.
    + cbn. now rewrite Hc.
  - intros Hc. apply number_suffix_false.
    + intros s'. apply at_end_long.
    + cbn. now rewrite Hc.
Qed.

Lemma number_suffix_by_last_witness :
  re_digit "7" = true
  /\ PatternDetector.has_number_suffix ("secret" ++ String "7" "") = true
  /\ PatternDetector.has_number_suffix ("secret" ++ String "7" (String newline "")) = true.
Proof.
  assert (H : re_digit "7" = true) by reflexivity.
  split; [exact H |]. exact (proj1 (number_suffix_by_last "secret" "7") H).
Defined.

(** ** From the generator to the analyzer *)

(** The class of the characters of the four sets. *)
Lemma constants_classes :
  forallb re_upper (chars UPPERCASE) = true
  /\ forallb re_lower (chars LOWERCASE) = true
  /\ forallb re_digit (chars DIGITS) = true
  /\ forallb re_symbol (chars SYMBOLS) = true.
Proof. repeat split; vm_compute; reflexivity. Qed.

(** A character of the built set has a class that the options enable, and
    on it the Unicode tables are the ranges of the four classes. *)
Lemma charset_classes (options : gmap string bool) (charset : string) :
  CharsetBuilder.build_charset options = Ok charset ->
  forall c, c ∈ chars charset ->
    (re_upper c = true -> dict_get options "uppercase" = true)
    /\ (re_lower c = true -> dict_get options "lowercase" = true)
    /\ (re_digit c = true -> dict_get options "numbers" = true)
    /\ (re_symbol c = true -> dict_get options "symbols" = true)
    /\ isupper c = re_upper c /\ islower c = re_lower c /\ isdigit c = re_digit c
    /\ isalnum c = negb (re_symbol c).
Proof.
  unfold CharsetBuilder.build_charset.
  destruct (dict_get options "uppercase") eqn:Hu, (dict_get options "lowercase") eqn:Hl,
    (dict_get options "numbers") eqn:Hd, (dict_get options "symbols") eqn:Hs;
    intros Hcs; try discriminate Hcs;
    (destruct (decide _) in Hcs; [discriminate Hcs |]);
    injection Hcs as <-;
    match goal with
    | |- forall c, c ∈ ?l -> @?P c =>
        assert (Hall : forallb (fun c => implb (re_upper c) (dict_get options "uppercase")
                                         && implb (re_lower c) (dict_get options "lowercase")
                                         && implb (re_digit c) (dict_get options "numbers")
                                         && implb (re_symbol c) (dict_get options "symbols")
                                         && Bool.eqb (isupper c) (re_upper c)
                                         && Bool.eqb (islower c) (re_lower c)
                                         && Bool.eqb (isdigit c) (re_digit c)
                                         && Bool.eqb (isalnum c) (negb (re_symbol c)))
                         l = true)
          by (rewrite Hu, Hl, Hd, Hs; vm_compute; reflexivity)
    end;
    intros c Hc; rewrite forallb_forall in Hall;
    specialize (Hall c (proj1 (list_elem_of_In _ _) Hc));
    rewrite Hu, Hl, Hd, Hs in Hall;
    destruct (re_upper c), (re_lower c), (re_digit c), (re_symbol c),
      (isupper c), (islower c), (isdigit c), (isalnum c);
    cbn in Hall; try discriminate Hall; repeat split; intros; congruence.
Qed.

Lemma existsb_class (cls : ascii -> bool) (enabled_flag : bool) (ys : list ascii)
  (char_set : string) :
  forallb cls (chars char_set) = true ->
  (enabled_flag = true -> exists c, c ∈ ys /\ c ∈ chars char_set) ->
  (forall c, c ∈ ys -> cls c = true -> enabled_flag = true) ->
  existsb cls ys = enabled_flag.
Proof.
  intros Hset Hin Hout. destruct (existsb cls ys) eqn:He.
  - apply existsb_exists in He as (c & Hc & Hcls). symmetry.
    apply (Hout c); [now apply list_elem_of_In | assumption].
  - destruct enabled_flag; [| reflexivity].
    destruct (Hin eq_refl) as (c & Hc & Hcset).
    rewrite forallb_forall in Hset.
    assert (Hex : existsb cls ys = true).
    { apply existsb_exists. exists c. split; [now apply list_elem_of_In |].
      apply Hset. now apply list_elem_of_In. }
    congruence.
Qed.

(** The report of a generated password: [analyze] returns one, as a
    generated password has at most 128 characters. *)
Lemma generate_analyze_flags (length : Z) (options : gmap string bool)
  (st : state ascii) :
  valid_length length -> some_enabled options ->
  exists password st' analysis charset,
    PasswordGenerator.generate length options st = Ok (password, st')
    /\ PasswordAnalyzer.analyze password = Ok analysis
    /\ CharsetBuilder.build_charset options = Ok charset
    /\ (forall c, c ∈ chars password -> c ∈ chars charset)
    /\ password <> EmptyString
    /\ Z.of_nat (Analysis.length analysis) = length
    /\ Analysis.has_uppercase analysis = dict_get options "uppercase"
    /\ Analysis.has_lowercase analysis = dict_get options "lowercase"
    /\ Analysis.has_numbers analysis = dict_get options "numbers"
    /\ Analysis.has_symbols analysis = dict_get options "symbols"
    /\ Analysis.entropy analysis = PasswordGenerator.calculate_entropy length options.
Proof.
  intros Hlen Hen.
  destruct (generate_run length options st Hlen Hen)
    as (charset & ys & st' & Hcs & Hrun & Hys & Hreq & Hclosed).
  assert (Hne : string_of_list_ascii ys <> EmptyString).
  { intros Hnil. apply (f_equal String.length) in Hnil.
    rewrite length_string_of_list_ascii in Hnil. cbn in Hnil.
    unfold valid_length, MIN_PASSWORD_LENGTH in Hlen. lia. }
  destruct (analyze_returns (string_of_list_ascii ys)) as [analysis Hreport].
  { apply bits_short. rewrite length_string_of_list_ascii, Hys.
    unfold valid_length, MAX_PASSWORD_LENGTH in Hlen. lia. }
  exists (string_of_list_ascii ys), st', analysis, charset.
  split; [assumption |]. split; [assumption |]. split; [assumption |].
  split; [unfold chars; now rewrite list_ascii_of_string_of_list_ascii |].
  split; [assumption |].
  destruct (analyze_fields _ analysis Hne Hreport)
    as (Hl & Hu & Hlo & Hd & Hs & _ & _ & _ & _ & _ & _ & _ & Hent & _).
  unfold re_search_class, chars in Hu, Hlo, Hd, Hs.
  rewrite list_ascii_of_string_of_list_ascii in Hu, Hlo, Hd, Hs.
  destruct constants_classes as (Cu & Cl & Cd & Cs).
  destruct (get_required_chars_enabled options) as (Ru & Rl & Rd & Rs).
  assert (Hu' : Analysis.has_uppercase analysis = dict_get options "uppercase").
  { rewrite Hu. apply (existsb_class _ _ _ UPPERCASE Cu); [auto |].
    intros c Hc. now apply (charset_classes options charset Hcs c (Hclosed c Hc)). }
  assert (Hlo' : Analysis.has_lowercase analysis = dict_get options "lowercase").
  { rewrite Hlo. apply (existsb_class _ _ _ LOWERCASE Cl); [auto |].
    intros c Hc. now apply (charset_classes options charset Hcs c (Hclosed c Hc)). }
  assert (Hd' : Analysis.has_numbers analysis = dict_get options "numbers").
  { rewrite Hd. apply (existsb_class _ _ _ DIGITS Cd); [auto |].
    intros c Hc. now apply (charset_classes options charset Hcs c (Hclosed c Hc)). }
  assert (Hs' : Analysis.has_symbols analysis = dict_get options "symbols").
  { rewrite Hs. apply (existsb_class _ _ _ SYMBOLS Cs); [auto |].
    intros c Hc. now apply (charset_classes options charset Hcs c (Hclosed c Hc)). }
  assert (Hlength : Z.of_nat (Analysis.length analysis) = length).
  { rewrite Hl, length_string_of_list_ascii, Hys.
    unfold valid_length, MIN_PASSWORD_LENGTH in Hlen. lia. }
  repeat split; try assumption.
  rewrite Hent. unfold PasswordAnalyzer._calculate_entropy, PasswordAnalyzer.charset_size,
    PasswordGenerator.calculate_entropy, EntropyCalculator.entropy_from_options,
    EntropyCalculator.calculate_entropy.
  rewrite Hu', Hlo', Hd', Hs'.
  rewrite <- Hl, INR_IZR_INZ, Hlength.
  unfold valid_length, MIN_PASSWORD_LENGTH in Hlen.
  destruct (Z.leb_spec length 0); [lia |].
  destruct (dict_get options "uppercase"), (dict_get options "lowercase"),
    (dict_get options "numbers"), (dict_get options "symbols");
    reflexivity.
Qed.

(** X21. From the generator to the analyzer: on valid arguments
    [analyze] returns a report of the password that [generate] returns; it
    has the requested length, its four class flags are exactly the
    categories the options enable, and its entropy is the one
    [PasswordGenerator.calculate_entropy] announces for the same length and
    options. *)
Theorem generate_analyze_round_trip (length : Z) (options : gmap string bool)
  (st : state ascii) :
  valid_length length -> some_enabled options ->
  exists password st' analysis,
    PasswordGenerator.generate length options st = Ok (password, st')
    /\ PasswordAnalyzer.analyze password = Ok analysis
    /\ Z.of_nat (Analysis.length analysis) = length
    /\ Analysis.has_uppercase analysis = dict_get options "uppercase"
    /\ Analysis.has_lowercase analysis = dict_get options "lowercase"
    /\ Analysis.has_numbers analysis = dict_get options "numbers"
    /\ Analysis.has_symbols analysis = dict_get options "symbols"
    /\ Analysis.entropy analysis = PasswordGenerator.calculate_entropy length options.
Proof.
  intros Hlen Hen.
  destruct (generate_analyze_flags length options st Hlen Hen)
    as (password & st' & analysis & charset & Hrun & Hreport & _ & _ & _ & Hflags).
  exists password, st', analysis.
  split; [exact Hrun |]. split; [exact Hreport | exact Hflags].
Qed.

Lemma generate_analyze_round_trip_witness :
  let options : gmap string bool := <["uppercase" := true]> (<["symbols" := true]> ∅) in
  let st := State ∅ (fun k => (13 * k + 6)%nat) in
  exists password st' analysis,
    PasswordGenerator.generate 16 options st = Ok (password, st')
    /\ PasswordAnalyzer.analyze password = Ok analysis
    /\ Z.of_nat (Analysis.length analysis) = 16
    /\ Analysis.has_uppercase analysis = dict_get options "uppercase"
    /\ Analysis.has_lowercase analysis = dict_get options "lowercase"
    /\ Analysis.has_numbers analysis = dict_get options "numbers"
    /\ Analysis.has_symbols analysis = dict_get options "symbols"
    /\ Analysis.entropy analysis = PasswordGenerator.calculate_entropy 16 options.
Proof.
  intros options st. apply (generate_analyze_round_trip 16 options st).
  - unfold valid_length, MIN_PASSWORD_LENGTH, MAX_PASSWORD_LENGTH. lia.
  - left. reflexivity.
Defined.

(** ** What every report holds *)

(** X22. For every password of less than 1024 bits, the empty one
    included, [analyze] returns a report; its score is between 0 and 100
    and its strength is the label of that score: weak under 40, medium from
    40, strong from 60, very strong from 80. *)
Theorem analyze_score_strength (password : string) :
  (bits password < 1024)%R ->
  exists analysis,
    PasswordAnalyzer.analyze password = Ok analysis
    /\ let score := Analysis.score analysis in
       let strength := Analysis.strength analysis in
       0 <= score <= 100
       /\ strength = StrengthScorer.get_strength_level score
       /\ (strength = "Weak"%string <-> score < 40)
       /\ (strength = "Medium"%string <-> 40 <= score < 60)
       /\ (strength = "Strong"%string <-> 60 <= score < 80)
       /\ (strength = "Very Strong"%string <-> 80 <= score).
Proof.
  intros Hbits. destruct (analyze_returns password Hbits) as [analysis Hrun].
  exists analysis. split; [exact Hrun |]. intros score strength.
  assert (Hrange : 0 <= score <= 100).
  { unfold score. destruct (decide (password = EmptyString)) as [-> | Hne].
    - rewrite analyze_empty in Hrun. injection Hrun as <-. cbn. lia.
    - destruct (analyze_fields password analysis Hne Hrun)
        as (_ & _ & _ & _ & _ & _ & _ & _ & _ & _ & _ & _ & _ & Hscore & _).
      rewrite Hscore. unfold StrengthScorer.calculate_score. lia. }
  assert (Hlabel : strength = StrengthScorer.get_strength_level score).
  { unfold strength, score.
    destruct (decide (password = EmptyString)) as [-> | Hne].
    - rewrite analyze_empty in Hrun. now injection Hrun as <-.
    - now destruct (analyze_fields password analysis Hne Hrun)
        as (_ & _ & _ & _ & _ & _ & _ & _ & _ & _ & _ & _ & _ & _ & Hstrength & _). }
  split; [assumption |]. split; [assumption |].
  rewrite Hlabel. unfold StrengthScorer.get_strength_level, SCORE_STRONG_THRESHOLD,
    SCORE_MEDIUM_THRESHOLD, SCORE_WEAK_THRESHOLD.
  destruct (Z.geb_spec score 80); [| destruct (Z.geb_spec score 60);
    [| destruct (Z.geb_spec score 40)]];
    repeat split; intros; try discriminate; try lia; reflexivity.
Qed.

Lemma analyze_score_strength_witness :
  let password := "Tr0ub4dor&3"%string in
  (bits password < 1024)%R
  /\ exists analysis,
       PasswordAnalyzer.analyze password = Ok analysis
       /\ 0 <= Analysis.score analysis <= 100
       /\ Analysis.strength analysis
          = StrengthScorer.get_strength_level (Analysis.score analysis).
Proof.
  intros password.
  assert (Hbits : (bits password < 1024)%R) by (apply bits_short; vm_compute; lia).
  split; [exact Hbits |].
  destruct (analyze_score_strength password Hbits)
    as (analysis & Hrun & Hrange & Hlabel & _).
  exists analysis. split; [exact Hrun |]. split; [exact Hrange | exact Hlabel].
Defined.

(** The messages [_generate_recommendations] can give, in their order. *)
Lemma advice_sublist (analysis : Analysis.t) :
  RecommendationSpec.advice analysis `sublist_of`
    [ "Increase length to at least 8 characters";
      "Consider increasing length to 12+ characters";
      "Add uppercase letters (A-Z)"; "Add lowercase letters (a-z)";
      "Add numbers (0-9)"; "Add symbols (!@#$...)";
      RecommendationSpec.avoid_common; RecommendationSpec.avoid_sequential;
      RecommendationSpec.avoid_keyboard; RecommendationSpec.avoid_repeated;
      "Significantly increase password complexity" ]%string.
Proof.
  assert (Hwhen : forall c m l k, l `sublist_of` k ->
            RecommendationSpec.when c m ++ l `sublist_of` m :: k).
  { intros [|] m l k H; cbn; [now apply sublist_skip | now apply sublist_cons]. }
  unfold RecommendationSpec.advice.
  repeat apply Hwhen.
  destruct (if Rlt_dec _ _ then true else false); cbn;
    [apply sublist_skip | apply sublist_cons]; constructor.
Qed.

(** X23. For every password of less than 1024 bits, the empty one
    included, [analyze] returns a report whose list of recommendations is
    never empty and never says the same thing twice. *)
Theorem analyze_recommendations_nonempty (password : string) :
  (bits password < 1024)%R ->
  exists analysis,
    PasswordAnalyzer.analyze password = Ok analysis
    /\ Analysis.recommendations analysis <> []
    /\ NoDup (Analysis.recommendations analysis).
Proof.
  intros Hbits. destruct (analyze_returns password Hbits) as [analysis Hrun].
  exists analysis. split; [exact Hrun |].
  destruct (decide (password = EmptyString)) as [-> | Hne].
  - rewrite analyze_empty in Hrun. injection Hrun as <-.
    split; [discriminate | apply NoDup_singleton].
  - destruct (analyze_fields password analysis Hne Hrun)
      as (_ & _ & _ & _ & _ & _ & _ & _ & _ & _ & _ & _ & _ & _ & _ & _ & _ & Hrec & _).
    rewrite Hrec, generate_recommendations_spec.
    unfold RecommendationSpec.recommendations.
    destruct (decide (RecommendationSpec.advice _ = [])) as [_ | Hadvice].
    + split; [discriminate | apply NoDup_singleton].
    + split; [assumption |].
      eapply sublist_NoDup; [| apply advice_sublist].
      apply (bool_decide_unpack _). vm_compute. reflexivity.
Qed.

Lemma analyze_recommendations_nonempty_witness :
  let password := "password123"%string in
  (bits password < 1024)%R
  /\ exists analysis,
       PasswordAnalyzer.analyze password = Ok analysis
       /\ Analysis.recommendations analysis <> []
       /\ NoDup (Analysis.recommendations analysis).
Proof.
  intros password.
  assert (Hbits : (bits password < 1024)%R) by (apply bits_short; vm_compute; lia).
  split; [exact Hbits |]. exact (analyze_recommendations_nonempty password Hbits).
Defined.

(** X24. For every password of less than 1024 bits [analyze] returns a
    report whose entropy is between [log2 10] and [log2 94] bits for each
    character of the password, and for a non-empty password the diversity
    points are 25 times the number of classes over 4, rounded down: 6, 12,
    18 or 25. *)
Theorem analyze_entropy_bounds (password : string) :
  (bits password < 1024)%R ->
  exists analysis,
    PasswordAnalyzer.analyze password = Ok analysis
    /\ let classes := PasswordAnalyzer.types_used analysis in
       (INR (String.length password) * log2 10 <= Analysis.entropy analysis)%R
       /\ (Analysis.entropy analysis <= INR (String.length password) * log2 94)%R
       /\ (password <> EmptyString ->
             (1 <= classes <= 4)%nat
             /\ Analysis.diversity_score analysis = (INR classes / 4)%R
             /\ StrengthScorer._score_diversity analysis = 25 * Z.of_nat classes / 4).
Proof.
  intros Hbits. destruct (analyze_returns password Hbits) as [analysis Hrun].
  exists analysis. split; [exact Hrun |]. intros classes. subst classes.
  destruct (decide (password = EmptyString)) as [-> | Hne].
  - rewrite analyze_empty in Hrun. injection Hrun as <-.
    cbn [Analysis.entropy PasswordAnalyzer._empty_analysis String.length INR].
    repeat split; try lra; contradiction.
  - destruct (analyze_nonempty_measures password analysis Hne Hrun)
      as (Hsize & Hent & _ & Hdiv).
    destruct (analyze_fields password analysis Hne Hrun)
      as (_ & _ & _ & _ & _ & _ & _ & _ & _ & _ & _ & Hd & _).
    assert (Hlen : (0 <= INR (String.length password))%R) by apply pos_INR.
    split; [| split].
    + rewrite Hent. apply Rmult_le_compat_l; [assumption |].
      apply log2_le; [lra | apply IZR_le; lia].
    + rewrite Hent. apply Rmult_le_compat_l; [assumption |].
      apply log2_le; [apply IZR_lt; lia | apply IZR_le; lia].
    + intros _. unfold PasswordAnalyzer._calculate_diversity in Hd.
      assert (Hk : (1 <= PasswordAnalyzer.types_used analysis <= 4)%nat).
      { split.
        - rewrite Hd in Hdiv. apply INR_le. cbn [INR]. lra.
        - unfold PasswordAnalyzer.types_used.
          destruct (Analysis.has_uppercase analysis), (Analysis.has_lowercase analysis),
            (Analysis.has_numbers analysis), (Analysis.has_symbols analysis); cbn; lia. }
      split; [assumption |]. split; [assumption |].
      unfold StrengthScorer._score_diversity. rewrite Hd.
      rewrite int_of_float_nonneg
        by (pose proof (pos_INR (PasswordAnalyzer.types_used analysis)); lra).
      destruct (PasswordAnalyzer.types_used analysis) as [|[|[|[|[|k]]]]]; try lia;
        match goal with
        | |- Zfloor _ = ?z => let v := eval vm_compute in z in change z with v
        end;
        apply Zfloor_eq; cbn [INR]; lra.
Qed.

Lemma analyze_entropy_bounds_witness :
  let password := "Tr0ub4dor&3"%string in
  (bits password < 1024)%R
  /\ password <> EmptyString
  /\ exists analysis,
       PasswordAnalyzer.analyze password = Ok analysis
       /\ (1 <= PasswordAnalyzer.types_used analysis <= 4)%nat
       /\ Analysis.diversity_score analysis
          = (INR (PasswordAnalyzer.types_used analysis) / 4)%R.
Proof.
  intros password.
  assert (Hbits : (bits password < 1024)%R) by (apply bits_short; vm_compute; lia).
  assert (Hne : password <> EmptyString) by discriminate.
  split; [exact Hbits |]. split; [exact Hne |].
  destruct (analyze_entropy_bounds password Hbits) as (analysis & Hrun & _ & _ & Hclasses).
  exists analysis. split; [exact Hrun |].
  destruct (Hclasses Hne) as (Hk & Hd & _).
  split; [exact Hk | exact Hd].
Defined.

(** ** The policy validator *)

Lemma when_nil (condition : bool) (message : string) :
  RecommendationSpec.when condition message = [] <-> condition = false.
Proof. destruct condition; cbn; split; congruence. Qed.

Lemma lacks_false (cls : ascii -> bool) (password : string) :
  PolicySpec.lacks cls password = false <->
  exists c, c ∈ chars password /\ cls c = true.
Proof.
  unfold PolicySpec.lacks, any. rewrite negb_false_iff, existsb_exists. split.
  - intros (b & Hin & ->). apply in_map_iff in Hin as (c & Hc & Hin).
    exists c. split; [now apply list_elem_of_In | assumption].
  - intros (c & Hin & Hc). exists true. split; [| reflexivity].
    apply in_map_iff. exists c. split; [assumption | now apply list_elem_of_In].
Qed.

Lemma requirement_met (required condition : bool) :
  required && condition = false <-> (required = true -> condition = false).
Proof. destruct required, condition; cbn; split; auto; discriminate. Qed.

(** The verdict of [validate] and the requirements of the policy. *)
Lemma validate_verdict (format_1f format_float : R -> string)
  (policy : PasswordPolicy.t) (password : string)
  (analysis : Analysis.t) (result : ValidationResult.t) :
  PasswordAnalyzer.analyze password = Ok analysis ->
  PolicyValidator.validate format_1f format_float policy password = Ok result ->
  ValidationResult.valid result = true
  <->
  PasswordPolicy.min_length policy <= Z.of_nat (String.length password)
    <= PasswordPolicy.max_length policy
  /\ (PasswordPolicy.require_uppercase policy = true ->
        exists c, c ∈ chars password /\ isupper c = true)
  /\ (PasswordPolicy.require_lowercase policy = true ->
        exists c, c ∈ chars password /\ islower c = true)
  /\ (PasswordPolicy.require_numbers policy = true ->
        exists c, c ∈ chars password /\ isdigit c = true)
  /\ (PasswordPolicy.require_symbols policy = true ->
        exists c, c ∈ chars password /\ isalnum c = false)
  /\ (PasswordPolicy.forbid_common_patterns policy = true ->
        Analysis.has_common_patterns analysis = false)
  /\ (PasswordPolicy.forbid_sequential policy = true ->
        Analysis.has_sequential analysis = false)
  /\ (forall m, PasswordPolicy.min_entropy policy = Some m -> m <> 0%R ->
        (m <= Analysis.entropy analysis)%R).
Proof.
  intros Hrun Hval.
  rewrite (validate_answer format_1f format_float policy password analysis Hrun) in Hval.
  injection Hval as <-. cbn [ValidationResult.valid].
  assert (Hnil : forall l : list string, (List.length l =? 0)%nat = true <-> l = [])
    by (intros [|? ?]; cbn; split; congruence).
  rewrite Hnil. unfold PolicySpec.errors.
  rewrite !app_nil, !when_nil, !requirement_met, !lacks_false.
  rewrite Z.ltb_ge, Z.gtb_ltb, Z.ltb_ge.
  assert (Hsym : (exists c, c ∈ chars password /\ negb (isalnum c) = true)
                 <-> exists c, c ∈ chars password /\ isalnum c = false).
  { split; intros (c & Hc & H); exists c; (split; [assumption |]);
      destruct (isalnum c); cbn in *; congruence. }
  rewrite Hsym.
  assert (Hent : PolicyValidator.entropy_too_low policy (Analysis.entropy analysis) = false
                 <-> forall m, PasswordPolicy.min_entropy policy = Some m -> m <> 0%R ->
                               (m <= Analysis.entropy analysis)%R).
  { unfold PolicyValidator.entropy_too_low.
    destruct (PasswordPolicy.min_entropy policy) as [m |].
    - destruct (Req_dec_T m 0) as [-> | Hm].
      + split; [intros _ m' [= <-] Hm'; contradiction | reflexivity].
      + destruct (Rlt_dec (Analysis.entropy analysis) m).
        * split; [discriminate | intros H; specialize (H m eq_refl Hm); lra].
        * split; [intros _ m' [= <-] _; lra | reflexivity].
    - split; [intros _ m' H; discriminate H | reflexivity]. }
  rewrite Hent. tauto.
Qed.

(** X25. For every password of less than 1024 bits [validate] gives an
    answer, and it accepts exactly the passwords that meet every
    requirement the policy enables: the length within the two bounds, a
    character of each required class as [isupper], [islower], [isdigit]
    and [isalnum] tell them, no common pattern and no sequential run where
    the policy forbids them, and an entropy that is not under a non-zero
    minimum. *)
Theorem validate_valid_iff_requirements (format_1f format_float : R -> string)
  (policy : PasswordPolicy.t) (password : string) :
  (bits password < 1024)%R ->
  exists analysis result,
    PasswordAnalyzer.analyze password = Ok analysis
    /\ PolicyValidator.validate format_1f format_float policy password = Ok result
    /\ (ValidationResult.valid result = true
        <->
        PasswordPolicy.min_length policy <= Z.of_nat (String.length password)
          <= PasswordPolicy.max_length policy
        /\ (PasswordPolicy.require_uppercase policy = true ->
              exists c, c ∈ chars password /\ isupper c = true)
        /\ (PasswordPolicy.require_lowercase policy = true ->
              exists c, c ∈ chars password /\ islower c = true)
        /\ (PasswordPolicy.require_numbers policy = true ->
              exists c, c ∈ chars password /\ isdigit c = true)
        /\ (PasswordPolicy.require_symbols policy = true ->
              exists c, c ∈ chars password /\ isalnum c = false)
        /\ (PasswordPolicy.forbid_common_patterns policy = true ->
              Analysis.has_common_patterns analysis = false)
        /\ (PasswordPolicy.forbid_sequential policy = true ->
              Analysis.has_sequential analysis = false)
        /\ (forall m, PasswordPolicy.min_entropy policy = Some m -> m <> 0%R ->
              (m <= Analysis.entropy analysis)%R)).
Proof.
  intros Hbits. destruct (analyze_returns password Hbits) as [analysis Hrun].
  destruct (validate_returns format_1f format_float policy password Hbits)
    as [result Hval].
  exists analysis, result. split; [exact Hrun |]. split; [exact Hval |].
  now apply (validate_verdict format_1f format_float policy password analysis result).
Qed.

Lemma validate_valid_iff_requirements_witness :
  let password := "Xq7mZp2Lw"%string in
  (bits password < 1024)%R
  /\ exists result,
       PolicyValidator.validate (fun _ => EmptyString) (fun _ => EmptyString)
         PasswordPolicy.default password = Ok result
       /\ ValidationResult.valid result = true.
Proof.
  intros password.
  assert (Hbits : (bits password < 1024)%R) by (apply bits_short; vm_compute; lia).
  split; [exact Hbits |].
  destruct (validate_valid_iff_requirements (fun _ => EmptyString) (fun _ => EmptyString)
              PasswordPolicy.default password Hbits)
    as (analysis & result & Hrun & Hval & Hverdict).
  exists result. split; [exact Hval |].
  assert (Hne : password <> EmptyString) by discriminate.
  destruct (analyze_fields password analysis Hne Hrun)
    as (_ & _ & _ & _ & _ & Hc & Hq & _).
  apply Hverdict.
  split; [vm_compute; split; discriminate |].
  split; [intros _; exists "X"%char; split; [apply list_elem_of_In; cbn; tauto | reflexivity] |].
  split; [intros _; exists "q"%char; split; [apply list_elem_of_In; cbn; tauto | reflexivity] |].
  split; [intros _; exists "7"%char; split; [apply list_elem_of_In; cbn; tauto | reflexivity] |].
  split; [intros H; discriminate H |].
  split; [intros _; rewrite Hc; vm_compute; reflexivity |].
  split; [intros _; rewrite Hq; vm_compute; reflexivity |].
  intros m H. discriminate H.
Defined.

Lemma existsb_map_id {A} (f : A -> bool) (l : list A) :
  any (map f l) = existsb f l.
Proof. unfold any. induction l as [|a l IH]; cbn; [reflexivity | now rewrite IH]. Qed.

(** X26. A generated password and the policy: when the options enable
    every class the policy requires and the length is within the bounds of
    the policy, [analyze] and [validate] return on the password that
    [generate] returns, and it fails none of the length and class
    requirements; [validate] accepts it exactly when it has no forbidden
    pattern and enough entropy. *)
Theorem generate_then_validate (format_1f format_float : R -> string)
  (policy : PasswordPolicy.t) (length : Z) (options : gmap string bool)
  (st : state ascii) :
  valid_length length -> some_enabled options ->
  PasswordPolicy.min_length policy <= length <= PasswordPolicy.max_length policy ->
  (PasswordPolicy.require_uppercase policy = true -> enabled options "uppercase") ->
  (PasswordPolicy.require_lowercase policy = true -> enabled options "lowercase") ->
  (PasswordPolicy.require_numbers policy = true -> enabled options "numbers") ->
  (PasswordPolicy.require_symbols policy = true -> enabled options "symbols") ->
  exists password st' analysis result,
    PasswordGenerator.generate length options st = Ok (password, st')
    /\ PasswordAnalyzer.analyze password = Ok analysis
    /\ PolicyValidator.validate format_1f format_float policy password = Ok result
    /\ (ValidationResult.valid result = true
        <->
        (PasswordPolicy.forbid_common_patterns policy = true ->
           Analysis.has_common_patterns analysis = false)
        /\ (PasswordPolicy.forbid_sequential policy = true ->
              Analysis.has_sequential analysis = false)
        /\ (forall m, PasswordPolicy.min_entropy policy = Some m -> m <> 0%R ->
              (m <= Analysis.entropy analysis)%R)).
Proof.
  intros Hlen Hen Hbounds Hu Hl Hd Hs.
  destruct (generate_analyze_flags length options st Hlen Hen)
    as (password & st' & analysis & charset & Hrun & Hreport & Hcs & Hclosed & Hne
        & Hlength & Fu & Fl & Fd & Fs & _).
  pose proof (validate_answer format_1f format_float policy password analysis Hreport)
    as Hval.
  cbv zeta in Hval.
  match type of Hval with _ = Ok ?r => set (result := r) in Hval end.
  exists password, st', analysis, result.
  split; [exact Hrun |]. split; [exact Hreport |]. split; [exact Hval |].
  destruct (analyze_fields password analysis Hne Hreport) as (Al & Au & Alo & Ad & As & _).
  rewrite (validate_verdict format_1f format_float policy password analysis result
             Hreport Hval).
  assert (Hfound : forall (cls : ascii -> bool) flag key,
            flag = re_search_class cls password -> flag = dict_get options key ->
            enabled options key ->
            exists c, c ∈ chars password /\ cls c = true).
  { intros cls flag key Hflag Hkey Henabled. unfold enabled in Henabled.
    rewrite Henabled in Hkey. subst flag.
    unfold re_search_class in Hkey. apply existsb_exists in Hkey as (c & Hc & Hcls).
    exists c. split; [now apply list_elem_of_In | assumption]. }
  assert (Hascii : forall c, c ∈ chars password ->
            isupper c = re_upper c /\ islower c = re_lower c
            /\ isdigit c = re_digit c /\ isalnum c = negb (re_symbol c)).
  { intros c Hc.
    now destruct (charset_classes options charset Hcs c (Hclosed c Hc))
      as (_ & _ & _ & _ & H). }
  rewrite <- Al, Hlength.
  split.
  - intros (_ & _ & _ & _ & _ & H). exact H.
  - intros H. split; [assumption |].
    split; [intros Hreq; destruct (Hfound re_upper _ _ Au Fu (Hu Hreq)) as (c & Hc & Hcls);
            exists c; split; [assumption |];
            now rewrite (proj1 (Hascii c Hc)) |].
    split; [intros Hreq; destruct (Hfound re_lower _ _ Alo Fl (Hl Hreq)) as (c & Hc & Hcls);
            exists c; split; [assumption |];
            now rewrite (proj1 (proj2 (Hascii c Hc))) |].
    split; [intros Hreq; destruct (Hfound re_digit _ _ Ad Fd (Hd Hreq)) as (c & Hc & Hcls);
            exists c; split; [assumption |];
            now rewrite (proj1 (proj2 (proj2 (Hascii c Hc)))) |].
    split; [| exact H].
    intros Hreq. destruct (Hfound re_symbol _ _ As Fs (Hs Hreq)) as (c & Hc & Hsym).
    exists c. split; [assumption |].
    rewrite (proj2 (proj2 (proj2 (Hascii c Hc)))). now rewrite Hsym.
Qed.

Lemma generate_then_validate_witness :
  let options : gmap string bool :=
    <["uppercase" := true]> (<["lowercase" := true]> (<["numbers" := true]> ∅)) in
  let st := State ∅ (fun k => (17 * k + 9)%nat) in
  exists password st' analysis result,
    PasswordGenerator.generate 12 options st = Ok (password, st')
    /\ PasswordAnalyzer.analyze password = Ok analysis
    /\ PolicyValidator.validate (fun _ => EmptyString) (fun _ => EmptyString)
         PasswordPolicy.default password = Ok result
    /\ (ValidationResult.valid result = true
        <->
        (PasswordPolicy.forbid_common_patterns PasswordPolicy.default = true ->
           Analysis.has_common_patterns analysis = false)
        /\ (PasswordPolicy.forbid_sequential PasswordPolicy.default = true ->
              Analysis.has_sequential analysis = false)
        /\ (forall m, PasswordPolicy.min_entropy PasswordPolicy.default = Some m ->
              m <> 0%R -> (m <= Analysis.entropy analysis)%R)).
Proof.
  intros options st.
  apply (generate_then_validate (fun _ => EmptyString) (fun _ => EmptyString)
           PasswordPolicy.default 12 options st).
  - unfold valid_length, MIN_PASSWORD_LENGTH, MAX_PASSWORD_LENGTH. lia.
  - left. reflexivity.
  - vm_compute. split; discriminate.
  - intros _. reflexivity.
  - intros _. reflexivity.
  - intros _. reflexivity.
  - intros H. discriminate H.
Defined.

Lemma elem_of_rule_step (condition : bool) (rule r : PolicyRule.t)
  (rules : list PolicyRule.t) :
  rule ∈ (if condition then rules ++ [r] else rules) <->
  rule ∈ rules \/ (condition = true /\ rule = r).
Proof.
  destruct condition.
  - rewrite elem_of_app, list_elem_of_singleton. tauto.
  - split; [auto | intros [H | [H _]]; [exact H | discriminate H]].
Qed.

(** The common-pattern flag of a report is what the detector says of the
    password, the empty one included. *)
Lemma analyze_common_patterns (password : string) (analysis : Analysis.t) :
  PasswordAnalyzer.analyze password = Ok analysis ->
  Analysis.has_common_patterns analysis = PatternDetector.has_common_patterns password.
Proof.
  destruct (decide (password = EmptyString)) as [-> | Hne].
  - rewrite analyze_empty. intros [= <-]. vm_compute. reflexivity.
  - intros Hrun.
    now destruct (analyze_fields password analysis Hne Hrun) as (_ & _ & _ & _ & _ & H & _).
Qed.

Ltac rule_enforced violated :=
  split; [reflexivity |];
  split; [repeat first [apply list_elem_of_here | apply list_elem_of_further] |];
  match goal with |- _ -> ?G => change (violated = true -> G) end;
  intros Hviolated; unfold PolicySpec.errors;
  repeat first
    [ apply when_here;
      repeat match goal with H : _ = true |- _ => rewrite H end;
      reflexivity
    | apply when_later ].

(** X27. The rules that [get_rules] announces are the ones [validate]
    enforces: every rule is enabled and bears one of six names, and for a
    password of less than 1024 bits, on which [validate] gives an answer,
    when the password breaks what the rule stands for, the error message of
    the rule is, word for word, among the errors of the answer. The maximum
    length, the sequential runs and the minimum entropy are enforced with
    no rule announcing them. *)
Theorem get_rules_enforced (format_1f format_float : R -> string)
  (policy : PasswordPolicy.t) (password : string) (rule : PolicyRule.t) :
  (bits password < 1024)%R ->
  rule ∈ PasswordPolicy.get_rules policy ->
  exists result,
    PolicyValidator.validate format_1f format_float policy password = Ok result
    /\ PolicyRule.enabled rule = true
    /\ PolicyRule.name rule ∈
         [ "min_length"; "uppercase"; "lowercase"; "numbers"; "symbols";
           "no_common_patterns" ]%string
    /\ (PolicySpec.violates policy password (PolicyRule.name rule) = true ->
          PolicyRule.error_message rule ∈ ValidationResult.errors result).
Proof.
  intros Hbits Hin. destruct (analyze_returns password Hbits) as [analysis Hrun].
  pose proof (analyze_common_patterns password analysis Hrun) as Hcommon.
  eexists. split;
    [exact (validate_answer format_1f format_float policy password analysis Hrun) |].
  cbn [ValidationResult.errors]. revert Hin.
  unfold PasswordPolicy.get_rules. cbv zeta.
  rewrite !elem_of_rule_step. cbn [app]. rewrite list_elem_of_singleton.
  intros [[[[[-> | [Hreq ->]] | [Hreq ->]] | [Hreq ->]] | [Hreq ->]] | [Hreq ->]];
    cbn [PolicyRule.enabled PolicyRule.name PolicyRule.error_message].
  - rule_enforced
      (Z.of_nat (String.length password) <? PasswordPolicy.min_length policy).
  - rule_enforced (PolicySpec.lacks isupper password).
  - rule_enforced (PolicySpec.lacks islower password).
  - rule_enforced (PolicySpec.lacks isdigit password).
  - rule_enforced (PolicySpec.lacks (fun c => negb (isalnum c)) password).
  - unfold PolicySpec.errors. rewrite Hcommon.
    rule_enforced (PatternDetector.has_common_patterns password).
Qed.

Lemma get_rules_enforced_witness :
  let password := "Ab1!"%string in
  let rule :=
    {| PolicyRule.name := "min_length";
       PolicyRule.description := "Minimum 8 characters";
       PolicyRule.enabled := true;
       PolicyRule.error_message := "Password must be at least 8 characters" |} in
  (bits password < 1024)%R
  /\ rule ∈ PasswordPolicy.get_rules PasswordPolicy.default
  /\ PolicySpec.violates PasswordPolicy.default password (PolicyRule.name rule) = true
  /\ exists result,
       PolicyValidator.validate (fun _ => EmptyString) (fun _ => EmptyString)
         PasswordPolicy.default password = Ok result
       /\ PolicyRule.error_message rule ∈ ValidationResult.errors result.
Proof.
  intros password rule.
  assert (Hbits : (bits password < 1024)%R) by (apply bits_short; vm_compute; lia).
  assert (Hin : rule ∈ PasswordPolicy.get_rules PasswordPolicy.default)
    by (apply list_elem_of_In; left; reflexivity).
  assert (Hv : PolicySpec.violates PasswordPolicy.default password (PolicyRule.name rule)
               = true)
    by (vm_compute; reflexivity).
  split; [exact Hbits |]. split; [exact Hin |]. split; [exact Hv |].
  destruct (get_rules_enforced (fun _ => EmptyString) (fun _ => EmptyString)
              PasswordPolicy.default password rule Hbits Hin)
    as (result & Hval & _ & _ & Henforced).
  exists result. split; [exact Hval | exact (Henforced Hv)].
Defined.

Lemma dictionary_patterns_meaning_witness :
  PatternDetector.has_common_patterns "MyPassword1" = true
  /\ exists word pre post,
       In word COMMON_PATTERNS /\ lower "MyPassword1" = (pre ++ word ++ post)%string.
Proof.
  assert (H : PatternDetector.has_common_patterns "MyPassword1" = true)
    by (vm_compute; reflexivity).
  split; [exact H |].
  exact (proj1 (proj1 (dictionary_patterns_meaning "MyPassword1")) H).
Defined.

Lemma repeated_characters_meaning_witness :
  (exists pre c post,
     c <> newline
     /\ "baaad"%string = (pre ++ String c (String c (String c post)))%string)
  /\ PatternDetector.has_repeated_characters "baaad" 3 = Ok true.
Proof.
  assert (H : exists pre c post,
            c <> newline
            /\ "baaad"%string = (pre ++ String c (String c (String c post)))%string).
  { exists "b"%string, "a"%char, "d"%string. split; [discriminate | reflexivity]. }
  split; [exact H |].
  exact (proj2 (repeated_characters_meaning "baaad") H).
Defined.
